(** * lunabot: the widget layout engine of [src/plugins/utils/plot.py]

    A shallow embedding of the layout and region logic of the plotting
    module: the [Painter] region stack, the [Widget] size and draw protocol,
    the containers ([Frame], [HSplit], [VSplit], [Grid]), the leaves
    ([TextBox], [ImageBox], [Spacer]), [Canvas.get_img] and the two
    gradients.

    Conventions of the embedding.
    - Python [int] is [Z]; [//] and [%] are [Z.div] and [Z.modulo] (both
      floor, the sign of the remainder follows the divisor, as in Python).
    - Python [float] is the kernel's binary64 [float]; [int / int] is the
      exact quotient rounded once, to nearest with ties to even, whatever the
      size of the operands, and an [OverflowError] when that is no float.
    - Exceptions are the [Raise] results of the [Res] monad.  A [while True]
      loop takes fuel and raises [Diverges] when it runs out.
    - The size cache [_calc_w], [_calc_h] is part of the widget attributes;
      [get_self_size_node] reads and writes it.  On the tree the size is
      recomputed instead of written back: within one measurement or draw
      no attribute changes, so both give the same sizes and exceptions.
    - The raster buffer itself is not modelled: the drawing primitives
      ([rect], [roundrect], [text], [paste], ...) read [offset] and [size] and
      write pixels, they never touch the region state, so a [Painter] is its
      region state and the image it draws on.  Of an image the mode and the
      size are kept, and of Pillow the sizes it refuses: [Image.new] a
      negative extent, [Image.resize] an extent below 1. *)

From Stdlib Require Import String Ascii.
From Stdlib Require Import ZArith List Bool Lia Floats.
From Equations Require Import Equations.
Import ListNotations.
Open Scope Z_scope.

(* ===================================================================== *)
(** ** Python values and exceptions                                        *)
(* ===================================================================== *)

Definition Position : Type := Z * Z.
Definition Size : Type := Z * Z.

Inductive Error :=
| ValueError
| AssertionError
| TypeError
| ZeroDivisionError
| OverflowError
| Diverges.          (* the fuel of a [while True] loop ran out *)

Inductive Res (A : Type) :=
| Ok (a : A)
| Raise (e : Error).
Arguments Ok {A} a.
Arguments Raise {A} e.

Definition bind {A B} (c : Res A) (k : A -> Res B) : Res B :=
  match c with
  | Ok a => k a
  | Raise e => Raise e
  end.

Notation "x <- c ;; k" := (bind c (fun x => k))
  (at level 61, c at next level, right associativity).
Notation "' pat <- c ;; k" := (bind c (fun x => match x with pat => k end))
  (at level 61, pat pattern, c at next level, right associativity).

(** [assert cond] *)
Definition assert_ (cond : bool) : Res unit :=
  if cond then Ok tt else Raise AssertionError.

(** Truth value of an attribute that is [None] or an [int]. *)
Definition truthy (o : option Z) : bool :=
  match o with
  | Some z => negb (z =? 0)
  | None => false
  end.

(** [[f(x) for x in xs]] where [f] may raise: the first exception wins. *)
Fixpoint sequence {A} (cs : list (Res A)) : Res (list A) :=
  match cs with
  | [] => Ok []
  | c :: cs' => a <- c ;; r <- sequence cs' ;; Ok (a :: r)
  end.

(** [max(xs)] of a list of ints; [ValueError] on the empty list. *)
Definition py_max_list (xs : list Z) : Res Z :=
  match xs with
  | [] => Raise ValueError
  | x :: xs' => Ok (fold_left Z.max xs' x)
  end.

Definition py_sum (xs : list Z) : Z := fold_left Z.add xs 0.

Definition len {A} (xs : list A) : Z := Z.of_nat (length xs).

(** [s[:k]] and [s[k:]] with Python's treatment of a negative index. *)
Definition py_slice_to {A} (s : list A) (k : Z) : list A :=
  firstn (Z.to_nat (if k <? 0 then Z.max 0 (len s + k) else k)) s.

Definition py_slice_from {A} (s : list A) (k : Z) : list A :=
  skipn (Z.to_nat (if k <? 0 then Z.max 0 (len s + k) else k)) s.

Definition size_eqb (a b : Size) : bool :=
  (fst a =? fst b) && (snd a =? snd b).

(* ===================================================================== *)
(** ** Floats                                                              *)
(* ===================================================================== *)

(** [float(z)]: round to nearest even, exact below 2^53. *)
Definition float_of_Z (z : Z) : float :=
  SF2Prim (binary_normalize prec emax z 0 false).

(** [int(f)]: truncation toward zero; [ValueError] on nan, [OverflowError]
    on an infinity. *)
Definition py_int (f : float) : Res Z :=
  match Prim2SF f with
  | S754_zero _ => Ok 0
  | S754_finite s m e =>
      let a := if 0 <=? e then Z.pos m * 2 ^ e else Z.pos m / 2 ^ (- e) in
      Ok (if s then - a else a)
  | S754_infinity _ => Raise OverflowError
  | S754_nan => Raise ValueError
  end.

(** An int of any size as an exact, unrounded float. *)
Definition SF_of_Z (z : Z) : spec_float :=
  match z with
  | Z0 => S754_zero false
  | Zpos m => S754_finite false m 0
  | Zneg m => S754_finite true m 0
  end.

(** [a / b] on two ints: the exact quotient, rounded once to nearest, ties
    to even; [OverflowError] when it is too large for a float. *)
Definition py_truediv (a b : Z) : Res float :=
  if b =? 0 then Raise ZeroDivisionError
  else
    match SFdiv prec emax (SF_of_Z a) (SF_of_Z b) with
    | S754_infinity _ => Raise OverflowError
    | q => Ok (SF2Prim q)
    end.

(** [max(a, b)] and [min(a, b)] on floats: the first argument unless the
    second is strictly larger (resp. smaller). *)
Definition py_fmax (a b : float) : float := if (a <? b)%float then b else a.
Definition py_fmin (a b : float) : float := if (b <? a)%float then b else a.

(* ===================================================================== *)
(** ** Alignment tokens                                                    *)
(* ===================================================================== *)

Inductive HAlign := HL | HC | HR.
Inductive VAlign := VT | VC | VB.

Definition ALIGN_MAP (align : string) : option (HAlign * VAlign) :=
  if String.eqb align "c" then Some (HC, VC)
  else if String.eqb align "l" then Some (HL, VC)
  else if String.eqb align "r" then Some (HR, VC)
  else if String.eqb align "t" then Some (HC, VT)
  else if String.eqb align "b" then Some (HC, VB)
  else if String.eqb align "tl" then Some (HL, VT)
  else if String.eqb align "tr" then Some (HR, VT)
  else if String.eqb align "bl" then Some (HL, VB)
  else if String.eqb align "br" then Some (HR, VB)
  else if String.eqb align "lt" then Some (HL, VT)
  else if String.eqb align "lb" then Some (HL, VB)
  else if String.eqb align "rt" then Some (HR, VT)
  else if String.eqb align "rb" then Some (HR, VB)
  else None.

(** The [l]/[r]/[c] and [t]/[b]/[c] branches that place a box of extent
    [inner] inside one of extent [outer]. *)
Definition halign_pos (a : HAlign) (outer inner : Z) : Z :=
  match a with
  | HL => 0
  | HR => outer - inner
  | HC => (outer - inner) / 2
  end.

Definition valign_pos (a : VAlign) (outer inner : Z) : Z :=
  match a with
  | VT => 0
  | VB => outer - inner
  | VC => (outer - inner) / 2
  end.

(* ===================================================================== *)
(** ** Painter: the region stack                                           *)
(* ===================================================================== *)

Inductive ImageMode := RGBA.

Record Image := mkImage { im_mode : ImageMode; im_size : Size }.

(** [Image.new(mode, size, color)]: Pillow refuses a negative extent with a
    [ValueError].  An allocation that fails for lack of memory is not
    modelled; the result on [get_img] keeps both extents below the pixel
    limit of the canvas. *)
Definition Image_new (mode : ImageMode) (size : Size) : Res Image :=
  if (fst size <? 0) || (snd size <? 0) then Raise ValueError
  else Ok {| im_mode := mode; im_size := size |}.

(** [img.resize(size)], on the sizes: a copy when [size] is the size of the
    image, else Pillow refuses an extent below 1 with a [ValueError]. *)
Definition Image_resize (img_size size : Size) : Res Size :=
  if size_eqb img_size size then Ok size
  else if (fst size <? 1) || (snd size <? 1) then Raise ValueError
  else Ok size.

(** The first statement of [Painter.paste] and of
    [Painter.paste_with_alphablend]:
    [if size and size != sub_img.size: sub_img = sub_img.resize(size)]
    (a pair is always true).  The result is the size of what is pasted. *)
Definition paste_resize (sub_img : Size) (size : option Size) : Res Size :=
  match size with
  | Some s => if size_eqb s sub_img then Ok sub_img else Image_resize sub_img s
  | None => Ok sub_img
  end.

Module Painter.

(** [region_stack] keeps the top of the Python list at the head.
    [self.w] and [self.h] always mirror [size], they are [get_w], [get_h]. *)
Record t := mk {
  img : Image;
  offset : Position;
  size : Size;
  region_stack : list (Position * Size)
}.

Definition get_w (p : t) : Z := fst (size p).
Definition get_h (p : t) : Z := snd (size p).

Definition init (im : Image) : t :=
  {| img := im; offset := (0, 0); size := im_size im; region_stack := [] |}.

(** The two [isinstance(..., int)] assertions hold by typing. *)
Definition set_region (p : t) (pos : Position) (sz : Size) : t :=
  {| img := img p;
     offset := pos;
     size := sz;
     region_stack := (offset p, size p) :: region_stack p |}.

Definition shrink_region (p : t) (dlt : Position) : t :=
  let pos := (fst (offset p) + fst dlt, snd (offset p) + snd dlt) in
  let sz := (fst (size p) - fst dlt * 2, snd (size p) - snd dlt * 2) in
  set_region p pos sz.

Definition expand_region (p : t) (dlt : Position) : t :=
  let pos := (fst (offset p) - fst dlt, snd (offset p) - snd dlt) in
  let sz := (fst (size p) + fst dlt * 2, snd (size p) + snd dlt * 2) in
  set_region p pos sz.

(** [size or self.size]: a 2-tuple is always true, only [None] falls back. *)
Definition move_region (p : t) (dlt : Position) (sz : option Size) : t :=
  let off := (fst (offset p) + fst dlt, snd (offset p) + snd dlt) in
  let sz := match sz with Some s => s | None => size p end in
  set_region p off sz.

Definition restore_once (p : t) : t :=
  match region_stack p with
  | [] => {| img := img p; offset := (0, 0); size := im_size (img p);
             region_stack := [] |}
  | (o, s) :: rest => {| img := img p; offset := o; size := s;
                         region_stack := rest |}
  end.

(** [restore_region(depth)]: one pop, then again while [depth > 1]. *)
Fixpoint restore_region (p : t) (depth : nat) : t :=
  let p' := restore_once p in
  match depth with
  | S (S _ as d) => restore_region p' d
  | _ => p'
  end.

Definition get (p : t) : Image := img p.

End Painter.

(* ===================================================================== *)
(** ** Widgets: the data                                                   *)
(* ===================================================================== *)

Definition Color : Type := Z * Z * Z * Z.
Definition BLACK : Color := (0, 0, 0, 255).

(** Text is a sequence of characters. *)
Definition str : Type := list ascii.

Definition DEFAULT_PADDING : Z := 0.
Definition DEFAULT_MARGIN : Z := 0.
Definition DEFAULT_SEP : Z := 8.
Definition DEFAULT_FONT : string := "SourceHanSansCN-Regular".

Module TextStyle.
Record t := mk { font : string; size : Z; color : Color }.
Definition default : t := {| font := DEFAULT_FONT; size := 16; color := BLACK |}.
End TextStyle.

(** A draw hook [draw_func(self, p)], seen from the painter. *)
Definition DrawFunc : Type := Painter.t -> Res Painter.t.

(** The attributes every [Widget] carries.  [parent] and [omit_parent_bg]
    are left out, and [bg] is no field of its own: [_draw_self] calls
    [bg.draw(p)] and then every draw hook, each with the painter, so a
    background that can raise or set a region is the first element of
    [draw_funcs], and one that only paints is left out like every drawing
    primitive.  The [item_bg] of the containers is not set. *)
Record Attrs := mkAttrs {
  content_halign : HAlign;
  content_valign : VAlign;
  vmargin : Z;
  hmargin : Z;
  vpadding : Z;
  hpadding : Z;
  w : option Z;
  h : option Z;
  offset : Position;
  offset_xanchor : HAlign;
  offset_yanchor : VAlign;
  _calc_w : option Z;
  _calc_h : option Z;
  draw_funcs : list DrawFunc
}.

Inductive ItemSizeMode := Expand | Fixed.
Inductive Overflow := Shrink | Clip.
Inductive ImageSizeMode := Fit | Fill | Original.

(** What [HSplit], [VSplit] and [Grid] share about their items. *)
Record ItemCfg := mkItemCfg {
  item_size_mode : ItemSizeMode;
  item_halign : HAlign;
  item_valign : VAlign
}.

(** [ratios] are taken to be ints. *)
Record SplitCfg := mkSplitCfg {
  ratios : option (list Z);
  sep : Z;
  split_items : ItemCfg
}.

Record GridCfg := mkGridCfg {
  row_count : option Z;
  col_count : option Z;
  hsep : Z;
  vsep : Z;
  vertical : bool;
  grid_items : ItemCfg
}.

Record TextCfg := mkTextCfg {
  text : str;
  style : TextStyle.t;
  line_count : Z;
  line_sep : Z;
  wrap : bool;
  overflow : Overflow;
  use_real_line_count : bool
}.

(** Of the bitmap only [image.size] matters to the layout.  The two ways
    of pasting, [use_alphablend] or not, start with the same resize. *)
Record ImageCfg := mkImageCfg {
  image : Size;
  image_size_mode : ImageSizeMode
}.

(** The widget tree.  A [Canvas] is a [Frame]. *)
#[local] Set Warnings "-register-all".
Inductive Widget :=
| PlainWidget (a : Attrs)
| Frame (a : Attrs) (items : list Widget)
| HSplit (a : Attrs) (c : SplitCfg) (items : list Widget)
| VSplit (a : Attrs) (c : SplitCfg) (items : list Widget)
| Grid (a : Attrs) (c : GridCfg) (items : list Widget)
| TextBox (a : Attrs) (c : TextCfg)
| ImageBox (a : Attrs) (c : ImageCfg)
| Spacer (a : Attrs).

Definition attrs (wd : Widget) : Attrs :=
  match wd with
  | PlainWidget a | Frame a _ | HSplit a _ _ | VSplit a _ _ | Grid a _ _
  | TextBox a _ | ImageBox a _ | Spacer a => a
  end.

Definition items_of (wd : Widget) : list Widget :=
  match wd with
  | Frame _ its | HSplit _ _ its | VSplit _ _ its | Grid _ _ its => its
  | _ => []
  end.

(* ===================================================================== *)
(** ** Widgets: constructors and setters                                   *)
(* ===================================================================== *)

(** [Widget.__init__] *)
Definition Widget_init : Attrs :=
  {| content_halign := HL; content_valign := VT;
     vmargin := DEFAULT_MARGIN; hmargin := DEFAULT_MARGIN;
     vpadding := DEFAULT_PADDING; hpadding := DEFAULT_PADDING;
     w := None; h := None;
     offset := (0, 0); offset_xanchor := HL; offset_yanchor := VT;
     _calc_w := None; _calc_h := None;
     draw_funcs := [] |}.

Definition with_content_align (a : Attrs) (ha : HAlign) (va : VAlign) : Attrs :=
  {| content_halign := ha; content_valign := va;
     vmargin := vmargin a; hmargin := hmargin a;
     vpadding := vpadding a; hpadding := hpadding a;
     w := w a; h := h a;
     offset := offset a; offset_xanchor := offset_xanchor a;
     offset_yanchor := offset_yanchor a;
     _calc_w := _calc_w a; _calc_h := _calc_h a;
     draw_funcs := draw_funcs a |}.

Definition set_content_align (a : Attrs) (align : string) : Res Attrs :=
  match ALIGN_MAP align with
  | None => Raise ValueError
  | Some (ha, va) => Ok (with_content_align a ha va)
  end.

Definition set_offset_anchor (a : Attrs) (anchor : string) : Res Attrs :=
  match ALIGN_MAP anchor with
  | None => Raise ValueError
  | Some (xa, ya) =>
      Ok {| content_halign := content_halign a; content_valign := content_valign a;
            vmargin := vmargin a; hmargin := hmargin a;
            vpadding := vpadding a; hpadding := hpadding a;
            w := w a; h := h a;
            offset := offset a; offset_xanchor := xa; offset_yanchor := ya;
            _calc_w := _calc_w a; _calc_h := _calc_h a;
            draw_funcs := draw_funcs a |}
  end.

(** [set_margin] and [set_padding] take an int or a pair. *)
Definition set_margin (a : Attrs) (margin : Z + Z * Z) : Attrs :=
  let '(hm, vm) := match margin with inl m => (m, m) | inr p => p end in
  {| content_halign := content_halign a; content_valign := content_valign a;
     vmargin := vm; hmargin := hm;
     vpadding := vpadding a; hpadding := hpadding a;
     w := w a; h := h a;
     offset := offset a; offset_xanchor := offset_xanchor a;
     offset_yanchor := offset_yanchor a;
     _calc_w := _calc_w a; _calc_h := _calc_h a;
     draw_funcs := draw_funcs a |}.

Definition set_padding (a : Attrs) (padding : Z + Z * Z) : Attrs :=
  let '(hp, vp) := match padding with inl m => (m, m) | inr p => p end in
  {| content_halign := content_halign a; content_valign := content_valign a;
     vmargin := vmargin a; hmargin := hmargin a;
     vpadding := vp; hpadding := hp;
     w := w a; h := h a;
     offset := offset a; offset_xanchor := offset_xanchor a;
     offset_yanchor := offset_yanchor a;
     _calc_w := _calc_w a; _calc_h := _calc_h a;
     draw_funcs := draw_funcs a |}.

(** [set_size(size)]; a false [size] stands for [(None, None)]. *)
Definition set_size (a : Attrs) (sz : option (option Z * option Z)) : Attrs :=
  let '(sw, sh) := match sz with Some p => p | None => (None, None) end in
  {| content_halign := content_halign a; content_valign := content_valign a;
     vmargin := vmargin a; hmargin := hmargin a;
     vpadding := vpadding a; hpadding := hpadding a;
     w := sw; h := sh;
     offset := offset a; offset_xanchor := offset_xanchor a;
     offset_yanchor := offset_yanchor a;
     _calc_w := _calc_w a; _calc_h := _calc_h a;
     draw_funcs := draw_funcs a |}.

Definition set_offset (a : Attrs) (off : Position) : Attrs :=
  {| content_halign := content_halign a; content_valign := content_valign a;
     vmargin := vmargin a; hmargin := hmargin a;
     vpadding := vpadding a; hpadding := hpadding a;
     w := w a; h := h a;
     offset := off; offset_xanchor := offset_xanchor a;
     offset_yanchor := offset_yanchor a;
     _calc_w := _calc_w a; _calc_h := _calc_h a;
     draw_funcs := draw_funcs a |}.

(** [Widget.add_draw_func] and [Widget.clear_draw_funcs]; any callable is
    taken. *)
Definition add_draw_func (a : Attrs) (func : DrawFunc) : Attrs :=
  {| content_halign := content_halign a; content_valign := content_valign a;
     vmargin := vmargin a; hmargin := hmargin a;
     vpadding := vpadding a; hpadding := hpadding a;
     w := w a; h := h a;
     offset := offset a; offset_xanchor := offset_xanchor a;
     offset_yanchor := offset_yanchor a;
     _calc_w := _calc_w a; _calc_h := _calc_h a;
     draw_funcs := draw_funcs a ++ [func] |}.

Definition clear_draw_funcs (a : Attrs) : Attrs :=
  {| content_halign := content_halign a; content_valign := content_valign a;
     vmargin := vmargin a; hmargin := hmargin a;
     vpadding := vpadding a; hpadding := hpadding a;
     w := w a; h := h a;
     offset := offset a; offset_xanchor := offset_xanchor a;
     offset_yanchor := offset_yanchor a;
     _calc_w := _calc_w a; _calc_h := _calc_h a;
     draw_funcs := [] |}.

(** [assert item_size_mode in ('expand', 'fixed')] *)
Definition check_item_size_mode (mode : string) : Res ItemSizeMode :=
  if String.eqb mode "expand" then Ok Expand
  else if String.eqb mode "fixed" then Ok Fixed
  else Raise AssertionError.

(** [assert overflow in ('shrink', 'clip')] *)
Definition check_overflow (mode : string) : Res Overflow :=
  if String.eqb mode "shrink" then Ok Shrink
  else if String.eqb mode "clip" then Ok Clip
  else Raise AssertionError.

(** [assert mode in ('fit', 'fill', 'original')] *)
Definition check_image_size_mode (mode : string) : Res ImageSizeMode :=
  if String.eqb mode "fit" then Ok Fit
  else if String.eqb mode "fill" then Ok Fill
  else if String.eqb mode "original" then Ok Original
  else Raise AssertionError.

(** The [item_align] check shared by the three container constructors and
    by [set_item_align]. *)
Definition check_item_align (mode : ItemSizeMode) (item_align : string) : Res ItemCfg :=
  match ALIGN_MAP item_align with
  | None => Raise ValueError
  | Some (ha, va) =>
      Ok {| item_size_mode := mode; item_halign := ha; item_valign := va |}
  end.

(** [Frame.__init__] *)
Definition Frame_init (items : list Widget) : Widget :=
  Frame Widget_init items.

(** [HSplit.__init__] and [VSplit.__init__] *)
Definition HSplit_init (items : list Widget) (ratios : option (list Z)) (sep : Z)
    (item_size_mode item_align : string) : Res Widget :=
  mode <- check_item_size_mode item_size_mode ;;
  ic <- check_item_align mode item_align ;;
  Ok (HSplit Widget_init {| ratios := ratios; sep := sep; split_items := ic |} items).

Definition VSplit_init (items : list Widget) (ratios : option (list Z)) (sep : Z)
    (item_size_mode item_align : string) : Res Widget :=
  mode <- check_item_size_mode item_size_mode ;;
  ic <- check_item_align mode item_align ;;
  Ok (VSplit Widget_init {| ratios := ratios; sep := sep; split_items := ic |} items).

(** [Grid.__init__] *)
Definition Grid_init (items : list Widget) (row_count col_count : option Z)
    (item_size_mode item_align : string) (hsep vsep : Z) (vertical : bool) : Res Widget :=
  _ <- assert_ (negb (truthy row_count && truthy col_count)) ;;
  mode <- check_item_size_mode item_size_mode ;;
  ic <- check_item_align mode item_align ;;
  Ok (Grid Widget_init
        {| row_count := row_count; col_count := col_count;
           hsep := hsep; vsep := vsep; vertical := vertical; grid_items := ic |}
        items).

(** [TextBox.__init__] *)
Definition TextBox_init (text : str) (style : option TextStyle.t) (line_count : option Z)
    (line_sep : Z) (wrap : bool) (overflow : string) (use_real_line_count : bool)
    : Res Widget :=
  ov <- check_overflow overflow ;;
  let lc := match line_count with
            | Some n => n
            | None => if use_real_line_count then 99999 else 1
            end in
  Ok (TextBox (set_margin (set_padding Widget_init (inl 2)) (inl 0))
        {| text := text;
           style := match style with Some s => s | None => TextStyle.default end;
           line_count := lc; line_sep := line_sep; wrap := wrap;
           overflow := ov; use_real_line_count := use_real_line_count |}).

(** [TextBox.set_overflow] *)
Definition set_overflow (c : TextCfg) (ov : string) : Res TextCfg :=
  o <- check_overflow ov ;;
  Ok {| text := text c; style := style c; line_count := line_count c;
        line_sep := line_sep c; wrap := wrap c; overflow := o;
        use_real_line_count := use_real_line_count c |}.

(** [ImageBox.__init__]: with no mode given it is ['fit'] when a size with
    a true component is given and ['original'] otherwise. *)
Definition ImageBox_init (image : Size) (image_size_mode : option string)
    (size : option (option Z * option Z)) : Res Widget :=
  let a := match size with Some _ => set_size Widget_init size | None => Widget_init end in
  mode <- match image_size_mode with
          | None =>
              match size with
              | Some (sw, sh) =>
                  if truthy sw || truthy sh then check_image_size_mode "fit"
                  else check_image_size_mode "original"
              | None => check_image_size_mode "original"
              end
          | Some m => check_image_size_mode m
          end ;;
  Ok (ImageBox (set_padding (set_margin a (inl 0)) (inl 0))
        {| image := image; image_size_mode := mode |}).

(** [Spacer.__init__] *)
Definition Spacer_init (sw sh : option Z) : Widget :=
  Spacer (set_size Widget_init (Some (sw, sh))).

(** [Canvas.__init__]: a [Frame] with a size and no margin. *)
Definition Canvas_init (cw ch : option Z) : Widget :=
  Frame (set_margin (set_size Widget_init (Some (cw, ch))) (inl 0)) [].

(** [add_item] of the four containers. *)
Definition add_item (wd item : Widget) : Widget :=
  match wd with
  | Frame a its => Frame a (its ++ [item])
  | HSplit a c its => HSplit a c (its ++ [item])
  | VSplit a c its => VSplit a c (its ++ [item])
  | Grid a c its => Grid a c (its ++ [item])
  | other => other
  end.

(* ===================================================================== *)
(** ** Measurement                                                         *)
(* ===================================================================== *)

Definition newline : ascii := "010"%char.
Definition ellipsis : str := list_ascii_of_string "...".

(** [text.split('\n')] *)
Fixpoint split_lines (s : str) : list str :=
  match s with
  | [] => [[]]
  | c :: s' =>
      if Ascii.eqb c newline then [] :: split_lines s'
      else match split_lines s' with
           | l :: ls => (c :: l) :: ls
           | [] => [[c]]
           end
  end.

(** [Widget._get_self_size], one node: the cached pair when both cached
    extents are true, else the size from the content size, stored in the
    cache.  Returns the size and the widget attributes after the call. *)
Definition get_self_size_node (a : Attrs) (content : Res Size) : Res (Size * Attrs) :=
  if truthy (_calc_w a) && truthy (_calc_h a) then
    match _calc_w a, _calc_h a with
    | Some cw, Some ch => Ok ((cw, ch), a)
    | _, _ => Raise TypeError
    end
  else
    '(content_w, content_h) <- content ;;
    let content_w_limit :=
      match w a with Some w0 => w0 - hpadding a * 2 | None => content_w end in
    let content_h_limit :=
      match h a with Some h0 => h0 - vpadding a * 2 | None => content_h end in
    if (content_w >? content_w_limit) || (content_h >? content_h_limit) then
      Raise ValueError
    else
      let cw := content_w_limit + hmargin a * 2 + hpadding a * 2 in
      let ch := content_h_limit + vmargin a * 2 + vpadding a * 2 in
      Ok ((cw, ch),
          {| content_halign := content_halign a; content_valign := content_valign a;
             vmargin := vmargin a; hmargin := hmargin a;
             vpadding := vpadding a; hpadding := hpadding a;
             w := w a; h := h a;
             offset := offset a; offset_xanchor := offset_xanchor a;
             offset_yanchor := offset_yanchor a;
             _calc_w := Some cw; _calc_h := Some ch;
             draw_funcs := draw_funcs a |}).

(** The size alone.  Inside one measurement or draw nothing is mutated
    between two calls, so recomputing returns what the cache would. *)
Definition self_size_of (a : Attrs) (content : Res Size) : Res Size :=
  '(sz, _) <- get_self_size_node a content ;; Ok sz.

(** [Frame._get_content_size], from the self sizes of the items. *)
Definition Frame_content_size (item_sizes : list (Res Size)) : Res Size :=
  fold_left
    (fun acc it =>
       '(sw, sh) <- acc ;;
       '(iw, ih) <- it ;;
       Ok (Z.max sw iw, Z.max sh ih))
    item_sizes (Ok (0, 0)).

(** The [zip(ratios, self.items)] loop of the fixed mode:
    [unit = max(unit, extent / r)] for every [r > 0]. *)
Fixpoint fixed_unit (pick : Size -> Z) (rs : list Z) (item_sizes : list (Res Size))
    (unit : float) : Res float :=
  match rs, item_sizes with
  | r :: rs', it :: its' =>
      sz <- it ;;
      unit' <- (if 0 <? r then
                  q <- py_truediv (pick sz) r ;; Ok (py_fmax unit q)
                else Ok unit) ;;
      fixed_unit pick rs' its' unit'
  | _, _ => Ok unit
  end.

(** [[(int(unit * r), other) for r, item in zip(ratios, self.items)]] *)
Fixpoint scaled_extents (rs : list Z) (item_sizes : list (Res Size)) (unit : float)
    : Res (list Z) :=
  match rs, item_sizes with
  | r :: rs', _ :: its' =>
      e <- py_int (unit * float_of_Z r)%float ;;
      es <- scaled_extents rs' its' unit ;;
      Ok (e :: es)
  | _, _ => Ok []
  end.

(** [HSplit._get_item_sizes] ([main] is the width, [cross] the height) and
    [VSplit._get_item_sizes] (the other way round): the extents along the
    main axis and the common cross extent. *)
Definition split_item_sizes (main cross : Size -> Z) (extent : option Z) (pad : Z)
    (c : SplitCfg) (item_sizes : list (Res Size)) : Res (list Z * Z) :=
  rs <- match ratios c with
        | Some (r :: rs') => Ok (r :: rs')
        | _ => szs <- sequence item_sizes ;; Ok (map main szs)
        end ;;
  unit <- match item_size_mode (split_items c) with
          | Expand =>
              match extent with
              | None => Raise AssertionError
              | Some e =>
                  let ratio_sum := py_sum rs in
                  py_truediv (e - sep c * (len rs - 1) - pad * 2) ratio_sum
              end
          | Fixed => fixed_unit main rs item_sizes 0%float
          end ;;
  szs <- sequence item_sizes ;;
  cr <- py_max_list (map cross szs) ;;
  es <- scaled_extents rs item_sizes unit ;;
  Ok (es, cr).

Definition HSplit_get_item_sizes (a : Attrs) (c : SplitCfg) (item_sizes : list (Res Size))
    : Res (list Size) :=
  '(es, cr) <- split_item_sizes fst snd (w a) (hpadding a) c item_sizes ;;
  Ok (map (fun e => (e, cr)) es).

Definition VSplit_get_item_sizes (a : Attrs) (c : SplitCfg) (item_sizes : list (Res Size))
    : Res (list Size) :=
  '(es, cr) <- split_item_sizes snd fst (h a) (vpadding a) c item_sizes ;;
  Ok (map (fun e => (cr, e)) es).

(** [HSplit._get_content_size] *)
Definition HSplit_content_size (a : Attrs) (c : SplitCfg) (item_sizes : list (Res Size))
    : Res Size :=
  match item_sizes with
  | [] => Ok (0, 0)
  | _ =>
      sizes <- HSplit_get_item_sizes a c item_sizes ;;
      mh <- py_max_list (map snd sizes) ;;
      Ok (py_sum (map fst sizes) + sep c * (len sizes - 1), mh)
  end.

(** [VSplit._get_content_size] *)
Definition VSplit_content_size (a : Attrs) (c : SplitCfg) (item_sizes : list (Res Size))
    : Res Size :=
  match item_sizes with
  | [] => Ok (0, 0)
  | _ =>
      sizes <- VSplit_get_item_sizes a c item_sizes ;;
      mw <- py_max_list (map fst sizes) ;;
      Ok (mw, py_sum (map snd sizes) + sep c * (len sizes - 1))
  end.

(** The first three lines of [Grid._get_grid_rc_and_size]: the row and
    column counts for [n] items. *)
Definition grid_rc (c : GridCfg) (n : Z) : Res (Z * Z) :=
  let r := row_count c in
  let cc := col_count c in
  _ <- assert_ ((truthy r && negb (truthy cc)) || (truthy cc && negb (truthy r))) ;;
  let r' := if truthy r then r
            else match cc with Some c0 => Some ((n + c0 - 1) / c0) | None => None end in
  let c' := if truthy cc then cc
            else match r' with Some r0 => Some ((n + r0 - 1) / r0) | None => None end in
  match r', c' with
  | Some r0, Some c0 => Ok (r0, c0)
  | _, _ => Raise TypeError
  end.

(** [Grid._get_grid_rc_and_size] *)
Definition Grid_get_grid_rc_and_size (a : Attrs) (c : GridCfg)
    (item_sizes : list (Res Size)) : Res ((Z * Z) * Size) :=
  '(r, cc) <- grid_rc c (len item_sizes) ;;
  match item_size_mode (grid_items c) with
  | Expand =>
      match w a, h a with
      | Some w0, Some h0 =>
          gw <- py_truediv (w0 - hsep c * (cc - 1) - hpadding a * 2) cc ;;
          gh <- py_truediv (h0 - vsep c * (r - 1) - vpadding a * 2) r ;;
          igw <- py_int gw ;;
          igh <- py_int gh ;;
          Ok ((r, cc), (igw, igh))
      | _, _ => Raise AssertionError
      end
  | Fixed =>
      '(gw, gh) <- Frame_content_size item_sizes ;;
      Ok ((r, cc), (gw, gh))
  end.

(** [Grid._get_content_size] *)
Definition Grid_content_size (a : Attrs) (c : GridCfg) (item_sizes : list (Res Size))
    : Res Size :=
  '((r, cc), (gw, gh)) <- Grid_get_grid_rc_and_size a c item_sizes ;;
  Ok (cc * gw + hsep c * (cc - 1), r * gh + vsep c * (r - 1)).

(** The scale of the ['fit'] mode is [min], of ['fill'] it is [max]. *)
Definition scaled_image (pick : float -> float -> float) (a : Attrs) (c : ImageCfg)
    : Res Size :=
  let '(iw, ih) := image c in
  let tw := match w a with
            | Some w0 => if truthy (w a) then w0 - hpadding a * 2 else 1000000
            | None => 1000000
            end in
  let th := match h a with
            | Some h0 => if truthy (h a) then h0 - vpadding a * 2 else 1000000
            | None => 1000000
            end in
  sx <- py_truediv tw iw ;;
  sy <- py_truediv th ih ;;
  let scale := pick sx sy in
  nw <- py_int (float_of_Z iw * scale)%float ;;
  nh <- py_int (float_of_Z ih * scale)%float ;;
  Ok (nw, nh).

(** [ImageBox._get_content_size] *)
Definition ImageBox_content_size (a : Attrs) (c : ImageCfg) : Res Size :=
  match image_size_mode c with
  | Original => Ok (image c)
  | Fit =>
      match w a, h a with
      | None, None => Raise AssertionError
      | _, _ => scaled_image py_fmin a c
      end
  | Fill =>
      match w a, h a with
      | None, None => Raise AssertionError
      | Some w0, Some h0 =>
          if truthy (w a) && truthy (h a) then
            Ok (w0 - hpadding a * 2, h0 - vpadding a * 2)
          else scaled_image py_fmax a c
      | _, _ => scaled_image py_fmax a c
      end
  end.

(** [Spacer._get_content_size]; [None - int] is a [TypeError]. *)
Definition Spacer_content_size (a : Attrs) : Res Size :=
  match w a, h a with
  | Some w0, Some h0 => Ok (w0 - 2 * hpadding a, h0 - 2 * vpadding a)
  | _, _ => Raise TypeError
  end.

Section Layout.

(** The font metric: the width [get_text_size(self._get_pil_font(), s)[0]]
    of [s] in the font of a style.  Fonts are an external asset, every
    statement below holds for every metric. *)
Variable get_text_width : TextStyle.t -> str -> Z.

(** The [while l <= r] loop of [_get_clip_text_to_width_idx]. *)
Equations? clip_search (st : TextStyle.t) (txt suffix : str) (width l r : Z) : Z
  by wf (Z.to_nat (r - l + 1)) lt :=
clip_search st txt suffix width l r with Z_le_gt_dec l r := {
  | left _ =>
      let m := (l + r) / 2 in
      let tw := get_text_width st (py_slice_to txt m ++ suffix) in
      if tw <? width then clip_search st txt suffix width (m + 1) r
      else if tw >? width then clip_search st txt suffix width l (m - 1)
      else m
  | right _ => r }.
Proof.
  - assert (l <= (l + r) / 2) by (apply Z.div_le_lower_bound; lia). lia.
  - assert ((l + r) / 2 <= r) by (apply Z.div_le_upper_bound; lia). lia.
Qed.

(** [TextBox._get_clip_text_to_width_idx] *)
Definition _get_clip_text_to_width_idx (st : TextStyle.t) (txt : str) (width : Z)
    (suffix : str) : option Z :=
  if get_text_width st (txt ++ suffix) <=? width then None
  else Some (clip_search st txt suffix width 0 (len txt)).

(** The [while True] loop of the wrapping branch of [_get_lines]. *)
Fixpoint wrap_loop (fuel : nat) (c : TextCfg) (width : Z) (suffix line : str)
    (clipped_lines : list str) : Res (list str) :=
  match fuel with
  | O => Raise Diverges
  | S fuel' =>
      let line_suffix :=
        if len clipped_lines =? line_count c - 1 then suffix else [] in
      match _get_clip_text_to_width_idx (style c) line width line_suffix with
      | None => Ok (clipped_lines ++ [line])
      | Some clip_idx =>
          let clipped_lines' :=
            clipped_lines ++ [py_slice_to line clip_idx ++ line_suffix] in
          let line' := py_slice_from line clip_idx in
          if len clipped_lines' =? line_count c then Ok clipped_lines'
          else wrap_loop fuel' c width suffix line' clipped_lines'
      end
  end.

(** The body of the [for line in lines] loop of [_get_lines]. *)
Definition get_lines_step (fuel : nat) (a : Attrs) (c : TextCfg)
    (clipped_lines : list str) (line : str) : Res (list str) :=
  match w a with
  | Some w0 =>
      if truthy (w a) then
        let width := w0 - hpadding a * 2 in
        let suffix := match overflow c with Shrink => ellipsis | Clip => [] end in
        if wrap c then wrap_loop fuel c width suffix line clipped_lines
        else
          match _get_clip_text_to_width_idx (style c) line width suffix with
          | Some clip_idx =>
              Ok (clipped_lines ++ [py_slice_to line clip_idx ++ suffix])
          | None => Ok (clipped_lines ++ [line])
          end
      else Ok (clipped_lines ++ [line])
  | None => Ok (clipped_lines ++ [line])
  end.

(** [TextBox._get_lines] *)
Definition _get_lines (fuel : nat) (a : Attrs) (c : TextCfg) : Res (list str) :=
  clipped_lines <-
    fold_left (fun acc line => cl <- acc ;; get_lines_step fuel a c cl line)
      (split_lines (text c)) (Ok []) ;;
  Ok (py_slice_to clipped_lines (line_count c)).

(** [TextBox._get_content_size] *)
Definition TextBox_content_size (fuel : nat) (a : Attrs) (c : TextCfg) : Res Size :=
  lines <- _get_lines fuel a c ;;
  let tw := fold_left (fun acc line => Z.max acc (get_text_width (style c) line)) lines 0 in
  let lc := if use_real_line_count c then len lines else line_count c in
  let th := lc * (TextStyle.size (style c) + line_sep c) - line_sep c in
  let tw := match w a with
            | Some w0 => if truthy (w a) then w0 - hpadding a * 2 else tw
            | None => tw
            end in
  let th := match h a with
            | Some h0 => if truthy (h a) then h0 - vpadding a * 2 else th
            | None => th
            end in
  Ok (tw, th).

(** [_get_content_size] of every widget class, given the function that
    measures an item. *)
Definition content_size_with (self_size : Widget -> Res Size) (fuel : nat) (wd : Widget)
    : Res Size :=
  match wd with
  | PlainWidget _ => Ok (0, 0)
  | Frame _ items => Frame_content_size (map self_size items)
  | HSplit a c items => HSplit_content_size a c (map self_size items)
  | VSplit a c items => VSplit_content_size a c (map self_size items)
  | Grid a c items => Grid_content_size a c (map self_size items)
  | TextBox a c => TextBox_content_size fuel a c
  | ImageBox a c => ImageBox_content_size a c
  | Spacer a => Spacer_content_size a
  end.

(** [Widget._get_self_size] on the tree. *)
Fixpoint _get_self_size (fuel : nat) (wd : Widget) : Res Size :=
  self_size_of (attrs wd) (content_size_with (_get_self_size fuel) fuel wd).

Definition _get_content_size (fuel : nat) (wd : Widget) : Res Size :=
  content_size_with (_get_self_size fuel) fuel wd.

(** [Widget._get_content_pos] *)
Definition _get_content_pos (fuel : nat) (wd : Widget) : Res Position :=
  let a := attrs wd in
  '(sw, sh) <- _get_self_size fuel wd ;;
  let sw := sw - (hpadding a * 2 + hmargin a * 2) in
  let sh := sh - (vpadding a * 2 + vmargin a * 2) in
  '(cw, ch) <- _get_content_size fuel wd ;;
  Ok (halign_pos (content_halign a) sw cw, valign_pos (content_valign a) sh ch).

(** [Widget._draw_self]: the background is a drawing primitive, the draw
    hooks run in order on the painter. *)
Fixpoint _draw_self (fs : list DrawFunc) (p : Painter.t) : Res Painter.t :=
  match fs with
  | [] => Ok p
  | draw_func :: fs' => p' <- draw_func p ;; _draw_self fs' p'
  end.

(** [idx // c] and [idx % c] *)
Definition py_floordiv (a b : Z) : Res Z :=
  if b =? 0 then Raise ZeroDivisionError else Ok (a / b).
Definition py_mod (a b : Z) : Res Z :=
  if b =? 0 then Raise ZeroDivisionError else Ok (a mod b).

(** The cell [(i, j)] of the item at index [idx] in [Grid._draw_content]. *)
Definition grid_cell (vertical : bool) (r c idx : Z) : Res (Z * Z) :=
  if negb vertical then
    i <- py_floordiv idx c ;; j <- py_mod idx c ;; Ok (i, j)
  else
    i <- py_mod idx r ;; j <- py_floordiv idx r ;; Ok (i, j).

Section DrawContent.

(** [item.draw(p)] *)
Variable draw_item : Widget -> Painter.t -> Res Painter.t.
Variable fuel : nat.

(** The loop of [Frame._draw_content]. *)
Fixpoint Frame_draw_items (a : Attrs) (cw ch : Z) (items : list Widget) (p : Painter.t)
    : Res Painter.t :=
  match items with
  | [] => Ok p
  | item :: rest =>
      '(iw, ih) <- _get_self_size fuel item ;;
      let x := halign_pos (content_halign a) cw iw in
      let y := valign_pos (content_valign a) ch ih in
      let p := Painter.move_region p (x, y) (Some (iw, ih)) in
      p <- draw_item item p ;;
      let p := Painter.restore_region p 1 in
      Frame_draw_items a cw ch rest p
  end.

(** The loop of [HSplit._draw_content] over [zip(self.items, sizes)]. *)
Fixpoint HSplit_draw_items (c : SplitCfg) (items : list Widget) (sizes : list Size)
    (cur_x : Z) (p : Painter.t) : Res Painter.t :=
  match items, sizes with
  | item :: rest, (cw, ch) :: sizes' =>
      '(iw, ih) <- _get_self_size fuel item ;;
      let p := Painter.move_region p (cur_x, 0) (Some (cw, ch)) in
      let x := halign_pos (item_halign (split_items c)) cw iw in
      let y := valign_pos (item_valign (split_items c)) ch ih in
      let p := Painter.move_region p (x, y) (Some (iw, ih)) in
      p <- draw_item item p ;;
      let p := Painter.restore_region p 2 in
      HSplit_draw_items c rest sizes' (cur_x + cw + sep c) p
  | _, _ => Ok p
  end.

(** The loop of [VSplit._draw_content]. *)
Fixpoint VSplit_draw_items (c : SplitCfg) (items : list Widget) (sizes : list Size)
    (cur_y : Z) (p : Painter.t) : Res Painter.t :=
  match items, sizes with
  | item :: rest, (cw, ch) :: sizes' =>
      '(iw, ih) <- _get_self_size fuel item ;;
      let p := Painter.move_region p (0, cur_y) (Some (cw, ch)) in
      let x := halign_pos (item_halign (split_items c)) cw iw in
      let y := valign_pos (item_valign (split_items c)) ch ih in
      let p := Painter.move_region p (x, y) (Some (iw, ih)) in
      p <- draw_item item p ;;
      let p := Painter.restore_region p 2 in
      VSplit_draw_items c rest sizes' (cur_y + ch + sep c) p
  | _, _ => Ok p
  end.

(** The loop of [Grid._draw_content] over [enumerate(self.items)]. *)
Fixpoint Grid_draw_items (c : GridCfg) (r cc gw gh : Z) (items : list Widget) (idx : Z)
    (p : Painter.t) : Res Painter.t :=
  match items with
  | [] => Ok p
  | item :: rest =>
      '(i, j) <- grid_cell (vertical c) r cc idx ;;
      let x := j * (gw + hsep c) in
      let y := i * (gh + vsep c) in
      let p := Painter.move_region p (x, y) (Some (gw, gh)) in
      '(iw, ih) <- _get_self_size fuel item ;;
      let x := halign_pos (item_halign (grid_items c)) gw iw in
      let y := valign_pos (item_valign (grid_items c)) gh ih in
      let p := Painter.move_region p (x, y) (Some (iw, ih)) in
      p <- draw_item item p ;;
      let p := Painter.restore_region p 2 in
      Grid_draw_items c r cc gw gh rest (idx + 1) p
  end.

(** The loop of [TextBox._draw_content] over [enumerate(lines)]. *)
Fixpoint TextBox_draw_lines (a : Attrs) (c : TextCfg) (start_y : Z) (lines : list str)
    (i : Z) (p : Painter.t) : Painter.t :=
  match lines with
  | [] => p
  | line :: rest =>
      let lw := get_text_width (style c) line in
      let x := halign_pos (content_halign a) (Painter.get_w p) lw in
      let y := start_y + i * (TextStyle.size (style c) + line_sep c) in
      let p := Painter.move_region p (x, y) (Some (lw, TextStyle.size (style c))) in
      let p := Painter.restore_region p 1 in
      TextBox_draw_lines a c start_y rest (i + 1) p
  end.

(** [_draw_content] of every widget class. *)
Definition draw_content_with (wd : Widget) (p : Painter.t) : Res Painter.t :=
  match wd with
  | PlainWidget _ => Ok p
  | Frame a items =>
      '(cw, ch) <- _get_content_size fuel wd ;;
      Frame_draw_items a cw ch items p
  | HSplit a c items =>
      match items with
      | [] => Ok p
      | _ =>
          sizes <- HSplit_get_item_sizes a c (map (_get_self_size fuel) items) ;;
          HSplit_draw_items c items sizes 0 p
      end
  | VSplit a c items =>
      match items with
      | [] => Ok p
      | _ =>
          sizes <- VSplit_get_item_sizes a c (map (_get_self_size fuel) items) ;;
          VSplit_draw_items c items sizes 0 p
      end
  | Grid a c items =>
      '((r, cc), (gw, gh)) <-
        Grid_get_grid_rc_and_size a c (map (_get_self_size fuel) items) ;;
      Grid_draw_items c r cc gw gh items 0 p
  | TextBox a c =>
      lines <- _get_lines fuel a c ;;
      let text_h := (TextStyle.size (style c) + line_sep c) * len lines - line_sep c in
      let start_y := valign_pos (content_valign a) (Painter.get_h p) text_h in
      Ok (TextBox_draw_lines a c start_y lines 0 p)
  | ImageBox a c =>
      '(cw, ch) <- ImageBox_content_size a c ;;
      _ <- paste_resize (image c) (Some (cw, ch)) ;;
      Ok p
  | Spacer _ => Ok p
  end.

End DrawContent.

(** The translation of [draw] by the offset anchor. *)
Definition anchor_offset (a : Attrs) (p : Painter.t) : Position :=
  let offset_x :=
    match offset_xanchor a with
    | HL => fst (offset a)
    | HR => fst (offset a) - Painter.get_w p
    | HC => fst (offset a) - Painter.get_w p / 2
    end in
  let offset_y :=
    match offset_yanchor a with
    | VT => snd (offset a)
    | VB => snd (offset a) - Painter.get_h p
    | VC => snd (offset a) - Painter.get_h p / 2
    end in
  (offset_x, offset_y).

(** [Widget.draw] *)
Fixpoint draw (fuel : nat) (wd : Widget) (p : Painter.t) {struct wd} : Res Painter.t :=
  ss <- _get_self_size fuel wd ;;
  _ <- assert_ (size_eqb (Painter.size p) ss) ;;
  let a := attrs wd in
  let p := Painter.move_region p (anchor_offset a p) None in
  let p := Painter.shrink_region p (hmargin a, vmargin a) in
  p <- _draw_self (draw_funcs a) p ;;
  let p := Painter.shrink_region p (hpadding a, vpadding a) in
  '(cx, cy) <- _get_content_pos fuel wd ;;
  let p := Painter.move_region p (cx, cy) None in
  p <- draw_content_with (draw fuel) fuel wd p ;;
  Ok (Painter.restore_region p 4).

Definition _draw_content (fuel : nat) (wd : Widget) (p : Painter.t) : Res Painter.t :=
  draw_content_with (draw fuel) fuel wd p.

(** The allocation of the canvas buffer by [Image.new(mode, size, ...)]. *)
Inductive Event := ImageNew (mode : ImageMode) (sz : Size).

(** The end of [get_img]: [img.resize((int(size[0] * scale),
    int(size[1] * scale)), ...)] when [scale] is true. *)
Definition final_resize (img : Image) (size : Size) (scale : option float) : Res Image :=
  match scale with
  | Some s =>
      if (s =? 0)%float then Ok img
      else
        nw <- py_int (float_of_Z (fst size) * s)%float ;;
        nh <- py_int (float_of_Z (snd size) * s)%float ;;
        sz <- Image_resize (im_size img) (nw, nh) ;;
        Ok {| im_mode := im_mode img; im_size := sz |}
  | None => Ok img
  end.

(** [Canvas.get_img]: the allocations made and the outcome.  A size that
    [Image.new] refuses allocates nothing. *)
Definition get_img (fuel : nat) (canvas : Widget) (scale : option float)
    : list Event * Res Image :=
  match _get_self_size fuel canvas with
  | Raise e => ([], Raise e)
  | Ok size =>
      if negb (fst size * snd size <? 4096 * 4096) then ([], Raise AssertionError)
      else
        match Image_new RGBA size with
        | Raise e => ([], Raise e)
        | Ok img =>
            ([ImageNew RGBA size],
             p <- draw fuel canvas (Painter.init img) ;;
             let img := Painter.get p in
             final_resize img size scale)
        end
  end.

End Layout.

(* ===================================================================== *)
(** ** Gradients                                                           *)
(* ===================================================================== *)

Module Gradient.

(** [np.clip(x, lo, hi)] on a float: [min(max(x, lo), hi)], a nan stays. *)
Definition np_maximum (a b : float) : float :=
  if is_nan a then a else if (b <? a)%float then a else b.
Definition np_minimum (a b : float) : float :=
  if is_nan a then a else if (a <? b)%float then a else b.
Definition np_clip (x lo hi : float) : float :=
  np_minimum (np_maximum x lo) hi.

(** [.astype(np.uint8)] on a float64: the float is truncated to a signed
    integer of 32 bits and the low byte is kept.  Numpy leaves what does not
    fit to the platform; on x86-64 the conversion then gives the integer
    [-2^31], so beyond 32 bits, for a nan and for an infinity the byte is 0. *)
Definition astype_uint8 (f : float) : Z :=
  match py_int f with
  | Ok z => if (- 2 ^ 31 <=? z) && (z <? 2 ^ 31) then z mod 256 else 0
  | Raise _ => 0
  end.

Definition per_channel (f : Z -> Z -> Z) (a b : Color) : Color :=
  let '(r1, g1, b1, a1) := a in
  let '(r2, g2, b2, a2) := b in
  (f r1 r2, f g1 g2, f b1 b2, f a1 a2).

(** [range(n)] *)
Definition range (n : Z) : list Z := map Z.of_nat (seq 0 (Z.to_nat n)).

(** The array [H][W] of colors built from the color of each pixel. *)
Definition color_array (pixel : Z -> Z -> Color) (size : Size) : list (list Color) :=
  map (fun y => map (fun x => pixel x y) (range (fst size))) (range (snd size)).

Definition array_at (arr : list (list Color)) (x y : Z) : option Color :=
  nth_error (nth (Z.to_nat y) arr []) (Z.to_nat x).

Module Linear.

Record t := mk { c1 : Color; c2 : Color; p1 : float * float; p2 : float * float }.

(** The projection [t] of the pixel [(x, y)], before clamping. *)
Definition param (g : t) (size : Size) (x y : Z) : float :=
  let '(sw, sh) := size in
  let pixel_p1 := (fst (p1 g) * float_of_Z sw, snd (p1 g) * float_of_Z sh)%float in
  let pixel_p2 := (fst (p2 g) * float_of_Z sw, snd (p2 g) * float_of_Z sh)%float in
  let gradient_vector :=
    (fst pixel_p2 - fst pixel_p1, snd pixel_p2 - snd pixel_p1)%float in
  let length_sq :=
    (fst gradient_vector * fst gradient_vector
     + snd gradient_vector * snd gradient_vector)%float in
  let vector_p1_to_pixel :=
    (float_of_Z x - fst pixel_p1, float_of_Z y - snd pixel_p1)%float in
  let dot_product :=
    (fst vector_p1_to_pixel * fst gradient_vector
     + snd vector_p1_to_pixel * snd gradient_vector)%float in
  (dot_product / length_sq)%float.

Definition blend (t_clamped : float) (k1 k2 : Z) : Z :=
  astype_uint8
    (np_clip ((1 - t_clamped) * float_of_Z k1 + t_clamped * float_of_Z k2) 0 255)%float.

Definition pixel (g : t) (size : Size) (x y : Z) : Color :=
  let t_clamped := np_clip (param g size x y) 0 1 in
  per_channel (blend t_clamped) (c1 g) (c2 g).

(** [LinearGradient.get_colors] *)
Definition get_colors (g : t) (size : Size) : list (list Color) :=
  color_array (pixel g size) size.

End Linear.

Module Radial.

Record t := mk { c1 : Color; c2 : Color; center : float * float; radius : float }.

(** [np.linalg.norm(coords - center, axis=-1)] at the pixel [(x, y)]. *)
Definition norm (g : t) (size : Size) (x y : Z) : float :=
  let '(sw, sh) := size in
  let cx := (fst (center g) * float_of_Z sw)%float in
  let cy := (snd (center g) * float_of_Z sh)%float in
  let dx := (float_of_Z x - cx)%float in
  let dy := (float_of_Z y - cy)%float in
  sqrt (dx * dx + dy * dy)%float.

(** The normalized distance, before clamping. *)
Definition param (g : t) (size : Size) (x y : Z) : float :=
  (norm g size x y / radius g)%float.

Definition blend (dist : float) (k1 k2 : Z) : Z :=
  astype_uint8 (dist * float_of_Z k1 + (1 - dist) * float_of_Z k2)%float.

Definition pixel (g : t) (size : Size) (x y : Z) : Color :=
  let dist := np_clip (param g size x y) 0 1 in
  per_channel (blend dist) (c1 g) (c2 g).

(** [RadialGradient.get_colors] *)
Definition get_colors (g : t) (size : Size) : list (list Color) :=
  color_array (pixel g size) size.

End Radial.

End Gradient.

(* ===================================================================== *)
(** ** Vocabulary of the statements                                        *)
(* ===================================================================== *)

(** A property of every node of a widget tree. *)
Fixpoint forall_widgets (P : Widget -> Prop) (wd : Widget) : Prop :=
  P wd /\
  match wd with
  | Frame _ its | HSplit _ _ its | VSplit _ _ its | Grid _ _ its =>
      (fix go (l : list Widget) : Prop :=
         match l with
         | [] => True
         | x :: r => forall_widgets P x /\ go r
         end) its
  | _ => True
  end.

(** A draw hook that whenever it returns leaves the regions as it found
    them, and one that only paints. *)
Definition keeps_region (f : DrawFunc) : Prop :=
  forall p p', f p = Ok p' -> p' = p.
Definition paints_only (f : DrawFunc) : Prop :=
  forall p, f p = Ok p.

(** The count a [Grid] was given is positive. *)
Definition grid_count_positive (wd : Widget) : Prop :=
  match wd with
  | Grid _ c _ =>
      match row_count c, col_count c with
      | Some r, None => 0 < r
      | None, Some cc => 0 < cc
      | Some r, Some cc => (r = 0 /\ 0 < cc) \/ (cc = 0 /\ 0 < r)
      | None, None => False
      end
  | _ => True
  end.

(** The size at which an [ImageBox] pastes its image is the size of the
    image, or has both extents at least 1: the paste needs no resize, or one
    that Pillow accepts. *)
Definition pastes_image (wd : Widget) : Prop :=
  match wd with
  | ImageBox a c =>
      forall sz, ImageBox_content_size a c = Ok sz ->
                 sz = image c \/ (1 <= fst sz /\ 1 <= snd sz)
  | _ => True
  end.

(** A monospace metric, [advance] pixels a character, for the examples. *)
Definition mono_width (advance : Z) (_ : TextStyle.t) (s : str) : Z :=
  advance * len s.

(** The self size as the specification words it: the content size, bounded
    by the explicit extent where one is set, plus twice the padding and
    twice the margin. *)
Definition spec_self_size (a : Attrs) (content : Size) : Size :=
  let bw := match w a with Some w0 => Z.min (fst content) w0 | None => fst content end in
  let bh := match h a with Some h0 => Z.min (snd content) h0 | None => snd content end in
  (bw + 2 * hpadding a + 2 * hmargin a, bh + 2 * vpadding a + 2 * vmargin a).

(** The other reading of the same words: the explicit extent stands for
    the content size where one is set. *)
Definition spec_self_size_explicit (a : Attrs) (content : Size) : Size :=
  let bw := match w a with Some w0 => w0 | None => fst content end in
  let bh := match h a with Some h0 => h0 | None => snd content end in
  (bw + 2 * hpadding a + 2 * hmargin a, bh + 2 * vpadding a + 2 * vmargin a).

(** [Canvas(w=100, h=50)] holding a [Spacer(40, 20)]. *)
Definition canvas_100_50 : Widget :=
  add_item (Canvas_init (Some 100) (Some 50)) (Spacer_init (Some 40) (Some 20)).

(** The same canvas after [set_padding(5)]. *)
Definition padded_canvas : Widget :=
  Frame (set_padding (attrs canvas_100_50) (inl 5)) (items_of canvas_100_50).

(** The draw hook [lambda w, p: p.shrink_region((1, 1))], which sets a
    region and does not restore it, and the canvas of 100 by 50 after
    [set_offset((3, 4))] and [add_draw_func] of that hook. *)
Definition shrinking_hook : DrawFunc :=
  fun p => Ok (Painter.shrink_region p (1, 1)).

Definition hooked_canvas : Widget :=
  Frame (add_draw_func (set_offset (attrs canvas_100_50) (3, 4)) shrinking_hook)
    (items_of canvas_100_50).

(* ===================================================================== *)
(** ** The region stack                                                    *)
(* ===================================================================== *)

Lemma restore_once_set_region (p : Painter.t) pos sz :
  Painter.restore_once (Painter.set_region p pos sz) = p.
Proof. destruct p; reflexivity. Qed.

Lemma restore_region_1 p :
  Painter.restore_region p 1 = Painter.restore_once p.
Proof. reflexivity. Qed.

Lemma restore_region_S p d :
  Painter.restore_region p (S (S d)) =
  Painter.restore_region (Painter.restore_once p) (S d).
Proof. reflexivity. Qed.

Lemma restore_move_region p dlt sz :
  Painter.restore_once (Painter.move_region p dlt sz) = p.
Proof. apply restore_once_set_region. Qed.

Lemma restore_shrink_region p dlt :
  Painter.restore_once (Painter.shrink_region p dlt) = p.
Proof. apply restore_once_set_region. Qed.

(** C9. For every painter and every delta, [shrink_region(d)] adds [d] to
    the offset and takes [2d] off the size on each axis, [expand_region(d)]
    does the inverse, so the two in a row leave offset and size as they
    were, and push two entries on the region stack. *)
Theorem shrink_then_expand_region (p : Painter.t) (d : Position) :
  let p1 := Painter.shrink_region p d in
  let p2 := Painter.expand_region p1 d in
  Painter.offset p1 = (fst (Painter.offset p) + fst d, snd (Painter.offset p) + snd d)
  /\ Painter.size p1 = (fst (Painter.size p) - 2 * fst d, snd (Painter.size p) - 2 * snd d)
  /\ Painter.offset p2 = Painter.offset p
  /\ Painter.size p2 = Painter.size p
  /\ Painter.region_stack p2 =
       (Painter.offset p1, Painter.size p1)
         :: (Painter.offset p, Painter.size p) :: Painter.region_stack p
  /\ length (Painter.region_stack p2) = (2 + length (Painter.region_stack p))%nat.
Proof.
  destruct p as [im [ox oy] [sw sh] stk], d as [dx dy].
  cbn -[Z.mul Z.add Z.sub].
  repeat split; try reflexivity; f_equal; lia.
Qed.

(* ===================================================================== *)
(** ** Results on the layout                                               *)
(* ===================================================================== *)

Lemma bind_Ok {A B} (c : Res A) (k : A -> Res B) (b : B) :
  bind c k = Ok b -> exists a, c = Ok a /\ k a = Ok b.
Proof. destruct c; cbn; [eauto | discriminate]. Qed.

Lemma size_eqb_eq (a b : Size) : size_eqb a b = true <-> a = b.
Proof.
  destruct a, b; unfold size_eqb; cbn.
  rewrite andb_true_iff, !Z.eqb_eq. split; [intros []; congruence | intros [= -> ->]; auto].
Qed.

Ltac inv_bind H :=
  let x := fresh "x" in
  let Hx := fresh "Hx" in
  apply bind_Ok in H; destruct H as (x & Hx & H).

Section Results.

Variable get_text_width : TextStyle.t -> str -> Z.

Abbreviation self_size := (_get_self_size get_text_width).
Abbreviation content_size := (_get_content_size get_text_width).

Lemma self_size_unfold fuel wd :
  self_size fuel wd = self_size_of (attrs wd) (content_size fuel wd).
Proof. destruct wd; reflexivity. Qed.

(** With no populated cache the size is computed from the content size. *)
Lemma self_size_of_uncached a content :
  truthy (_calc_w a) && truthy (_calc_h a) = false ->
  self_size_of a content =
  ('(cw, ch) <- content ;;
   let lw := match w a with Some w0 => w0 - hpadding a * 2 | None => cw end in
   let lh := match h a with Some h0 => h0 - vpadding a * 2 | None => ch end in
   if (cw >? lw) || (ch >? lh) then Raise ValueError
   else Ok (lw + hmargin a * 2 + hpadding a * 2, lh + vmargin a * 2 + vpadding a * 2)).
Proof.
  intros Hc. unfold self_size_of, get_self_size_node. rewrite Hc.
  destruct content as [[cw ch]|e]; cbn -[Z.mul]; [|reflexivity].
  destruct (_ || _); reflexivity.
Qed.

(** C1, as the code has it.  For every widget whose cache is not populated
    and whose content size is [(cw, ch)]: the box on an axis is the explicit
    extent less twice the padding when the extent is set, and the content
    extent when it is not; if the content fits the box on both axes the self
    size is the box plus twice the padding plus twice the margin (so
    [w + 2 * hmargin] when [w] is set, whatever the content); if the content
    exceeds the box on an axis, [_get_self_size] raises the sizing error. *)
Theorem self_size_from_box fuel wd cw ch :
  truthy (_calc_w (attrs wd)) && truthy (_calc_h (attrs wd)) = false ->
  content_size fuel wd = Ok (cw, ch) ->
  let a := attrs wd in
  let box_w := match w a with Some w0 => w0 - 2 * hpadding a | None => cw end in
  let box_h := match h a with Some h0 => h0 - 2 * vpadding a | None => ch end in
  (cw <= box_w /\ ch <= box_h ->
   self_size fuel wd =
   Ok (box_w + 2 * hpadding a + 2 * hmargin a, box_h + 2 * vpadding a + 2 * vmargin a))
  /\ (box_w < cw \/ box_h < ch -> self_size fuel wd = Raise ValueError).
Proof.
  intros Hc Hcs a box_w box_h.
  rewrite self_size_unfold, (self_size_of_uncached _ _ Hc), Hcs.
  cbn -[Z.mul]. fold a.
  replace (match w a with Some w0 => w0 - hpadding a * 2 | None => cw end) with box_w
    by (subst box_w; destruct (w a); lia).
  replace (match h a with Some h0 => h0 - vpadding a * 2 | None => ch end) with box_h
    by (subst box_h; destruct (h a); lia).
  split.
  - intros [Hw Hh].
    destruct (Z.gtb_spec cw box_w); [lia|].
    destruct (Z.gtb_spec ch box_h); [lia|].
    cbn -[Z.mul]. do 2 f_equal; lia.
  - intros Hx.
    destruct (Z.gtb_spec cw box_w); [reflexivity|].
    destruct (Z.gtb_spec ch box_h); [reflexivity|lia].
Qed.

End Results.

(** C1, witness: the canvas of 100 by 50 around a spacer of 40 by 20. *)
Lemma self_size_from_box_witness :
  _get_self_size (mono_width 8) 0 canvas_100_50 = Ok (100, 50).
Proof.
  apply (self_size_from_box (mono_width 8) 0 canvas_100_50 40 20).
  - reflexivity.
  - reflexivity.
  - cbn. lia.
Defined.

(** C1, as the specification words it, fails: the canvas of 100 by 50
    with the padding 5 has a content of 40 by 20 that fits the box of 90 by
    40, and a self size of 100 by 50; that is neither the content size plus
    the paddings and margins, 50 by 30, nor the explicit size plus them,
    110 by 60. *)
Lemma self_size_is_not_content_plus_borders :
  _get_content_size (mono_width 8) 0 padded_canvas = Ok (40, 20)
  /\ _get_self_size (mono_width 8) 0 padded_canvas = Ok (100, 50)
  /\ spec_self_size (attrs padded_canvas) (40, 20) = (50, 30)
  /\ spec_self_size_explicit (attrs padded_canvas) (40, 20) = (110, 60)
  /\ _get_self_size (mono_width 8) 0 padded_canvas
     <> Ok (spec_self_size (attrs padded_canvas) (40, 20))
  /\ _get_self_size (mono_width 8) 0 padded_canvas
     <> Ok (spec_self_size_explicit (attrs padded_canvas) (40, 20)).
Proof. repeat split; try reflexivity; discriminate. Qed.

(** Induction on a widget tree, with the statement for every item. *)
Lemma Widget_tree_ind (P : Widget -> Prop) :
  (forall a, P (PlainWidget a)) ->
  (forall a its, Forall P its -> P (Frame a its)) ->
  (forall a c its, Forall P its -> P (HSplit a c its)) ->
  (forall a c its, Forall P its -> P (VSplit a c its)) ->
  (forall a c its, Forall P its -> P (Grid a c its)) ->
  (forall a c, P (TextBox a c)) ->
  (forall a c, P (ImageBox a c)) ->
  (forall a, P (Spacer a)) ->
  forall wd, P wd.
Proof.
  intros H1 H2 H3 H4 H5 H6 H7 H8.
  fix IH 1. intros [a|a its|a c its|a c its|a c its|a c|a c|a].
  - apply H1.
  - apply H2. induction its; constructor; [apply IH | assumption].
  - apply H3. induction its; constructor; [apply IH | assumption].
  - apply H4. induction its; constructor; [apply IH | assumption].
  - apply H5. induction its; constructor; [apply IH | assumption].
  - apply H6.
  - apply H7.
  - apply H8.
Qed.

Lemma forall_widgets_items P wd :
  forall_widgets P wd -> P wd /\ Forall (forall_widgets P) (items_of wd).
Proof.
  assert (Hgo : forall its,
             (fix go (l : list Widget) : Prop :=
                match l with
                | [] => True
                | x :: r => forall_widgets P x /\ go r
                end) its -> Forall (forall_widgets P) its).
  { induction its as [|x r IH]; intros H; constructor; destruct H; auto. }
  destruct wd as [a|a its|a c its|a c its|a c its|a c|a c|a];
    cbn [forall_widgets items_of]; intros [HP Hits]; split; auto.
Qed.

Lemma Forall_impl2 {A} (P Q R : A -> Prop) l :
  (forall x, P x -> Q x -> R x) -> Forall P l -> Forall Q l -> Forall R l.
Proof. intros H HP. induction HP; intros HQ; inversion HQ; subst; constructor; auto. Qed.

Section DrawResults.

Variable get_text_width : TextStyle.t -> str -> Z.
Variable fuel : nat.

Abbreviation self_size := (_get_self_size get_text_width fuel).
Abbreviation content_size := (_get_content_size get_text_width fuel).
Abbreviation content_pos := (_get_content_pos get_text_width fuel).
Abbreviation draw_widget := (draw get_text_width fuel).
Abbreviation draw_content := (_draw_content get_text_width fuel).

(** The painter [draw] hands to [_draw_content]: the four regions pushed
    on top of [p] are the anchor move, the margin shrink, the padding
    shrink and the move to the content position [cpos]. *)
Definition content_painter (a : Attrs) (cpos : Position) (p : Painter.t) : Painter.t :=
  Painter.move_region
    (Painter.shrink_region
       (Painter.shrink_region
          (Painter.move_region p (anchor_offset a p) None)
          (hmargin a, vmargin a))
       (hpadding a, vpadding a))
    cpos None.

Lemma draw_unfold wd p :
  draw_widget wd p =
  (ss <- self_size wd ;;
   _ <- assert_ (size_eqb (Painter.size p) ss) ;;
   let a := attrs wd in
   let p := Painter.move_region p (anchor_offset a p) None in
   let p := Painter.shrink_region p (hmargin a, vmargin a) in
   p <- _draw_self (draw_funcs a) p ;;
   let p := Painter.shrink_region p (hpadding a, vpadding a) in
   '(cx, cy) <- content_pos wd ;;
   let p := Painter.move_region p (cx, cy) None in
   p <- draw_content wd p ;;
   Ok (Painter.restore_region p 4)).
Proof. destruct wd; reflexivity. Qed.

Lemma restore_content_painter a cpos p :
  Painter.restore_region (content_painter a cpos p) 4 = p.
Proof.
  unfold content_painter.
  rewrite !restore_region_S, restore_region_1.
  rewrite restore_move_region, !restore_shrink_region, restore_move_region.
  reflexivity.
Qed.

Lemma restore_two_moves p d1 s1 d2 s2 :
  Painter.restore_region
    (Painter.move_region (Painter.move_region p d1 s1) d2 s2) 2 = p.
Proof.
  rewrite restore_region_S, restore_region_1, !restore_move_region. reflexivity.
Qed.

Lemma draw_self_keeps fs :
  Forall keeps_region fs -> keeps_region (_draw_self fs).
Proof.
  induction 1 as [|f fs Hf _ IH]; intros p p' H; cbn [_draw_self] in H.
  - congruence.
  - inv_bind H. apply Hf in Hx. subst x. auto.
Qed.

Lemma TextBox_draw_lines_id a c start_y lines i p :
  TextBox_draw_lines get_text_width a c start_y lines i p = p.
Proof.
  revert i p. induction lines as [|l ls IH]; intros i p; cbn [TextBox_draw_lines].
  - reflexivity.
  - cbv zeta. rewrite restore_region_1, restore_move_region. apply IH.
Qed.

Section Items.

Variable draw_item : Widget -> Painter.t -> Res Painter.t.

Lemma Frame_draw_items_keeps a cw ch items :
  Forall (fun it => keeps_region (draw_item it)) items ->
  keeps_region (Frame_draw_items get_text_width draw_item fuel a cw ch items).
Proof.
  induction 1 as [|it its Hit _ IH]; intros p p' H; cbn [Frame_draw_items] in H.
  - congruence.
  - inv_bind H. destruct x as [iw ih]. cbv zeta in H. inv_bind H.
    apply Hit in Hx0. subst x.
    rewrite restore_region_1, restore_move_region in H. auto.
Qed.

Lemma HSplit_draw_items_keeps c items :
  Forall (fun it => keeps_region (draw_item it)) items ->
  forall sizes cur_x,
    keeps_region (HSplit_draw_items get_text_width draw_item fuel c items sizes cur_x).
Proof.
  induction 1 as [|it its Hit _ IH]; intros sizes cur_x p p' H;
    cbn [HSplit_draw_items] in H.
  - congruence.
  - destruct sizes as [|[cw ch] sizes']; [congruence|].
    inv_bind H. destruct x as [iw ih]. cbv zeta in H. inv_bind H.
    apply Hit in Hx0. subst x.
    rewrite restore_two_moves in H. eapply IH; eauto.
Qed.

Lemma VSplit_draw_items_keeps c items :
  Forall (fun it => keeps_region (draw_item it)) items ->
  forall sizes cur_y,
    keeps_region (VSplit_draw_items get_text_width draw_item fuel c items sizes cur_y).
Proof.
  induction 1 as [|it its Hit _ IH]; intros sizes cur_y p p' H;
    cbn [VSplit_draw_items] in H.
  - congruence.
  - destruct sizes as [|[cw ch] sizes']; [congruence|].
    inv_bind H. destruct x as [iw ih]. cbv zeta in H. inv_bind H.
    apply Hit in Hx0. subst x.
    rewrite restore_two_moves in H. eapply IH; eauto.
Qed.

Lemma Grid_draw_items_keeps c r cc gw gh items :
  Forall (fun it => keeps_region (draw_item it)) items ->
  forall idx,
    keeps_region (Grid_draw_items get_text_width draw_item fuel c r cc gw gh items idx).
Proof.
  induction 1 as [|it its Hit _ IH]; intros idx p p' H;
    cbn [Grid_draw_items] in H.
  - congruence.
  - inv_bind H. destruct x as [i j]. cbv zeta in H.
    inv_bind H. destruct x as [iw ih]. cbv zeta in H. inv_bind H.
    apply Hit in Hx1. subst x.
    rewrite restore_two_moves in H. eapply IH; eauto.
Qed.

Lemma draw_content_with_keeps wd :
  Forall (fun it => keeps_region (draw_item it)) (items_of wd) ->
  keeps_region (draw_content_with get_text_width draw_item fuel wd).
Proof.
  intros Hits p p' H.
  destruct wd as [a|a its|a c its|a c its|a c its|a c|a c|a];
    cbn [draw_content_with items_of] in *.
  - congruence.
  - inv_bind H. destruct x as [cw ch].
    eapply Frame_draw_items_keeps; eauto.
  - destruct its as [|it its']; [congruence|].
    inv_bind H. eapply HSplit_draw_items_keeps; eauto.
  - destruct its as [|it its']; [congruence|].
    inv_bind H. eapply VSplit_draw_items_keeps; eauto.
  - inv_bind H. destruct x as [[r cc] [gw gh]].
    eapply Grid_draw_items_keeps; eauto.
  - inv_bind H. rewrite TextBox_draw_lines_id in H. congruence.
  - inv_bind H. destruct x as [cw ch]. inv_bind H. congruence.
  - congruence.
Qed.

End Items.

(** What a returning [draw] has done, given that the items keep the regions. *)
Lemma draw_inversion wd p p' :
  Forall keeps_region (draw_funcs (attrs wd)) ->
  Forall (fun it => keeps_region (draw_widget it)) (items_of wd) ->
  draw_widget wd p = Ok p' ->
  self_size wd = Ok (Painter.size p)
  /\ exists cpos,
      content_pos wd = Ok cpos
      /\ draw_content wd (content_painter (attrs wd) cpos p)
         = Ok (content_painter (attrs wd) cpos p)
      /\ p' = Painter.restore_region (content_painter (attrs wd) cpos p) 4.
Proof.
  intros Hhooks Hits H. rewrite draw_unfold in H.
  inv_bind H. rename x into ss. inv_bind H.
  unfold assert_ in Hx0. destruct (size_eqb _ _) eqn:Hsz; [|discriminate].
  apply size_eqb_eq in Hsz. cbv zeta in H.
  inv_bind H. apply (draw_self_keeps _ Hhooks) in Hx1. subst x0.
  inv_bind H. destruct x0 as [cx cy]. inv_bind H.
  fold (content_painter (attrs wd) (cx, cy) p) in Hx2.
  pose proof Hx2 as Hk. unfold _draw_content in Hk.
  eapply draw_content_with_keeps in Hk; [|exact Hits]. subst x0.
  split; [congruence|].
  exists (cx, cy). repeat split; [assumption|assumption|congruence].
Qed.

Lemma draw_keeps_region wd :
  forall_widgets (fun x => Forall keeps_region (draw_funcs (attrs x))) wd ->
  keeps_region (draw_widget wd).
Proof.
  assert (Hstep : forall wd,
             Forall (fun it =>
                       forall_widgets
                         (fun x => Forall keeps_region (draw_funcs (attrs x))) it ->
                       keeps_region (draw_widget it)) (items_of wd) ->
             forall_widgets (fun x => Forall keeps_region (draw_funcs (attrs x))) wd ->
             keeps_region (draw_widget wd)).
  { intros wd0 IH Hw p p' H.
    apply forall_widgets_items in Hw. destruct Hw as [Hh Hits].
    assert (Hk : Forall (fun it => keeps_region (draw_widget it)) (items_of wd0))
      by (eapply Forall_impl2; [|exact IH|exact Hits]; cbv beta; auto).
    destruct (draw_inversion _ _ _ Hh Hk H) as (_ & cpos & _ & _ & ->).
    apply restore_content_painter. }
  induction wd using Widget_tree_ind; apply Hstep; cbn [items_of]; auto.
Qed.

(** C2, as the code has it.  [draw] asserts that the size of the painter's
    current region is the widget's self size: with another size it raises
    the assertion error.  When it returns, and every background and draw
    hook of the widget and of the widgets below it leaves the regions as it
    found them, it has pushed four regions on top of the painter's stack
    (anchor move, margin shrink, padding shrink, move to the content
    position), run [_draw_content] there, which gave the painter back as it
    got it, and popped four: offset, size and region stack are those before
    the call. *)
Theorem draw_pushes_four_pops_four wd p :
  (forall ss, self_size wd = Ok ss -> Painter.size p <> ss ->
              draw_widget wd p = Raise AssertionError)
  /\ (forall p',
        forall_widgets (fun x => Forall keeps_region (draw_funcs (attrs x))) wd ->
        draw_widget wd p = Ok p' ->
        self_size wd = Ok (Painter.size p)
        /\ (exists cpos p4,
              content_pos wd = Ok cpos
              /\ p4 = content_painter (attrs wd) cpos p
              /\ length (Painter.region_stack p4)
                 = (4 + length (Painter.region_stack p))%nat
              /\ draw_content wd p4 = Ok p4
              /\ p' = Painter.restore_region p4 4)
        /\ Painter.offset p' = Painter.offset p
        /\ Painter.size p' = Painter.size p
        /\ Painter.region_stack p' = Painter.region_stack p).
Proof.
  split.
  - intros ss Hss Hne. rewrite draw_unfold, Hss. cbn [bind].
    destruct (size_eqb (Painter.size p) ss) eqn:E; [|reflexivity].
    apply size_eqb_eq in E. contradiction.
  - intros p' Hw H.
    pose proof (draw_keeps_region _ Hw _ _ H) as ->.
    pose proof (forall_widgets_items _ _ Hw) as [Hh Hits].
    assert (Hk : Forall (fun it => keeps_region (draw_widget it)) (items_of wd))
      by (eapply Forall_impl; [|exact Hits]; intros it; apply draw_keeps_region).
    destruct (draw_inversion _ _ _ Hh Hk H) as (Hss & cpos & Hpos & Hdc & Hp).
    split; [assumption|]. split; [|auto].
    exists cpos, (content_painter (attrs wd) cpos p).
    repeat split; auto.
Qed.

End DrawResults.

Section CanvasResults.

Variable get_text_width : TextStyle.t -> str -> Z.
Variable fuel : nat.

Abbreviation self_size := (_get_self_size get_text_width fuel).
Abbreviation content_size := (_get_content_size get_text_width fuel).
Abbreviation draw_widget := (draw get_text_width fuel).

(** A widget that can be measured and drawn: its content size and its self
    size are returned, its background and draw hooks only paint, if it is a
    [Grid] its count is positive, and if it is an [ImageBox] the image is
    pasted at its own size or at one with both extents at least 1. *)
Definition drawable (wd : Widget) : Prop :=
  (exists c, content_size wd = Ok c)
  /\ (exists s, self_size wd = Ok s)
  /\ Forall paints_only (draw_funcs (attrs wd))
  /\ grid_count_positive wd
  /\ pastes_image wd.

Lemma paste_resize_size (sub_img sz : Size) :
  sz = sub_img \/ (1 <= fst sz /\ 1 <= snd sz) ->
  paste_resize sub_img (Some sz) = Ok sz.
Proof.
  intros H. unfold paste_resize, Image_resize.
  destruct (size_eqb sz sub_img) eqn:E.
  - apply size_eqb_eq in E. congruence.
  - destruct (size_eqb sub_img sz); [reflexivity|].
    destruct H as [->|[Hw Hh]].
    + rewrite (proj2 (size_eqb_eq sub_img sub_img) eq_refl) in E. discriminate E.
    + replace (fst sz <? 1) with false by (symmetry; apply Z.ltb_ge; lia).
      replace (snd sz <? 1) with false by (symmetry; apply Z.ltb_ge; lia).
      reflexivity.
Qed.


Lemma Image_resize_refused (img_size sz : Size) :
  sz <> img_size -> fst sz < 1 \/ snd sz < 1 ->
  Image_resize img_size sz = Raise ValueError.
Proof.
  intros Hne H. unfold Image_resize.
  destruct (size_eqb img_size sz) eqn:E.
  - apply size_eqb_eq in E. congruence.
  - destruct H as [H|H].
    + replace (fst sz <? 1) with true by (symmetry; apply Z.ltb_lt; lia). reflexivity.
    + replace (snd sz <? 1) with true by (symmetry; apply Z.ltb_lt; lia).
      rewrite orb_true_r. reflexivity.
Qed.

Lemma Image_new_size (mode : ImageMode) (size : Size) :
  0 <= fst size -> 0 <= snd size ->
  Image_new mode size = Ok {| im_mode := mode; im_size := size |}.
Proof.
  intros Hw Hh. unfold Image_new.
  replace (fst size <? 0) with false by (symmetry; apply Z.ltb_ge; lia).
  replace (snd size <? 0) with false by (symmetry; apply Z.ltb_ge; lia).
  reflexivity.
Qed.

Lemma Image_resize_Ok (img_size sz r : Size) :
  Image_resize img_size sz = Ok r -> r = sz.
Proof.
  unfold Image_resize. destruct (size_eqb img_size sz); [congruence|].
  destruct (_ || _); [discriminate | congruence].
Qed.

Lemma Image_new_Ok (mode : ImageMode) (size : Size) (img : Image) :
  Image_new mode size = Ok img -> img = {| im_mode := mode; im_size := size |}.
Proof. unfold Image_new. destruct (_ || _); [discriminate | congruence]. Qed.


(** The painter [draw] gets back from the items it is sound to draw. *)
Definition draws_in_place (wd : Widget) : Prop :=
  forall p, self_size wd = Ok (Painter.size p) -> draw_widget wd p = Ok p.

Lemma draw_self_paints fs p :
  Forall paints_only fs -> _draw_self fs p = Ok p.
Proof.
  induction 1 as [|f fs Hf _ IH]; cbn [_draw_self]; [reflexivity|].
  rewrite Hf. cbn [bind]. exact IH.
Qed.

Lemma draw_item_in_place it p d iw ih :
  draws_in_place it -> self_size it = Ok (iw, ih) ->
  draw_widget it (Painter.move_region p d (Some (iw, ih)))
  = Ok (Painter.move_region p d (Some (iw, ih))).
Proof. intros Hd Hs. apply Hd. rewrite Hs. reflexivity. Qed.

Lemma Frame_draw_items_returns a cw ch items p :
  Forall drawable items -> Forall draws_in_place items ->
  Frame_draw_items get_text_width draw_widget fuel a cw ch items p = Ok p.
Proof.
  intros Hd Hp. revert p.
  induction Hd as [|it its (_ & [[iw ih] Hs] & _) _ IH]; intros p;
    cbn [Frame_draw_items]; [reflexivity|].
  inversion Hp; subst.
  rewrite Hs. cbn [bind]. cbv zeta.
  rewrite (draw_item_in_place _ _ _ _ _ H1 Hs). cbn [bind].
  rewrite restore_region_1, restore_move_region. auto.
Qed.

Lemma HSplit_draw_items_returns c items :
  Forall drawable items -> Forall draws_in_place items ->
  forall sizes cur_x p,
    HSplit_draw_items get_text_width draw_widget fuel c items sizes cur_x p = Ok p.
Proof.
  intros Hd Hp.
  induction Hd as [|it its (_ & [[iw ih] Hs] & _) _ IH]; intros sizes cur_x p;
    cbn [HSplit_draw_items]; [reflexivity|].
  inversion Hp; subst.
  destruct sizes as [|[cw ch] sizes']; [reflexivity|].
  rewrite Hs. cbn [bind]. cbv zeta.
  rewrite (draw_item_in_place _ _ _ _ _ H1 Hs). cbn [bind].
  rewrite restore_two_moves. auto.
Qed.

Lemma VSplit_draw_items_returns c items :
  Forall drawable items -> Forall draws_in_place items ->
  forall sizes cur_y p,
    VSplit_draw_items get_text_width draw_widget fuel c items sizes cur_y p = Ok p.
Proof.
  intros Hd Hp.
  induction Hd as [|it its (_ & [[iw ih] Hs] & _) _ IH]; intros sizes cur_y p;
    cbn [VSplit_draw_items]; [reflexivity|].
  inversion Hp; subst.
  destruct sizes as [|[cw ch] sizes']; [reflexivity|].
  rewrite Hs. cbn [bind]. cbv zeta.
  rewrite (draw_item_in_place _ _ _ _ _ H1 Hs). cbn [bind].
  rewrite restore_two_moves. auto.
Qed.

Lemma grid_cell_returns vertical r cc idx :
  r <> 0 -> cc <> 0 -> exists i j, grid_cell vertical r cc idx = Ok (i, j).
Proof.
  intros Hr Hc. unfold grid_cell, py_floordiv, py_mod.
  apply Z.eqb_neq in Hr, Hc. rewrite Hr, Hc.
  destruct vertical; cbn; eauto.
Qed.

Lemma Grid_draw_items_returns c r cc gw gh items :
  r <> 0 -> cc <> 0 ->
  Forall drawable items -> Forall draws_in_place items ->
  forall idx p,
    Grid_draw_items get_text_width draw_widget fuel c r cc gw gh items idx p = Ok p.
Proof.
  intros Hr Hc Hd Hp.
  induction Hd as [|it its (_ & [[iw ih] Hs] & _) _ IH]; intros idx p;
    cbn [Grid_draw_items]; [reflexivity|].
  inversion Hp; subst.
  destruct (grid_cell_returns (vertical c) r cc idx Hr Hc) as (i & j & ->).
  cbn [bind]. cbv zeta. rewrite Hs. cbn [bind]. cbv zeta.
  rewrite (draw_item_in_place _ _ _ _ _ H1 Hs). cbn [bind].
  rewrite restore_two_moves. auto.
Qed.

(** With a positive count and at least one item both counts are positive. *)
Lemma grid_rc_positive a c items r cc :
  grid_count_positive (Grid a c items) ->
  grid_rc c (len items) = Ok (r, cc) ->
  items <> [] -> 0 < r /\ 0 < cc.
Proof.
  intros Hpos Hrc Hne.
  assert (Hn : 1 <= len items).
  { destruct items; [contradiction|]. unfold len. cbn [length]. lia. }
  assert (Hceil : forall k, 0 < k -> 0 < (len items + k - 1) / k)
    by (intros k Hk; apply Z.div_str_pos; lia).
  unfold grid_rc in Hrc. cbn [grid_count_positive] in Hpos.
  destruct (row_count c) as [r0|], (col_count c) as [c0|]; cbn [truthy] in Hrc.
  - destruct Hpos as [[-> Hc]|[-> Hr]].
    + replace (c0 =? 0) with false in Hrc by (symmetry; apply Z.eqb_neq; lia).
      cbn in Hrc. injection Hrc as <- <-. split; auto.
    + replace (r0 =? 0) with false in Hrc by (symmetry; apply Z.eqb_neq; lia).
      cbn in Hrc. injection Hrc as <- <-. split; auto.
  - replace (r0 =? 0) with false in Hrc by (symmetry; apply Z.eqb_neq; lia).
    cbn in Hrc. injection Hrc as <- <-. split; auto.
  - replace (c0 =? 0) with false in Hrc by (symmetry; apply Z.eqb_neq; lia).
    cbn in Hrc. injection Hrc as <- <-. split; auto.
  - contradiction.
Qed.

Lemma draw_content_returns wd p :
  drawable wd -> Forall drawable (items_of wd) -> Forall draws_in_place (items_of wd) ->
  _draw_content get_text_width fuel wd p = Ok p.
Proof.
  intros ([cs Hcs] & _ & _ & Hgrid & Hpaste) Hd Hp. unfold _draw_content.
  destruct wd as [a|a its|a c its|a c its|a c its|a c|a c|a];
    cbn [draw_content_with items_of] in *; try reflexivity.
  - rewrite Hcs. destruct cs as [cw ch]. cbn [bind].
    apply Frame_draw_items_returns; assumption.
  - destruct its as [|it its']; [reflexivity|].
    unfold _get_content_size in Hcs. cbn [content_size_with] in Hcs.
    unfold HSplit_content_size in Hcs. cbn [map] in *.
    inv_bind Hcs. rewrite Hx. cbn [bind].
    apply HSplit_draw_items_returns; assumption.
  - destruct its as [|it its']; [reflexivity|].
    unfold _get_content_size in Hcs. cbn [content_size_with] in Hcs.
    unfold VSplit_content_size in Hcs. cbn [map] in *.
    inv_bind Hcs. rewrite Hx. cbn [bind].
    apply VSplit_draw_items_returns; assumption.
  - unfold _get_content_size in Hcs. cbn [content_size_with] in Hcs.
    unfold Grid_content_size in Hcs.
    inv_bind Hcs. rewrite Hx. destruct x as [[r cc] [gw gh]]. cbn [bind].
    destruct its as [|it its']; [reflexivity|].
    unfold Grid_get_grid_rc_and_size in Hx. inv_bind Hx.
    destruct x as [r1 c1].
    assert (r1 = r /\ c1 = cc) as [-> ->].
    { destruct (item_size_mode (grid_items c)).
      - destruct (w a), (h a); try discriminate.
        repeat (inv_bind Hx). injection Hx as <- <- _ _. auto.
      - inv_bind Hx. destruct x as [gw' gh']. injection Hx as <- <- _ _. auto. }
    unfold len in Hx0. rewrite length_map in Hx0.
    destruct (grid_rc_positive a c (it :: its') r cc Hgrid Hx0) as [Hr Hc]; [discriminate|].
    apply Grid_draw_items_returns; try assumption; lia.
  - unfold _get_content_size in Hcs. cbn [content_size_with] in Hcs.
    unfold TextBox_content_size in Hcs. inv_bind Hcs.
    rewrite Hx. cbn [bind]. cbv zeta.
    rewrite TextBox_draw_lines_id. reflexivity.
  - unfold _get_content_size in Hcs. cbn [content_size_with] in Hcs.
    rewrite Hcs. destruct cs as [cw ch]. cbn [bind]. cbv beta iota.
    pose proof (paste_resize_size (image c) (cw, ch) (Hpaste _ Hcs)) as Hr.
    unfold Size in *. rewrite Hr. reflexivity.
Qed.

Lemma draw_returns wd :
  forall_widgets drawable wd -> draws_in_place wd.
Proof.
  assert (Hstep : forall wd,
             Forall (fun it => forall_widgets drawable it -> draws_in_place it)
                    (items_of wd) ->
             forall_widgets drawable wd -> draws_in_place wd).
  { intros wd0 IH Hw p Hss.
    apply forall_widgets_items in Hw. destruct Hw as [Hd Hits].
    assert (Hp : Forall draws_in_place (items_of wd0))
      by (eapply Forall_impl2; [|exact IH|exact Hits]; cbv beta; auto).
    assert (Hdi : Forall drawable (items_of wd0)).
    { eapply Forall_impl; [|exact Hits]. intros it Hit.
      apply forall_widgets_items in Hit. tauto. }
    pose proof Hd as ([[cw ch] Hcs] & _ & Hhooks & _).
    rewrite draw_unfold, Hss. cbn [bind].
    replace (size_eqb (Painter.size p) (Painter.size p)) with true
      by (symmetry; apply size_eqb_eq; reflexivity).
    cbn [assert_ bind]. cbv zeta.
    rewrite (draw_self_paints _ _ Hhooks). cbn [bind].
    unfold _get_content_pos. rewrite Hss. destruct (Painter.size p) as [sw sh] eqn:Esz.
    cbn [bind]. rewrite Hcs. cbn [bind].
    rewrite (draw_content_returns _ _ Hd Hdi Hp). cbn [bind].
    match goal with
    | |- Ok (Painter.restore_region ?q 4) = _ =>
        change q with (content_painter (attrs wd0)
                         (halign_pos (content_halign (attrs wd0))
                            (sw - (hpadding (attrs wd0) * 2 + hmargin (attrs wd0) * 2)) cw,
                          valign_pos (content_valign (attrs wd0))
                            (sh - (vpadding (attrs wd0) * 2 + vmargin (attrs wd0) * 2)) ch)
                         p)
    end.
    rewrite restore_content_painter. reflexivity. }
  induction wd using Widget_tree_ind; apply Hstep; cbn [items_of]; auto.
Qed.


End CanvasResults.

(** C2, witness: drawing the canvas of 100 by 50 on a painter of that size. *)
Lemma draw_pushes_four_pops_four_witness :
  _get_self_size (mono_width 8) 0 canvas_100_50 = Ok (100, 50)
  /\ Painter.region_stack (Painter.init {| im_mode := RGBA; im_size := (100, 50) |}) = [].
Proof.
  pose (p := Painter.init {| im_mode := RGBA; im_size := (100, 50) |}).
  assert (Hhooks : forall_widgets
                     (fun x => Forall keeps_region (draw_funcs (attrs x))) canvas_100_50)
    by (cbn; repeat split; constructor).
  assert (Hdraw : draw (mono_width 8) 0 canvas_100_50 p = Ok p) by reflexivity.
  destruct (proj2 (draw_pushes_four_pops_four (mono_width 8) 0 canvas_100_50 p)
              p Hhooks Hdraw) as (Hss & _ & _ & _ & Hstk).
  split; [exact Hss | exact Hstk].
Defined.

(** C2, as the specification words it, fails: [add_draw_func] takes any
    callable, and with the hook that shrinks the region [draw] returns on a
    painter that is not the one before the call.  The four pops undo the
    hook's region and only three of the four that [draw] pushed: the offset
    is (3, 4) instead of (0, 0) and one region is left on the stack. *)
Lemma pushing_hook_leaves_a_region :
  exists p',
    draw (mono_width 8) 0 hooked_canvas
      (Painter.init {| im_mode := RGBA; im_size := (100, 50) |}) = Ok p'
    /\ Painter.offset (Painter.init {| im_mode := RGBA; im_size := (100, 50) |}) = (0, 0)
    /\ Painter.offset p' = (3, 4)
    /\ Painter.size p' = (100, 50)
    /\ Painter.region_stack (Painter.init {| im_mode := RGBA; im_size := (100, 50) |}) = []
    /\ Painter.region_stack p' = [((0, 0), (100, 50))].
Proof. eexists. repeat split; reflexivity. Qed.





(* ===================================================================== *)
(** ** The grid                                                            *)
(* ===================================================================== *)

Section GridResults.

Variable get_text_width : TextStyle.t -> str -> Z.
Variable fuel : nat.

Abbreviation self_size := (_get_self_size get_text_width fuel).

(** An item that is measured, and that [draw_item] draws in place on any
    region of its size. *)
Definition item_in_place (draw_item : Widget -> Painter.t -> Res Painter.t)
    (it : Widget) : Prop :=
  exists s, self_size it = Ok s /\ forall q, Painter.size q = s -> draw_item it q = Ok q.

(** The loop of [Grid._draw_content] at the item that follows the items
    [before]: when these are drawn in place, the loop hands the item to
    [draw_item] on the region it has set for it, and goes on with the items
    [after] on the painter it gets back, two regions popped. *)
Lemma Grid_draw_items_at (draw_item : Widget -> Painter.t -> Res Painter.t)
    (c : GridCfg) (r cc gw gh : Z) :
  r <> 0 -> cc <> 0 ->
  forall before item after iw ih idx p,
    Forall (item_in_place draw_item) before ->
    self_size item = Ok (iw, ih) ->
    let k := idx + len before in
    let i := if vertical c then k mod r else k / cc in
    let j := if vertical c then k / r else k mod cc in
    Grid_draw_items get_text_width draw_item fuel c r cc gw gh
      (before ++ item :: after) idx p
    = (p' <- draw_item item
               (Painter.move_region
                  (Painter.move_region p (j * (gw + hsep c), i * (gh + vsep c))
                     (Some (gw, gh)))
                  (halign_pos (item_halign (grid_items c)) gw iw,
                   valign_pos (item_valign (grid_items c)) gh ih)
                  (Some (iw, ih))) ;;
       Grid_draw_items get_text_width draw_item fuel c r cc gw gh after (k + 1)
         (Painter.restore_region p' 2)).
Proof.
  intros Hr Hc before.
  assert (Hcell : forall idx,
             grid_cell (vertical c) r cc idx
             = Ok (if vertical c then idx mod r else idx / cc,
                   if vertical c then idx / r else idx mod cc)).
  { intros idx. unfold grid_cell, py_floordiv, py_mod.
    apply Z.eqb_neq in Hr, Hc. rewrite Hr, Hc. destruct (vertical c); reflexivity. }
  induction before as [|b bs IH]; intros item after iw ih idx p Hbefore Hitem;
    cbn [app Grid_draw_items]; rewrite Hcell; cbn [bind]; cbv zeta.
  - change (len (@nil Widget)) with 0. rewrite Z.add_0_r, Hitem. reflexivity.
  - inversion Hbefore as [|? ? ([bw bh] & Hb & Hdraw) Hrest]; subst.
    rewrite Hb. cbn [bind]. cbv zeta.
    rewrite Hdraw by reflexivity. cbn [bind].
    rewrite restore_two_moves.
    rewrite (IH item after iw ih (idx + 1) p Hrest Hitem). cbv zeta.
    replace (idx + 1 + len bs) with (idx + len (b :: bs))
      by (unfold len; cbn [length]; lia).
    reflexivity.
Qed.

Lemma bind_assoc {A B C} (m : Res A) (f : A -> Res B) (g : B -> Res C) :
  bind (bind m f) g = bind m (fun x => bind (f x) g).
Proof. destruct m; reflexivity. Qed.

(** The loop over [before ++ rest] is the loop over [before], then the
    loop over [rest] on the painter that one leaves, the index going on. *)
Lemma Grid_draw_items_app (draw_item : Widget -> Painter.t -> Res Painter.t)
    (c : GridCfg) (r cc gw gh : Z) (before rest : list Widget) :
  forall idx p,
    Grid_draw_items get_text_width draw_item fuel c r cc gw gh (before ++ rest) idx p
    = (q <- Grid_draw_items get_text_width draw_item fuel c r cc gw gh before idx p ;;
       Grid_draw_items get_text_width draw_item fuel c r cc gw gh rest
         (idx + len before) q).
Proof.
  induction before as [|b bs IH]; intros idx p; cbn [app Grid_draw_items].
  - change (len (@nil Widget)) with 0. rewrite Z.add_0_r. reflexivity.
  - destruct (grid_cell (vertical c) r cc idx) as [[i j]|e]; [|reflexivity].
    cbn [bind]. cbv zeta.
    destruct (_get_self_size get_text_width fuel b) as [[bw bh]|e]; [|reflexivity].
    cbn [bind]. cbv zeta.
    destruct (draw_item b _) as [p1|e]; [|reflexivity].
    cbn [bind]. rewrite IH.
    replace (idx + 1 + len bs) with (idx + len (b :: bs))
      by (unfold len; cbn [length]; lia).
    reflexivity.
Qed.

(** Items that are drawn in place leave the painter to the loop as it was. *)
Lemma Grid_draw_items_in_place (draw_item : Widget -> Painter.t -> Res Painter.t)
    (c : GridCfg) (r cc gw gh : Z) (before : list Widget) :
  r <> 0 -> cc <> 0 ->
  Forall (item_in_place draw_item) before ->
  forall idx p,
    Grid_draw_items get_text_width draw_item fuel c r cc gw gh before idx p = Ok p.
Proof.
  intros Hr Hc Hall.
  induction Hall as [|b bs ([bw bh] & Hb & Hdraw) _ IH]; intros idx p;
    cbn [Grid_draw_items]; [reflexivity|].
  unfold grid_cell, py_floordiv, py_mod.
  apply Z.eqb_neq in Hr, Hc. rewrite Hr, Hc.
  destruct (vertical c); cbn [negb bind]; cbv zeta; rewrite Hb; cbn [bind]; cbv zeta;
    rewrite Hdraw by reflexivity; cbn [bind]; rewrite restore_two_moves; apply IH.
Qed.

(** The index [k] of an item among [n], in a grid of [r] by [cc] cells that
    holds them all, is that of a cell inside the grid, row by row or column
    by column. *)
Lemma grid_index_in_range (vertical : bool) (r cc n k : Z) :
  0 < r -> 0 < cc -> n <= r * cc -> 0 <= k < n ->
  let i := if vertical then k mod r else k / cc in
  let j := if vertical then k / r else k mod cc in
  0 <= i < r /\ 0 <= j < cc /\ k = (if vertical then j * r + i else i * cc + j).
Proof.
  intros Hr Hc Hn Hk. cbv zeta. destruct vertical.
  - pose proof (Z.mod_pos_bound k r Hr). pose proof (Z.div_mod k r ltac:(lia)).
    assert (0 <= k / r) by (apply Z.div_pos; lia).
    assert (k / r < cc) by (apply Z.div_lt_upper_bound; nia).
    repeat split; lia.
  - pose proof (Z.mod_pos_bound k cc Hc). pose proof (Z.div_mod k cc ltac:(lia)).
    assert (0 <= k / cc) by (apply Z.div_pos; lia).
    assert (k / cc < r) by (apply Z.div_lt_upper_bound; nia).
    repeat split; lia.
Qed.

Lemma len_app_cons {A} (l1 : list A) (x : A) (l2 : list A) :
  0 <= len l1 < len (l1 ++ x :: l2).
Proof. unfold len. rewrite length_app. cbn [length]. lia. Qed.

(** C4.  A [Grid] with [col_count = c] (positive) and no [row_count], on
    [n] items.  The number of rows [r] is the ceiling of [n / c], that is
    [c * (r - 1) < n <= c * r], and [_get_grid_rc_and_size] returns these
    counts whenever it returns.  [_draw_content] is the loop over the items
    with these counts and the cell size measured.  For the item at index
    [k], whatever [draw] does: the loop first draws the items before it,
    then measures the item, sets the region of the cell of row [i] and column
    [j] - [(j * (gw + hsep), i * (gh + vsep))] from the offset the painter
    then has, of the size of a cell - with [i = k // c], [j = k % c] when
    [vertical] is false and [i = k % r], [j = k // r] when it is true, a cell
    inside the grid; it sets the region of the item inside that cell, calls
    the item's [draw] on it, pops both regions and goes on with the next
    index.  When the items before are drawn in place, the painter then has
    the offset it had at the start of the loop. *)
Theorem grid_rows_and_cells (a : Attrs) (c : GridCfg) (items : list Widget) (cols : Z) :
  col_count c = Some cols -> 0 < cols -> truthy (row_count c) = false ->
  let n := len items in
  let rows := (n + cols - 1) / cols in
  grid_rc c n = Ok (rows, cols)
  /\ cols * (rows - 1) < n <= cols * rows
  /\ (forall sizes rc gsz,
        length sizes = length items ->
        Grid_get_grid_rc_and_size a c sizes = Ok (rc, gsz) -> rc = (rows, cols))
  /\ (forall gw gh p,
        Grid_get_grid_rc_and_size a c (map self_size items) = Ok ((rows, cols), (gw, gh)) ->
        _draw_content get_text_width fuel (Grid a c items) p
        = Grid_draw_items get_text_width (draw get_text_width fuel) fuel c
            rows cols gw gh items 0 p)
  /\ (forall (draw_item : Widget -> Painter.t -> Res Painter.t) gw gh p
             before item after,
        items = before ++ item :: after ->
        let k := len before in
        let i := if vertical c then k mod rows else k / cols in
        let j := if vertical c then k / rows else k mod cols in
        let cell q :=
          Painter.move_region q (j * (gw + hsep c), i * (gh + vsep c)) (Some (gw, gh)) in
        let region q iw ih :=
          Painter.move_region (cell q)
            (halign_pos (item_halign (grid_items c)) gw iw,
             valign_pos (item_valign (grid_items c)) gh ih)
            (Some (iw, ih)) in
        (0 <= i < rows /\ 0 <= j < cols)
        /\ (forall q,
              Painter.offset (cell q)
              = (fst (Painter.offset q) + j * (gw + hsep c),
                 snd (Painter.offset q) + i * (gh + vsep c))
              /\ Painter.size (cell q) = (gw, gh))
        /\ Grid_draw_items get_text_width draw_item fuel c rows cols gw gh items 0 p
           = (q <- Grid_draw_items get_text_width draw_item fuel c rows cols gw gh
                     before 0 p ;;
              '(iw, ih) <- self_size item ;;
              p' <- draw_item item (region q iw ih) ;;
              Grid_draw_items get_text_width draw_item fuel c rows cols gw gh after
                (k + 1) (Painter.restore_region p' 2))
        /\ (Forall (item_in_place draw_item) before ->
            Grid_draw_items get_text_width draw_item fuel c rows cols gw gh before 0 p
            = Ok p)).
Proof.
  intros Hc Hpos Hr n rows.
  assert (Hrc : grid_rc c n = Ok (rows, cols)).
  { unfold grid_rc. rewrite Hc, Hr. cbn [truthy].
    replace (cols =? 0) with false by (symmetry; apply Z.eqb_neq; lia).
    reflexivity. }
  assert (Hceil : cols * (rows - 1) < n <= cols * rows).
  { unfold rows.
    pose proof (Z.div_mod (n + cols - 1) cols ltac:(lia)) as Hdm.
    pose proof (Z.mod_pos_bound (n + cols - 1) cols Hpos) as Hm.
    nia. }
  split; [exact Hrc|]. split; [exact Hceil|]. split; [|split].
  - intros sizes rc gsz Hlen H. unfold Grid_get_grid_rc_and_size in H.
    replace (len sizes) with n in H by (unfold n, len; congruence).
    rewrite Hrc in H. cbn [bind] in H.
    destruct (item_size_mode (grid_items c)).
    + destruct (w a), (h a); try discriminate.
      repeat (inv_bind H). congruence.
    + inv_bind H. destruct x. congruence.
  - intros gw gh p Hsz. unfold _draw_content. cbn [draw_content_with].
    rewrite Hsz. reflexivity.
  - intros draw_item gw gh p before item after Hitems.
    cbv zeta.
    assert (Hk : 0 <= len before < n)
      by (unfold n; rewrite Hitems; apply len_app_cons).
    assert (Hrows : 0 < rows) by (unfold rows; apply Z.div_str_pos; lia).
    destruct (grid_index_in_range (vertical c) rows cols n (len before)
                Hrows Hpos ltac:(lia) Hk) as (Hi & Hj & _).
    split; [split; assumption|].
    split; [intros q; split; reflexivity|]. split.
    + rewrite Hitems, Grid_draw_items_app. f_equal.
      cbn [Grid_draw_items]. rewrite Z.add_0_l.
      unfold grid_cell, py_floordiv, py_mod.
      replace (cols =? 0) with false by (symmetry; apply Z.eqb_neq; lia).
      replace (rows =? 0) with false by (symmetry; apply Z.eqb_neq; lia).
      destruct (vertical c); reflexivity.
    + intros Hbefore. apply Grid_draw_items_in_place; [lia | lia | exact Hbefore].
Qed.

End GridResults.

(** Seven spacers of 10 by 10 in three columns. *)
Definition seven_in_three_cfg : GridCfg :=
  {| row_count := None; col_count := Some 3; hsep := 8; vsep := 8;
     vertical := false;
     grid_items := {| item_size_mode := Fixed; item_halign := HC;
                      item_valign := VC |} |}.

Definition ten_by_ten : Widget := Spacer_init (Some 10) (Some 10).

(** C4, witness: seven items in three columns make three rows, and the
    item of index 5 is drawn in row 1, column 2: in a grid of cells of 10 by
    10 separated by 8, on the region at (36, 18). *)
Lemma grid_rows_and_cells_witness :
  grid_rc seven_in_three_cfg 7 = Ok (3, 3)
  /\ Grid_draw_items (mono_width 8) (draw (mono_width 8) 0) 0 seven_in_three_cfg
       3 3 10 10 (repeat ten_by_ten 7) 0
       (Painter.init {| im_mode := RGBA; im_size := (46, 46) |})
     = (q <- Grid_draw_items (mono_width 8) (draw (mono_width 8) 0) 0 seven_in_three_cfg
               3 3 10 10 (repeat ten_by_ten 5) 0
               (Painter.init {| im_mode := RGBA; im_size := (46, 46) |}) ;;
        '(iw, ih) <- _get_self_size (mono_width 8) 0 ten_by_ten ;;
        p' <- draw (mono_width 8) 0 ten_by_ten
                (Painter.move_region
                   (Painter.move_region q (36, 18) (Some (10, 10)))
                   (halign_pos HC 10 iw, valign_pos VC 10 ih) (Some (iw, ih))) ;;
        Grid_draw_items (mono_width 8) (draw (mono_width 8) 0) 0 seven_in_three_cfg
          3 3 10 10 [ten_by_ten] 6 (Painter.restore_region p' 2)).
Proof.
  pose proof (grid_rows_and_cells (mono_width 8) 0 Widget_init seven_in_three_cfg
                (repeat ten_by_ten 7) 3 eq_refl ltac:(lia) eq_refl)
    as (Hrc & _ & _ & _ & Hdraw).
  split; [exact Hrc|].
  exact (proj1 (proj2 (proj2
           (Hdraw (draw (mono_width 8) 0) 10 10
              (Painter.init {| im_mode := RGBA; im_size := (46, 46) |})
              (repeat ten_by_ten 5) ten_by_ten [ten_by_ten] eq_refl)))).
Defined.

(* ===================================================================== *)
(** ** Configuration errors                                                *)
(* ===================================================================== *)

Definition raises {A} (c : Res A) : Prop := exists e, c = Raise e.

(** [_get_item_sizes] of a split in expand mode without its extent: with
    ratios the assertion fails at once, without them after the items have
    been measured. *)
Lemma split_expand_without_extent (main cross : Size -> Z) (pad : Z) (c : SplitCfg)
    (sizes : list (Res Size)) :
  item_size_mode (split_items c) = Expand ->
  split_item_sizes main cross None pad c sizes
  = match ratios c with
    | Some (_ :: _) => Raise AssertionError
    | _ => match sequence sizes with
           | Ok _ => Raise AssertionError
           | Raise e => Raise e
           end
    end.
Proof.
  intros Hm. unfold split_item_sizes. rewrite Hm.
  destruct (ratios c) as [[|r rs]|]; cbn [bind]; try reflexivity;
    destruct (sequence sizes); reflexivity.
Qed.

Lemma sequence_measured {A} (f : A -> Res Size) (xs : list A) :
  Forall (fun x => exists s, f x = Ok s) xs -> exists szs, sequence (map f xs) = Ok szs.
Proof.
  induction 1 as [|x l [s Hs] _ [szs IH]]; cbn [map sequence].
  - eauto.
  - rewrite Hs, IH. cbn. eauto.
Qed.

(** C6, as the code has it.  An invalid alignment token, an invalid
    overflow mode and [row_count] with [col_count] are refused by the
    constructor or setter that receives them.  A missing dimension is not:
    the constructor returns, and the assertion fails when the content size
    is first asked for.  That is so for an [ImageBox] in fit or fill mode
    with neither width nor height; for a [Grid] in expand mode without width
    and height, whatever its items and its count; and for an [HSplit] or
    [VSplit] in expand mode without its extent that holds an item, when it
    has ratios or all its items can be measured (without ratios the items are
    measured first, and in every case the measurement raises).  An empty
    [HSplit] or [VSplit] in expand mode without its extent raises nothing:
    its content size is [(0, 0)]. *)
Theorem config_errors_eager_or_at_measurement (get_text_width : TextStyle.t -> str -> Z)
    (fuel : nat) :
  (forall align,
      ALIGN_MAP align = None ->
      (forall a, set_content_align a align = Raise ValueError)
      /\ (forall a, set_offset_anchor a align = Raise ValueError)
      /\ (forall items ratios sep mode, raises (HSplit_init items ratios sep mode align))
      /\ (forall items ratios sep mode, raises (VSplit_init items ratios sep mode align))
      /\ (forall items r c mode hsep vsep vertical,
             raises (Grid_init items r c mode align hsep vsep vertical)))
  /\ (forall ov,
         check_overflow ov = Raise AssertionError ->
         (forall text style lc line_sep wrap use_real,
             TextBox_init text style lc line_sep wrap ov use_real = Raise AssertionError)
         /\ (forall c, set_overflow c ov = Raise AssertionError))
  /\ (forall items r c mode align hsep vsep vertical,
         r <> 0 -> c <> 0 ->
         Grid_init items (Some r) (Some c) mode align hsep vsep vertical
         = Raise AssertionError)
  /\ (forall image mode,
         mode = "fit"%string \/ mode = "fill"%string ->
         exists wd,
           ImageBox_init image (Some mode) None = Ok wd
           /\ _get_content_size get_text_width fuel wd = Raise AssertionError)
  /\ (forall items ratios sep align,
         ALIGN_MAP align <> None ->
         exists hs vs,
           HSplit_init items ratios sep "expand" align = Ok hs
           /\ VSplit_init items ratios sep "expand" align = Ok vs
           /\ (items = [] ->
               _get_content_size get_text_width fuel hs = Ok (0, 0)
               /\ _get_content_size get_text_width fuel vs = Ok (0, 0))
           /\ (items <> [] ->
               (exists r rs, ratios = Some (r :: rs))
               \/ Forall (fun it => exists s, _get_self_size get_text_width fuel it = Ok s)
                    items ->
               _get_content_size get_text_width fuel hs = Raise AssertionError
               /\ _get_content_size get_text_width fuel vs = Raise AssertionError)
           /\ (items <> [] ->
               raises (_get_content_size get_text_width fuel hs)
               /\ raises (_get_content_size get_text_width fuel vs)))
  /\ (forall items r c align hsep vsep vertical,
         ALIGN_MAP align <> None -> truthy r && truthy c = false ->
         exists wd,
           Grid_init items r c "expand" align hsep vsep vertical = Ok wd
           /\ _get_content_size get_text_width fuel wd = Raise AssertionError).
Proof.
  split; [|split; [|split; [|split; [|split]]]].
  - intros align H. split; [|split; [|split; [|split]]].
    + intros a. unfold set_content_align. rewrite H. reflexivity.
    + intros a. unfold set_offset_anchor. rewrite H. reflexivity.
    + intros. unfold HSplit_init, check_item_align, raises. rewrite H.
      destruct (check_item_size_mode mode); cbn; eauto.
    + intros. unfold VSplit_init, check_item_align, raises. rewrite H.
      destruct (check_item_size_mode mode); cbn; eauto.
    + intros. unfold Grid_init, check_item_align, raises. rewrite H.
      destruct (assert_ _); cbn; eauto.
      destruct (check_item_size_mode mode); cbn; eauto.
  - intros ov H. split.
    + intros. unfold TextBox_init. rewrite H. reflexivity.
    + intros. unfold set_overflow. rewrite H. reflexivity.
  - intros items r c mode align hs vs vert Hr Hc. unfold Grid_init. cbn [truthy].
    apply Z.eqb_neq in Hr, Hc. rewrite Hr, Hc. reflexivity.
  - intros image mode [-> | ->]; eexists; split; reflexivity.
  - intros items rts sp align Ha.
    unfold HSplit_init, VSplit_init.
    cbn [check_item_size_mode String.eqb Ascii.eqb bind].
    unfold check_item_align. destruct (ALIGN_MAP align) as [[ha va]|]; [|contradiction].
    cbn [bind]. do 2 eexists. split; [reflexivity|]. split; [reflexivity|].
    set (c := {| ratios := rts; sep := sp;
                 split_items := {| item_size_mode := Expand; item_halign := ha;
                                   item_valign := va |} |}).
    assert (Hh : forall it its,
               _get_content_size get_text_width fuel (HSplit Widget_init c (it :: its))
               = (x <- split_item_sizes fst snd None 0 c
                         (map (_get_self_size get_text_width fuel) (it :: its)) ;;
                  Raise AssertionError)
               /\ _get_content_size get_text_width fuel (VSplit Widget_init c (it :: its))
                  = (x <- split_item_sizes snd fst None 0 c
                            (map (_get_self_size get_text_width fuel) (it :: its)) ;;
                     Raise AssertionError)).
    { intros it its. unfold _get_content_size. cbn [content_size_with].
      unfold HSplit_content_size, VSplit_content_size,
        HSplit_get_item_sizes, VSplit_get_item_sizes.
      cbn [map w h hpadding vpadding Widget_init].
      rewrite !(split_expand_without_extent _ _ _ c _ eq_refl).
      split; destruct (ratios c) as [[|? ?]|];
        try reflexivity; destruct (sequence _); reflexivity. }
    split; [|split].
    + intros ->. split; reflexivity.
    + intros Hne Hcase. destruct items as [|it its]; [contradiction|].
      destruct (Hh it its) as [-> ->].
      rewrite !(split_expand_without_extent _ _ _ c _ eq_refl).
      destruct Hcase as [(r & rs & ->)|Hall].
      * split; reflexivity.
      * destruct (sequence_measured (_get_self_size get_text_width fuel) _ Hall)
          as [szs Hszs].
        cbn [c ratios]. rewrite Hszs.
        destruct rts as [[|? ?]|]; split; reflexivity.
    + intros Hne. destruct items as [|it its]; [contradiction|].
      destruct (Hh it its) as [-> ->].
      rewrite !(split_expand_without_extent _ _ _ c _ eq_refl).
      unfold raises.
      destruct (ratios c) as [[|? ?]|]; cbn [bind];
        try (split; eexists; reflexivity);
        destruct (sequence _); cbn [bind]; split; eexists; reflexivity.
  - intros items r c align hs vs vert Ha Hcounts. unfold Grid_init.
    rewrite Hcounts. cbn [negb assert_ bind check_item_size_mode String.eqb Ascii.eqb].
    unfold check_item_align. destruct (ALIGN_MAP align) as [[ha va]|]; [|contradiction].
    cbn [bind]. eexists. split; [reflexivity|].
    unfold _get_content_size. cbn [content_size_with].
    unfold Grid_content_size, Grid_get_grid_rc_and_size.
    cbn [grid_items item_size_mode w h Widget_init].
    destruct (grid_rc _ _) as [[r' c']|e] eqn:Hrc; [reflexivity|].
    unfold grid_rc in Hrc. cbn [row_count col_count] in Hrc.
    destruct (assert_ _) eqn:Has; cbn [bind] in Hrc.
    + destruct r as [r0|], c as [c0|]; cbn [truthy] in *;
        repeat match type of Hrc with
               | context [negb (?x =? 0)] => destruct (x =? 0); cbn in *
               end; try discriminate.
    + unfold assert_ in Has. destruct (_ || _); [discriminate|].
      injection Has as <-. injection Hrc as <-. reflexivity.
Qed.

(** C6, witness: an unknown alignment token and an [ImageBox] in fit mode
    that was given no size. *)
Lemma config_errors_eager_or_at_measurement_witness :
  set_content_align Widget_init "middle" = Raise ValueError
  /\ exists wd,
       ImageBox_init (10, 10) (Some "fit"%string) None = Ok wd
       /\ _get_content_size (mono_width 8) 0 wd = Raise AssertionError.
Proof.
  pose proof (config_errors_eager_or_at_measurement (mono_width 8) 0)
    as (Halign & _ & _ & Himg & _).
  split.
  - exact (proj1 (Halign "middle"%string eq_refl) Widget_init).
  - exact (Himg (10, 10) "fit"%string (or_introl eq_refl)).
Defined.

(** C6, as the specification words it, fails: an [ImageBox] in fit mode
    with no size is constructed without error, and the missing dimension
    first surfaces when the widget is measured, or drawn by [get_img]. *)
Lemma missing_dimension_surfaces_at_measurement :
  exists wd,
    ImageBox_init (10, 10) (Some "fit"%string) None = Ok wd
    /\ _get_self_size (mono_width 8) 0 wd = Raise AssertionError
    /\ get_img (mono_width 8) 0 (add_item (Canvas_init None None) wd) None
       = ([], Raise AssertionError).
Proof. eexists. split; [reflexivity|]. split; reflexivity. Qed.

(* ===================================================================== *)
(** ** Text                                                                *)
(* ===================================================================== *)

Lemma py_slice_to_0 {A} (s : list A) : py_slice_to s 0 = [].
Proof. reflexivity. Qed.


Lemma len_app_one {A} (l : list A) (x : A) : len (l ++ [x]) = len l + 1.
Proof. unfold len. rewrite length_app. cbn [length]. lia. Qed.

Lemma len_nonneg {A} (l : list A) : 0 <= len l.
Proof. unfold len. lia. Qed.

(** [s[:k] + s[k:] == s], for every [k]. *)
Lemma py_slice_split {A} (s : list A) (k : Z) : py_slice_to s k ++ py_slice_from s k = s.
Proof. unfold py_slice_to, py_slice_from. apply firstn_skipn. Qed.

Lemma py_slice_to_full {A} (s : list A) (k : Z) : len s <= k -> py_slice_to s k = s.
Proof.
  intros Hk. unfold py_slice_to. pose proof (len_nonneg s).
  replace (k <? 0) with false by (symmetry; apply Z.ltb_ge; lia).
  apply firstn_all2. unfold len in Hk. lia.
Qed.

Lemma py_slice_to_incl {A} (s : list A) (k : Z) : incl (py_slice_to s k) s.
Proof.
  unfold py_slice_to. intros x Hx.
  rewrite <- (firstn_skipn (Z.to_nat (if k <? 0 then Z.max 0 (len s + k) else k)) s).
  apply in_or_app. left. exact Hx.
Qed.

Section TextResults.

Variable get_text_width : TextStyle.t -> str -> Z.

Abbreviation width_of := get_text_width.
Abbreviation search := (clip_search get_text_width).
Abbreviation clip_idx := (_get_clip_text_to_width_idx get_text_width).

(** The binary search returns an index in [-1 .. r]; it is [-1] only when
    the suffix alone is too wide, and else the prefix of that length, with
    the suffix, fits the width. *)
Lemma clip_search_fits st txt suffix width l r :
  0 <= l <= r + 1 ->
  (0 < l -> width_of st (py_slice_to txt (l - 1) ++ suffix) < width) ->
  (r = -1 -> width < width_of st suffix) ->
  let k := search st txt suffix width l r in
  k <= r
  /\ ((k = -1 /\ width < width_of st suffix)
      \/ (0 <= k /\ width_of st (py_slice_to txt k ++ suffix) <= width)).
Proof.
  funelim (clip_search get_text_width st txt suffix width l r);
    intros Hlr Hl Hr; cbv zeta in *.
  - (* l <= r *)
    assert (Hm1 : l <= (l + r) / 2) by (apply Z.div_le_lower_bound; lia).
    assert (Hm2 : (l + r) / 2 <= r) by (apply Z.div_le_upper_bound; lia).
    set (m := (l + r) / 2) in *.
    destruct (Z.ltb_spec (get_text_width st (py_slice_to txt m ++ suffix)) width)
      as [Hlt|Hge].
    + destruct H as [Hk Hfit].
      * lia.
      * intros _. replace (m + 1 - 1) with m by lia. exact Hlt.
      * intros ->. lia.
      * split; [lia | exact Hfit].
    + destruct (Z.gtb_spec (get_text_width st (py_slice_to txt m ++ suffix)) width)
        as [Hgt|Hle].
      * destruct H0 as [Hk Hfit].
        -- lia.
        -- exact Hl.
        -- intros Hm. assert (m = 0) as Hm0 by lia.
           rewrite Hm0, py_slice_to_0 in Hgt. exact Hgt.
        -- split; [lia | exact Hfit].
      * split; [lia|]. right. split; lia.
  - (* l > r *)
    split; [lia|].
    assert (r = l - 1) as Hrl by lia.
    destruct (Z.eq_dec l 0) as [->|Hl0].
    + left. split; [lia | apply Hr; lia].
    + right. split; [lia|]. rewrite Hrl. apply Z.lt_le_incl, Hl. lia.
Qed.

(** [_get_clip_text_to_width_idx] when the suffix alone fits the width:
    either the whole text with the suffix fits, or the index is a length of
    a prefix that, with the suffix, fits. *)
Lemma clip_idx_fits st txt width suffix :
  width_of st suffix <= width ->
  match clip_idx st txt width suffix with
  | None => width_of st (txt ++ suffix) <= width
  | Some k =>
      width < width_of st (txt ++ suffix)
      /\ 0 <= k <= len txt
      /\ width_of st (py_slice_to txt k ++ suffix) <= width
  end.
Proof.
  intros Hsuf. unfold _get_clip_text_to_width_idx.
  destruct (Z.leb_spec (get_text_width st (txt ++ suffix)) width) as [Hle|Hgt].
  - exact Hle.
  - split; [exact Hgt|].
    pose proof (clip_search_fits st txt suffix width 0 (len txt)) as Hs.
    cbv zeta in Hs.
    destruct Hs as [Hk [[_ Hbad]|[Hk0 Hfit]]]; try (unfold len; lia).
    split; [lia | exact Hfit].
Qed.

Lemma clip_search_bounds st txt suffix width l r :
  l <= r + 1 ->
  l - 1 <= search st txt suffix width l r <= r.
Proof.
  funelim (clip_search get_text_width st txt suffix width l r); intros Hlr; cbv zeta in *.
  - assert (Hm1 : l <= (l + r) / 2) by (apply Z.div_le_lower_bound; lia).
    assert (Hm2 : (l + r) / 2 <= r) by (apply Z.div_le_upper_bound; lia).
    set (m := (l + r) / 2) in *.
    destruct (get_text_width st (py_slice_to txt m ++ suffix) <? width).
    + specialize (H ltac:(lia)). lia.
    + destruct (get_text_width st (py_slice_to txt m ++ suffix) >? width).
      * specialize (H0 ltac:(lia)). lia.
      * lia.
  - lia.
Qed.

(** The index the search returns is tight: its prefix, with the suffix,
    fills the width exactly, or one more character would not fit. *)
Lemma clip_search_tight st txt suffix width l r :
  width < width_of st (py_slice_to txt (r + 1) ++ suffix) ->
  let k := search st txt suffix width l r in
  width_of st (py_slice_to txt k ++ suffix) = width
  \/ width < width_of st (py_slice_to txt (k + 1) ++ suffix).
Proof.
  funelim (clip_search get_text_width st txt suffix width l r); intros Hr; cbv zeta in *.
  - set (m := (l + r) / 2) in *.
    destruct (Z.ltb_spec (get_text_width st (py_slice_to txt m ++ suffix)) width)
      as [Hlt|Hge].
    + apply H. exact Hr.
    + destruct (Z.gtb_spec (get_text_width st (py_slice_to txt m ++ suffix)) width)
        as [Hgt|Hle].
      * apply H0. replace (m - 1 + 1) with m by lia. exact Hgt.
      * left. lia.
  - right. exact Hr.
Qed.

Lemma split_lines_single s : ~ In newline s -> split_lines s = [s].
Proof.
  induction s as [|ch s IH]; intros Hnl; cbn [split_lines]; [reflexivity|].
  destruct (Ascii.eqb_spec ch newline) as [->|_].
  - exfalso. apply Hnl. left. reflexivity.
  - rewrite IH; [reflexivity|]. intros Hin. apply Hnl. right. exact Hin.
Qed.

(** Two rounds of the wrapping loop when both searches cut. *)
Lemma wrap_loop_two_rounds fuel c width suffix line k1 k2 :
  line_count c = 2 ->
  clip_idx (style c) line width [] = Some k1 ->
  clip_idx (style c) (py_slice_from line k1) width suffix = Some k2 ->
  wrap_loop get_text_width (S (S fuel)) c width suffix line []
  = Ok [py_slice_to line k1 ++ []; py_slice_to (py_slice_from line k1) k2 ++ suffix].
Proof.
  intros Hlc E1 E2. cbn [wrap_loop]. rewrite Hlc.
  change (len (@nil str) =? 2 - 1) with false. cbv iota.
  rewrite E1. cbn [app].
  repeat match goal with
         | |- context [len [?l1] =? ?n] =>
             let b := eval vm_compute in (Z.of_nat 1 =? n) in
             change (len [l1] =? n) with b
         end.
  cbv iota. rewrite E2.
  match goal with
  | |- context [len [?l1; ?l2] =? 2] => change (len [l1; l2] =? 2) with true
  end.
  reflexivity.
Qed.

(** The metric grows with every character of [txt] that is put before the
    suffix. *)
Definition grows (st : TextStyle.t) (txt suffix : str) : Prop :=
  forall k k', 0 <= k < k' -> k' <= len txt ->
    width_of st (py_slice_to txt k ++ suffix) < width_of st (py_slice_to txt k' ++ suffix).

(** What the search has found when it cuts and the suffix alone fits: a
    prefix that fits with the suffix and is tight - it fills the width, or
    one more character does not fit - so that, where the metric grows with
    every character, it is the longest prefix that fits. *)
Lemma clip_idx_longest st txt width suffix k :
  width_of st suffix <= width ->
  clip_idx st txt width suffix = Some k ->
  0 <= k <= len txt
  /\ width_of st (py_slice_to txt k ++ suffix) <= width
  /\ (width_of st (py_slice_to txt k ++ suffix) = width
      \/ width < width_of st (py_slice_to txt (k + 1) ++ suffix))
  /\ (grows st txt suffix ->
      forall k', k < k' -> k' <= len txt ->
        width < width_of st (py_slice_to txt k' ++ suffix)).
Proof.
  intros Hsuf Hcut.
  pose proof (clip_idx_fits st txt width suffix Hsuf) as Hfits.
  rewrite Hcut in Hfits. destruct Hfits as (Hlong & Hk & Hfit).
  assert (Htight : width_of st (py_slice_to txt k ++ suffix) = width
                   \/ width < width_of st (py_slice_to txt (k + 1) ++ suffix)).
  { unfold _get_clip_text_to_width_idx in Hcut.
    destruct (get_text_width st (txt ++ suffix) <=? width); [discriminate|].
    injection Hcut as <-. apply clip_search_tight.
    rewrite (py_slice_to_full txt (len txt + 1)) by lia. exact Hlong. }
  split; [exact Hk|]. split; [exact Hfit|]. split; [exact Htight|].
  intros Hgrows k' Hk' Hlen.
  destruct Htight as [Heq|Hwide].
  - pose proof (Hgrows k k' ltac:(lia) Hlen). lia.
  - destruct (Z.eq_dec k' (k + 1)) as [->|Hne]; [exact Hwide|].
    pose proof (Hgrows (k + 1) k' ltac:(lia) Hlen). lia.
Qed.

(** C3, as the code has it.  A [TextBox] with an explicit width, [wrap],
    [line_count = 2] and [overflow = 'shrink'], whose text is one paragraph
    that fits neither on one line nor, cut after a first line that fits, on
    a second one with the ellipsis, and whose width holds the ellipsis
    alone: with two rounds of the loop or more, [_get_lines] returns exactly
    two lines.  The first is the prefix the binary search cuts from the
    text, the second the prefix it cuts from the rest with the ellipsis
    reserved, and the ellipsis after it.  Each fits the available width and
    is tight: it fills the width, or one more character would not fit; so
    where the metric grows with every character, each is the longest prefix
    that fits. *)
Theorem wrap_two_lines_with_ellipsis fuel a c w0 :
  w a = Some w0 -> w0 <> 0 ->
  wrap c = true -> line_count c = 2 -> overflow c = Shrink ->
  ~ In newline (text c) ->
  let width := w0 - hpadding a * 2 in
  let st := style c in
  width_of st [] <= width ->
  width_of st ellipsis <= width ->
  width < width_of st (text c) ->
  (forall k, 0 <= k <= len (text c) ->
             width_of st (py_slice_to (text c) k) <= width ->
             width < width_of st (py_slice_from (text c) k ++ ellipsis)) ->
  exists k1 k2,
    let rest := py_slice_from (text c) k1 in
    clip_idx st (text c) width [] = Some k1
    /\ clip_idx st rest width ellipsis = Some k2
    /\ _get_lines get_text_width (S (S fuel)) a c
       = Ok [py_slice_to (text c) k1; py_slice_to rest k2 ++ ellipsis]
    /\ (0 <= k1 <= len (text c) /\ 0 <= k2 <= len rest)
    /\ width_of st (py_slice_to (text c) k1) <= width
    /\ width_of st (py_slice_to rest k2 ++ ellipsis) <= width
    /\ (width_of st (py_slice_to (text c) k1) = width
        \/ width < width_of st (py_slice_to (text c) (k1 + 1)))
    /\ (width_of st (py_slice_to rest k2 ++ ellipsis) = width
        \/ width < width_of st (py_slice_to rest (k2 + 1) ++ ellipsis))
    /\ (grows st (text c) [] ->
        forall k, k1 < k -> k <= len (text c) ->
          width < width_of st (py_slice_to (text c) k))
    /\ (grows st rest ellipsis ->
        forall k, k2 < k -> k <= len rest ->
          width < width_of st (py_slice_to rest k ++ ellipsis)).
Proof.
  intros Hw Hw0 Hwrap Hlc Hov Hnl width st Hempty Hell Hlong Htwo.
  pose proof (clip_idx_fits st (text c) width [] Hempty) as H1.
  destruct (clip_idx st (text c) width []) as [k1|] eqn:E1;
    [|rewrite app_nil_r in H1; lia].
  destruct H1 as (_ & Hk1 & Hfit1). rewrite app_nil_r in Hfit1.
  pose proof (clip_idx_fits st (py_slice_from (text c) k1) width ellipsis Hell) as H2.
  destruct (clip_idx st (py_slice_from (text c) k1) width ellipsis) as [k2|] eqn:E2;
    [|specialize (Htwo k1 Hk1 Hfit1); lia].
  destruct H2 as (_ & Hk2 & Hfit2).
  destruct (clip_idx_longest st (text c) width [] k1 Hempty E1)
    as (_ & _ & Htight1 & Hlongest1).
  destruct (clip_idx_longest st (py_slice_from (text c) k1) width ellipsis k2 Hell E2)
    as (_ & _ & Htight2 & Hlongest2).
  rewrite !app_nil_r in Htight1.
  exists k1, k2. cbv zeta.
  split; [first [assumption | reflexivity]|].
  split; [first [assumption | reflexivity]|]. split.
  { unfold _get_lines. rewrite (split_lines_single _ Hnl).
    cbn [fold_left bind]. unfold get_lines_step. rewrite Hw. cbn [truthy].
    replace (w0 =? 0) with false by (symmetry; apply Z.eqb_neq; exact Hw0).
    cbn [negb]. rewrite Hwrap, Hov. fold width.
    rewrite (wrap_loop_two_rounds fuel c width ellipsis (text c) k1 k2 Hlc E1 E2).
    cbn [bind]. rewrite Hlc, app_nil_r. reflexivity. }
  split; [split; assumption|].
  split; [exact Hfit1|]. split; [exact Hfit2|].
  split; [exact Htight1|]. split; [exact Htight2|].
  split; [|exact Hlongest2].
  intros Hg k Hk Hlen. specialize (Hlongest1 Hg k Hk Hlen).
  rewrite app_nil_r in Hlongest1. exact Hlongest1.
Qed.



End TextResults.

(** Thirty letters in a box 84 wide with the padding 2, 8 pixels a letter:
    ten letters fit a line. *)
Definition thirty_letters : str :=
  list_ascii_of_string "abcdefghijklmnopqrstuvwxyzABCD".

Definition two_line_box_attrs : Attrs :=
  set_size (set_margin (set_padding Widget_init (inl 2)) (inl 0)) (Some (Some 84, None)).

Definition two_line_box_cfg : TextCfg :=
  {| text := thirty_letters; style := TextStyle.default; line_count := 2;
     line_sep := 2; wrap := true; overflow := Shrink; use_real_line_count := false |}.

(** The lines the code cuts for this box. *)
Example two_line_box_lines :
  _get_lines (mono_width 8) 2 two_line_box_attrs two_line_box_cfg
  = Ok [list_ascii_of_string "abcdefghij"; list_ascii_of_string "klmnopq..."].
Proof. vm_compute. reflexivity. Qed.

Lemma mono_width_grows (advance : Z) (st : TextStyle.t) (txt suffix : str) :
  0 < advance -> grows (mono_width advance) st txt suffix.
Proof.
  intros Hadv k k' Hk Hlen. unfold mono_width, py_slice_to, len in *.
  replace (k <? 0) with false by (symmetry; apply Z.ltb_ge; lia).
  replace (k' <? 0) with false by (symmetry; apply Z.ltb_ge; lia).
  rewrite !length_app, !length_firstn. nia.
Qed.

(** C3, witness: the thirty letters in the box of two lines; the cuts are
    at 10, the longest prefix that fits, and at 7. *)
Lemma wrap_two_lines_with_ellipsis_witness :
  exists k1 k2,
    _get_clip_text_to_width_idx (mono_width 8) TextStyle.default thirty_letters 80 []
    = Some k1
    /\ _get_clip_text_to_width_idx (mono_width 8) TextStyle.default
         (py_slice_from thirty_letters k1) 80 ellipsis = Some k2
    /\ _get_lines (mono_width 8) 2 two_line_box_attrs two_line_box_cfg
       = Ok [py_slice_to thirty_letters k1;
             py_slice_to (py_slice_from thirty_letters k1) k2 ++ ellipsis]
    /\ mono_width 8 TextStyle.default (py_slice_to thirty_letters k1) <= 80
    /\ mono_width 8 TextStyle.default
         (py_slice_to (py_slice_from thirty_letters k1) k2 ++ ellipsis) <= 80
    /\ (forall k, k1 < k -> k <= len thirty_letters ->
          80 < mono_width 8 TextStyle.default (py_slice_to thirty_letters k)).
Proof.
  destruct (wrap_two_lines_with_ellipsis (mono_width 8) 0 two_line_box_attrs
              two_line_box_cfg 84 eq_refl ltac:(lia) eq_refl eq_refl eq_refl)
    as (k1 & k2 & H1 & H2 & Hlines & _ & Hfit1 & Hfit2 & _ & _ & Hlongest & _).
  - cbn. intros H. repeat (destruct H as [H|H]; [discriminate H|]). exact H.
  - cbn. lia.
  - cbn. lia.
  - cbn. lia.
  - intros k Hk Hfit.
    change (len (text two_line_box_cfg)) with 30 in Hk.
    unfold mono_width, py_slice_to, py_slice_from, len in *.
    replace (k <? 0) with false in * by (symmetry; apply Z.ltb_ge; lia).
    rewrite length_app, length_skipn. rewrite length_firstn in Hfit.
    change (length (text two_line_box_cfg)) with 30%nat in *.
    change (length ellipsis) with 3%nat.
    change (hpadding two_line_box_attrs) with 2 in *. lia.
  - exists k1, k2.
    split; [exact H1|]. split; [exact H2|]. split; [exact Hlines|].
    split; [exact Hfit1|]. split; [exact Hfit2|].
    apply Hlongest. apply mono_width_grows. lia.
Defined.

(** Fifteen letters, a newline and ten letters; ten letters in a box two
    letters wide. *)
Definition two_paragraphs : str :=
  repeat "a"%char 15 ++ [newline] ++ repeat "b"%char 10.

Definition two_paragraphs_cfg : TextCfg :=
  {| text := two_paragraphs; style := TextStyle.default; line_count := 2;
     line_sep := 2; wrap := true; overflow := Shrink; use_real_line_count := false |}.

Definition ten_letters_cfg : TextCfg :=
  {| text := list_ascii_of_string "abcdefghij"; style := TextStyle.default;
     line_count := 2; line_sep := 2; wrap := true; overflow := Shrink;
     use_real_line_count := false |}.

Definition narrow_two_line_attrs : Attrs :=
  set_size (set_margin (set_padding Widget_init (inl 2)) (inl 0)) (Some (Some 20, None)).

(** C3, as the specification words it, fails.  In the box of 80 pixels, 8 a
    letter, the text of two paragraphs is 208 wide, more than two lines'
    worth; the first paragraph ends on the second line, which is the last
    permitted one, so that line gets no ellipsis, and the second paragraph
    is dropped: the lines are ten and five letters.  In the box of 16
    pixels the ellipsis alone, 24 wide, does not fit: the search answers -1
    and the second line is all but the last letter of the rest with the
    ellipsis, 80 wide. *)
Lemma second_paragraph_drops_the_ellipsis :
  mono_width 8 TextStyle.default two_paragraphs = 208
  /\ _get_lines (mono_width 8) 5 two_line_box_attrs two_paragraphs_cfg
     = Ok [list_ascii_of_string "aaaaaaaaaa"; list_ascii_of_string "aaaaa"]
  /\ _get_clip_text_to_width_idx (mono_width 8) TextStyle.default
       (list_ascii_of_string "cdefghij") 16 ellipsis = Some (-1)
  /\ _get_lines (mono_width 8) 5 narrow_two_line_attrs ten_letters_cfg
     = Ok [list_ascii_of_string "ab"; list_ascii_of_string "cdefghi..."]
  /\ mono_width 8 TextStyle.default (list_ascii_of_string "cdefghi...") = 80.
Proof. repeat split; vm_compute; reflexivity. Qed.


(* ===================================================================== *)
(** ** The image box                                                       *)
(* ===================================================================== *)

(** C8 fails on the code.  An image of 97 by 50 in an [ImageBox] of width
    100 (fit mode, no height, no padding): [scale = min(100 / 97, 1000000 /
    50)] is 1.0309278350515463 (0x1.07eae2f8151dp+0), [97 * scale] is
    99.99999999999999 (0x1.8ffffffffffffp+6), and [int] truncates it: the
    content is 99 wide, not 100. *)
Theorem fit_width_loses_a_pixel (get_text_width : TextStyle.t -> str -> Z) (fuel : nat) :
  exists a c,
    ImageBox_init (97, 50) None (Some (Some 100, None)) = Ok (ImageBox a c)
    /\ image_size_mode c = Fit
    /\ w a = Some 100 /\ h a = None /\ hpadding a = 0 /\ vpadding a = 0
    /\ py_truediv 100 97 = Ok 0x1.07eae2f8151dp+0%float
    /\ (97 * 0x1.07eae2f8151dp+0 = 0x1.8ffffffffffffp+6)%float
    /\ _get_content_size get_text_width fuel (ImageBox a c) = Ok (99, 51)
    /\ _get_self_size get_text_width fuel (ImageBox a c) = Ok (100, 51).
Proof.
  do 2 eexists. split; [reflexivity|]. repeat split; vm_compute; reflexivity.
Qed.

(* ===================================================================== *)
(** ** Gradients: the end colors                                           *)
(* ===================================================================== *)

Import Gradient.

Definition channel_in_range (k : Z) : Prop := 0 <= k <= 255.

Definition color_in_range (c : Color) : Prop :=
  let '(r, g, b, a) := c in
  channel_in_range r /\ channel_in_range g /\ channel_in_range b /\ channel_in_range a.

(** A check of the 256 channel values. *)
Definition all_channels (f : Z -> bool) : bool := forallb f (range 256).

Lemma in_range n k : 0 <= k < n -> In k (range n).
Proof.
  intros Hk. unfold range. apply in_map_iff. exists (Z.to_nat k).
  split; [lia|]. apply in_seq. lia.
Qed.

Lemma all_channels_spec f :
  all_channels f = true -> forall k, channel_in_range k -> f k = true.
Proof.
  unfold all_channels, channel_in_range. intros H k Hk.
  rewrite forallb_forall in H. apply H, in_range. lia.
Qed.

(** Zero times a channel value is the float zero. *)
Lemma zero_times_channel k :
  channel_in_range k -> (0 * float_of_Z k = 0)%float.
Proof.
  intros Hk. apply Leibniz.eqb_spec.
  apply (all_channels_spec (fun k => Leibniz.eqb (0 * float_of_Z k) 0)%float);
    [|assumption].
  vm_compute. reflexivity.
Qed.

Lemma one_minus_one_times_channel k :
  channel_in_range k -> ((1 - 1) * float_of_Z k = 0)%float.
Proof.
  intros Hk. apply Leibniz.eqb_spec.
  apply (all_channels_spec (fun k => Leibniz.eqb ((1 - 1) * float_of_Z k) 0)%float);
    [|assumption].
  vm_compute. reflexivity.
Qed.



Lemma linear_blend_at_0 k1 k2 :
  channel_in_range k1 -> channel_in_range k2 -> Linear.blend 0 k1 k2 = k1.
Proof.
  intros H1 H2. unfold Linear.blend. rewrite (zero_times_channel k2 H2).
  apply Z.eqb_eq.
  apply (all_channels_spec
           (fun k => astype_uint8
                       (np_clip ((1 - 0) * float_of_Z k + 0) 0 255)%float =? k));
    [|assumption].
  vm_compute. reflexivity.
Qed.

Lemma Prim2SF_0 : Prim2SF 0 = S754_zero false.
Proof. reflexivity. Qed.

Lemma Prim2SF_1 : Prim2SF 1 = S754_finite false 4503599627370496 (-52).
Proof. reflexivity. Qed.




(** What [x <= sd], for a positive finite [x], says of the comparisons
    [np.clip] makes on [sd]. *)
Lemma SFleb_positive_finite m1 e1 sd :
  SFleb (S754_finite false m1 e1) sd = true ->
  SFeqb sd sd = true
  /\ SFltb (S754_zero false) sd = true
  /\ SFltb sd (S754_finite false m1 e1) = false.
Proof.
  intros H.
  destruct sd as [s|[|]| |[|] m e]; try discriminate H.
  - repeat split; reflexivity.
  - unfold SFleb, SFeqb, SFltb, SFcompare in *.
    rewrite Z.compare_refl.
    change (Pos.compare_cont Eq m m) with (Pos.compare m m).
    rewrite Pos.compare_refl.
    split; [reflexivity|]. split; [reflexivity|].
    rewrite (Z.compare_antisym e1 e).
    destruct (Z.compare e1 e) eqn:Ez; cbn [CompOpp]; try reflexivity.
    + change (Pos.compare_cont Eq m m1) with (Pos.compare m m1).
      change (Pos.compare_cont Eq m1 m) with (Pos.compare m1 m) in H.
      rewrite (Pos.compare_antisym m1 m).
      destruct (Pos.compare m1 m); cbn [CompOpp]; try reflexivity; discriminate H.
    + discriminate H.
Qed.

Lemma ge_one_comparisons d :
  (1 <=? d)%float = true ->
  (d =? d)%float = true /\ (0 <? d)%float = true /\ (d <? 1)%float = false.
Proof.
  rewrite leb_spec, eqb_spec, !ltb_spec, Prim2SF_0, Prim2SF_1.
  apply SFleb_positive_finite.
Qed.

Lemma np_clip_ge_one d : (1 <=? d)%float = true -> np_clip d 0 1 = 1%float.
Proof.
  intros H. destruct (ge_one_comparisons d H) as (Hnan & Hpos & Hlt).
  unfold np_clip, np_maximum, np_minimum, is_nan.
  rewrite Hnan. cbn [negb]. rewrite Hpos, Hnan. cbn [negb]. rewrite Hlt. reflexivity.
Qed.

Lemma nth_error_range n i :
  0 <= i < n -> nth_error (range n) (Z.to_nat i) = Some i.
Proof.
  intros Hi. unfold range. rewrite nth_error_map.
  rewrite (nth_error_nth' _ 0%nat) by (rewrite length_seq; lia).
  rewrite seq_nth by lia. cbn [option_map]. f_equal. lia.
Qed.

Lemma color_array_at pixel size x y :
  0 <= x < fst size -> 0 <= y < snd size ->
  array_at (color_array pixel size) x y = Some (pixel x y).
Proof.
  intros Hx Hy. unfold array_at, color_array.
  erewrite nth_error_nth;
    [|rewrite nth_error_map, (nth_error_range _ _ Hy); reflexivity].
  rewrite nth_error_map, (nth_error_range _ _ Hx). reflexivity.
Qed.


(** Red to blue around the center of a 4 by 4 array, radius 2. *)
Definition red_blue_radial : Radial.t :=
  {| Radial.c1 := (255, 0, 0, 255); Radial.c2 := (0, 0, 255, 255);
     Radial.center := (0.5, 0.5)%float; Radial.radius := 2%float |}.

(** Half way between the center and the radius the two colors mix. *)
Example red_blue_radial_half_way :
  array_at (Radial.get_colors red_blue_radial (4, 4)) 1 2 = Some (127, 0, 127, 255).
Proof. vm_compute. reflexivity. Qed.


(* ===================================================================== *)
(** ** The example of the specification, end to end                        *)
(* ===================================================================== *)

(** [Canvas(w=100, h=50)], content centered, around an [HSplit] with
    [sep=10] of two [Spacer(40, 20)]. *)
Definition hsplit_example : Widget :=
  HSplit Widget_init
    {| ratios := None; sep := 10;
       split_items := {| item_size_mode := Fixed; item_halign := HC; item_valign := VC |} |}
    [Spacer_init (Some 40) (Some 20); Spacer_init (Some 40) (Some 20)].

Definition canvas_example : Widget :=
  Frame (with_content_align
           (set_margin (set_size Widget_init (Some (Some 100, Some 50))) (inl 0)) HC VC)
    [hsplit_example].

Example hsplit_example_content :
  _get_content_size (mono_width 8) 0 hsplit_example = Ok (90, 20).
Proof. vm_compute. reflexivity. Qed.

Example canvas_example_content_pos :
  _get_content_pos (mono_width 8) 0 canvas_example = Ok (5, 15).
Proof. vm_compute. reflexivity. Qed.

Example canvas_example_img :
  get_img (mono_width 8) 0 canvas_example None
  = ([ImageNew RGBA (100, 50)], Ok {| im_mode := RGBA; im_size := (100, 50) |}).
Proof. vm_compute. reflexivity. Qed.

(* ===================================================================== *)
(** * More of the plotting module                                          *)
(* ===================================================================== *)

(** ** Region calls in a row                                               *)

(** One call that pushes a region. *)
Inductive RegionCall :=
| CallSetRegion (pos : Position) (sz : Size)
| CallShrinkRegion (dlt : Position)
| CallExpandRegion (dlt : Position)
| CallMoveRegion (dlt : Position) (sz : option Size).

Definition region_call (p : Painter.t) (call : RegionCall) : Painter.t :=
  match call with
  | CallSetRegion pos sz => Painter.set_region p pos sz
  | CallShrinkRegion dlt => Painter.shrink_region p dlt
  | CallExpandRegion dlt => Painter.expand_region p dlt
  | CallMoveRegion dlt sz => Painter.move_region p dlt sz
  end.

Definition region_calls (p : Painter.t) (calls : list RegionCall) : Painter.t :=
  fold_left region_call calls p.

Lemma restore_once_region_call p call :
  Painter.restore_once (region_call p call) = p.
Proof. destruct call; apply restore_once_set_region. Qed.

Lemma region_call_stack p call :
  Painter.region_stack (region_call p call)
  = (Painter.offset p, Painter.size p) :: Painter.region_stack p.
Proof. destruct call; reflexivity. Qed.

Lemma iter_restore_once_shift n p :
  Nat.iter (S n) Painter.restore_once p
  = Nat.iter n Painter.restore_once (Painter.restore_once p).
Proof.
  induction n as [|n IH]; [reflexivity|].
  change (Nat.iter (S (S n)) Painter.restore_once p)
    with (Painter.restore_once (Nat.iter (S n) Painter.restore_once p)).
  rewrite IH. reflexivity.
Qed.

Lemma restore_region_as_iter p depth :
  Painter.restore_region p depth = Nat.iter (Nat.max depth 1) Painter.restore_once p.
Proof.
  revert p. induction depth as [|[|d] IH]; intros p; try reflexivity.
  rewrite restore_region_S, IH.
  replace (Nat.max (S d) 1) with (S d) by lia.
  replace (Nat.max (S (S d)) 1) with (S (S d)) by lia.
  symmetry. apply iter_restore_once_shift.
Qed.

Lemma iter_restore_once_init n im :
  Nat.iter n Painter.restore_once (Painter.init im) = Painter.init im.
Proof.
  induction n as [|n IH]; [reflexivity|].
  rewrite iter_restore_once_shift. exact IH.
Qed.

(** [k] pops on a stack that holds at least [k] entries. *)
Lemma iter_restore_once_pops k : forall p o s,
  nth_error (Painter.region_stack p) k = Some (o, s) ->
  Nat.iter (S k) Painter.restore_once p
  = {| Painter.img := Painter.img p; Painter.offset := o; Painter.size := s;
       Painter.region_stack := skipn (S k) (Painter.region_stack p) |}.
Proof.
  induction k as [|k IH]; intros p o s H.
  - change (Nat.iter 1 Painter.restore_once p) with (Painter.restore_once p).
    unfold Painter.restore_once.
    destruct (Painter.region_stack p) as [|[o1 s1] rest]; [discriminate|].
    cbn in H. injection H as -> ->. reflexivity.
  - rewrite iter_restore_once_shift.
    destruct p as [im o0 s0 stk]. cbn [Painter.region_stack Painter.img] in *.
    destruct stk as [|[o1 s1] rest]; [discriminate|].
    cbn [nth_error] in H.
    rewrite (IH (Painter.restore_once
                   {| Painter.img := im; Painter.offset := o0; Painter.size := s0;
                      Painter.region_stack := (o1, s1) :: rest |}) o s H).
    reflexivity.
Qed.

(** X1. [restore_region(depth)] pops [max(depth, 1)] entries, so a depth
    of 0 still pops one: the region becomes the entry popped last when the
    stack holds that many, and the whole image, with an empty stack, when it
    holds fewer. *)
Theorem restore_region_pops_or_resets (p : Painter.t) (depth : nat) :
  let k := Nat.max depth 1 in
  (forall o s,
      nth_error (Painter.region_stack p) (k - 1) = Some (o, s) ->
      Painter.restore_region p depth
      = {| Painter.img := Painter.img p; Painter.offset := o; Painter.size := s;
           Painter.region_stack := skipn k (Painter.region_stack p) |})
  /\ ((length (Painter.region_stack p) < k)%nat ->
      Painter.restore_region p depth = Painter.init (Painter.img p)).
Proof.
  intros k. rewrite restore_region_as_iter. fold k.
  assert (Hk : exists k', k = S k') by (exists (k - 1)%nat; unfold k; lia).
  clearbody k. destruct Hk as [k' ->].
  replace (S k' - 1)%nat with k' by lia.
  split.
  - intros o s H. apply (iter_restore_once_pops k' p o s H).
  - intros Hlen. revert p Hlen.
    induction k' as [|k IH]; intros p Hlen.
    + destruct p as [im o s [|e stk]]; [reflexivity | cbn [length Painter.region_stack] in Hlen; lia].
    + rewrite iter_restore_once_shift.
      destruct p as [im o s stk]. cbn [Painter.region_stack Painter.img] in *.
      destruct stk as [|[o1 s1] rest].
      * apply (iter_restore_once_init (S k) im).
      * cbn [length] in Hlen.
        rewrite (IH (Painter.restore_once
                       {| Painter.img := im; Painter.offset := o; Painter.size := s;
                          Painter.region_stack := (o1, s1) :: rest |}))
          by (cbn; lia).
        reflexivity.
Qed.

(** X1, witness: popping two of three entries, and four of three. *)
Lemma restore_region_pops_or_resets_witness :
  let p := region_calls (Painter.init {| im_mode := RGBA; im_size := (100, 50) |})
             [CallMoveRegion (1, 2) None; CallShrinkRegion (3, 4);
              CallMoveRegion (5, 6) (Some (7, 8))] in
  Painter.restore_region p 2
  = region_calls (Painter.init {| im_mode := RGBA; im_size := (100, 50) |})
      [CallMoveRegion (1, 2) None]
  /\ Painter.restore_region p 4 = Painter.init {| im_mode := RGBA; im_size := (100, 50) |}.
Proof.
  cbv zeta.
  set (p := region_calls (Painter.init {| im_mode := RGBA; im_size := (100, 50) |})
              [CallMoveRegion (1, 2) None; CallShrinkRegion (3, 4);
               CallMoveRegion (5, 6) (Some (7, 8))]).
  split.
  - exact (proj1 (restore_region_pops_or_resets p 2) (1, 2) (100, 50) eq_refl).
  - refine (proj2 (restore_region_pops_or_resets p 4) _). cbn. lia.
Defined.

(** X2. Pushes and pops are last in, first out: after any calls that push
    a region ([set_region], [shrink_region], [expand_region], [move_region]),
    at least one, [restore_region] with their number gives the painter back
    as it was, image, offset, size and stack; each call pushed the region it
    found. *)
Theorem region_calls_then_restore (p : Painter.t) (calls : list RegionCall) :
  calls <> [] ->
  Painter.restore_region (region_calls p calls) (length calls) = p
  /\ length (Painter.region_stack (region_calls p calls))
     = (length calls + length (Painter.region_stack p))%nat.
Proof.
  intros Hne. rewrite restore_region_as_iter.
  replace (Nat.max (length calls) 1) with (length calls)
    by (destruct calls; [contradiction | cbn [length]; lia]).
  clear Hne. unfold region_calls. revert p.
  induction calls as [|call calls IH]; intros p; [split; reflexivity|].
  cbn [fold_left length]. destruct (IH (region_call p call)) as [Hr Hl]. split.
  - replace (Nat.iter (S (length calls)) Painter.restore_once
               (fold_left region_call calls (region_call p call)))
      with (Painter.restore_once
              (Nat.iter (length calls) Painter.restore_once
                 (fold_left region_call calls (region_call p call))))
      by reflexivity.
    rewrite Hr. apply restore_once_region_call.
  - rewrite Hl, region_call_stack. cbn [length]. lia.
Qed.

(** X2, witness: a move, a shrink and an absolute region, then three pops. *)
Lemma region_calls_then_restore_witness :
  Painter.restore_region
    (region_calls (Painter.init {| im_mode := RGBA; im_size := (100, 50) |})
       [CallMoveRegion (1, 2) None; CallShrinkRegion (3, 4);
        CallSetRegion (0, 0) (10, 10)]) 3
  = Painter.init {| im_mode := RGBA; im_size := (100, 50) |}.
Proof.
  exact (proj1 (region_calls_then_restore
                  (Painter.init {| im_mode := RGBA; im_size := (100, 50) |})
                  [CallMoveRegion (1, 2) None; CallShrinkRegion (3, 4);
                   CallSetRegion (0, 0) (10, 10)]
                  ltac:(discriminate))).
Defined.

(* ===================================================================== *)
(** ** Alignment tokens, both ways                                         *)
(* ===================================================================== *)

(** The items of the dict [ALIGN_MAP], in the order of the literal. *)
Definition ALIGN_MAP_items : list (string * (HAlign * VAlign)) :=
  [("c", (HC, VC)); ("l", (HL, VC)); ("r", (HR, VC)); ("t", (HC, VT)); ("b", (HC, VB));
   ("tl", (HL, VT)); ("tr", (HR, VT)); ("bl", (HL, VB)); ("br", (HR, VB));
   ("lt", (HL, VT)); ("lb", (HL, VB)); ("rt", (HR, VT)); ("rb", (HR, VB))]%string.

Definition halign_eqb (a b : HAlign) : bool :=
  match a, b with
  | HL, HL | HC, HC | HR, HR => true
  | _, _ => false
  end.

Definition valign_eqb (a b : VAlign) : bool :=
  match a, b with
  | VT, VT | VC, VC | VB, VB => true
  | _, _ => false
  end.

(** [Widget.get_content_align]: the first key of [ALIGN_MAP] whose value is
    the pair of content alignments. *)
Definition get_content_align (a : Attrs) : option string :=
  option_map fst
    (find (fun kv => halign_eqb (fst (snd kv)) (content_halign a)
                     && valign_eqb (snd (snd kv)) (content_valign a))
          ALIGN_MAP_items).

(** Exceptions beyond those of the layout: a missing dict key, a list
    index out of range, a method left to the subclasses, and a plain
    [raise Exception(...)]. *)
Inductive Exception :=
| Builtin (e : Error)
| KeyError
| IndexError
| NotImplementedError
| PlainException.

Inductive Try (A : Type) :=
| Return (a : A)
| Throw (e : Exception).
Arguments Return {A} a.
Arguments Throw {A} e.

Definition try_of {A} (r : Res A) : Try A :=
  match r with
  | Ok a => Return a
  | Raise e => Throw (Builtin e)
  end.

(** [crop_by_align]: the box [(x, y, x + cw, y + ch)]. *)
Definition crop_by_align (original_size crop_size : Size) (align : string)
    : Try (Z * Z * Z * Z) :=
  let '(ow, oh) := original_size in
  let '(cw, ch) := crop_size in
  if negb ((cw <=? ow) && (ch <=? oh)) then Throw (Builtin AssertionError)
  else
    match ALIGN_MAP align with
    | None => Throw KeyError
    | Some (xa, ya) =>
        let x := halign_pos xa ow cw in
        let y := valign_pos ya oh ch in
        Return (x, y, x + cw, y + ch)
    end.

(** The function [ALIGN_MAP] is the lookup in the items. *)
Lemma ALIGN_MAP_lookup (k : string) :
  ALIGN_MAP k
  = option_map snd (find (fun kv => String.eqb (fst kv) k) ALIGN_MAP_items).
Proof.
  unfold ALIGN_MAP, ALIGN_MAP_items. cbn [find fst snd].
  repeat match goal with
         | |- context [String.eqb ?lit k] => rewrite (String.eqb_sym lit k)
         end.
  repeat (match goal with
          | |- context [String.eqb k ?lit] => destruct (String.eqb k lit)
          end; [reflexivity|]).
  reflexivity.
Qed.

Lemma halign_pos_bounds a outer inner :
  inner <= outer ->
  0 <= halign_pos a outer inner /\ halign_pos a outer inner + inner <= outer.
Proof.
  intros H. destruct a; cbn [halign_pos]; try lia.
  pose proof (Z.div_pos (outer - inner) 2 ltac:(lia) ltac:(lia)).
  pose proof (Z.div_le_upper_bound (outer - inner) 2 (outer - inner) ltac:(lia) ltac:(lia)).
  lia.
Qed.

Lemma valign_pos_bounds a outer inner :
  inner <= outer ->
  0 <= valign_pos a outer inner /\ valign_pos a outer inner + inner <= outer.
Proof.
  intros H. destruct a; cbn [valign_pos]; try lia.
  pose proof (Z.div_pos (outer - inner) 2 ltac:(lia) ltac:(lia)).
  pose proof (Z.div_le_upper_bound (outer - inner) 2 (outer - inner) ltac:(lia) ltac:(lia)).
  lia.
Qed.

(** X3. [get_content_align] never returns [None]: for every widget it
    returns a token that [ALIGN_MAP] maps to the widget's content alignment,
    so setting it again changes nothing; and after [set_content_align(align)]
    it returns a token with the meaning of [align] (the first of the two
    spellings, so ['lt'] comes back as ['tl']). *)
Theorem get_content_align_inverts_set :
  (forall a,
      exists k,
        get_content_align a = Some k
        /\ ALIGN_MAP k = Some (content_halign a, content_valign a)
        /\ set_content_align a k = Ok a)
  /\ (forall a align a',
         set_content_align a align = Ok a' ->
         exists k, get_content_align a' = Some k /\ ALIGN_MAP k = ALIGN_MAP align)
  /\ (forall a a',
         set_content_align a "lt" = Ok a' -> get_content_align a' = Some "tl"%string).
Proof.
  assert (H1 : forall a,
             exists k,
               get_content_align a = Some k
               /\ ALIGN_MAP k = Some (content_halign a, content_valign a)
               /\ set_content_align a k = Ok a).
  { intros a. unfold get_content_align, set_content_align.
    destruct a as [ha va]. cbn [content_halign content_valign].
    destruct ha, va; eexists; (split; [reflexivity|]); split; reflexivity. }
  split; [exact H1|]. split.
  - intros a align a' H. unfold set_content_align in H.
    destruct (ALIGN_MAP align) as [[ha va]|] eqn:E; [|discriminate].
    injection H as <-. destruct (H1 (with_content_align a ha va)) as (k & Hk & Hm & _).
    exists k. split; [exact Hk|]. exact Hm.
  - intros a a' H. cbn in H. injection H as <-. reflexivity.
Qed.

(** X4. [crop_by_align] returns a box exactly when the crop size does not
    exceed the original size on either axis and the token is a key of
    [ALIGN_MAP]; the box has the crop size and lies inside the original. *)
Theorem crop_by_align_inside (ow oh cw ch : Z) (align : string) :
  (cw <= ow /\ ch <= oh /\ ALIGN_MAP align <> None <->
   exists box, crop_by_align (ow, oh) (cw, ch) align = Return box)
  /\ (forall x0 y0 x1 y1,
         crop_by_align (ow, oh) (cw, ch) align = Return (x0, y0, x1, y1) ->
         0 <= x0 /\ x1 <= ow /\ 0 <= y0 /\ y1 <= oh /\ x1 - x0 = cw /\ y1 - y0 = ch)
  /\ (ow < cw \/ oh < ch ->
      crop_by_align (ow, oh) (cw, ch) align = Throw (Builtin AssertionError)).
Proof.
  unfold crop_by_align.
  destruct (Z.leb_spec cw ow) as [Hw|Hw], (Z.leb_spec ch oh) as [Hh|Hh]; cbn [andb negb].
  - destruct (ALIGN_MAP align) as [[xa ya]|]; cbv zeta.
    + split; [split; [eauto | intros _; repeat split; [assumption..|discriminate]]|].
      split; [|lia].
      intros x0 y0 x1 y1 [= <- <- <- <-].
      pose proof (halign_pos_bounds xa ow cw Hw).
      pose proof (valign_pos_bounds ya oh ch Hh). lia.
    + split; [split; [intros (_ & _ & H); contradiction | intros [box H]; discriminate]|].
      split; [discriminate | lia].
  - split; [split; [lia | intros [box H]; discriminate]|]. split; [discriminate|reflexivity].
  - split; [split; [lia | intros [box H]; discriminate]|]. split; [discriminate|reflexivity].
  - split; [split; [lia | intros [box H]; discriminate]|]. split; [discriminate|reflexivity].
Qed.

(* ===================================================================== *)
(** ** Color codes                                                         *)
(* ===================================================================== *)

From Stdlib Require Import NArith.

Definition code_of (c : ascii) : Z := Z.of_N (N_of_ascii c).

(** The value of a digit in base 16, from [_PyLong_DigitValue]. *)
Definition hex_digit_value (c : ascii) : option Z :=
  let n := code_of c in
  if (48 <=? n) && (n <=? 57) then Some (n - 48)
  else if (97 <=? n) && (n <=? 102) then Some (n - 87)
  else if (65 <=? n) && (n <=? 70) then Some (n - 55)
  else None.

(** The white space [int] skips around a number: the ASCII blanks and, of
    the characters up to 255, the next-line and no-break space. *)
Definition is_int_space (c : ascii) : bool :=
  let n := code_of c in
  ((9 <=? n) && (n <=? 13)) || (n =? 32) || (n =? 133) || (n =? 160).

Fixpoint skip_int_space (s : str) : str :=
  match s with
  | c :: r => if is_int_space c then skip_int_space r else s
  | [] => []
  end.

Definition underscore : ascii := "_"%char.

(** The digits of a number in base 16, single underscores between digits
    allowed: the value, the number of digits and what follows; [None] on
    two underscores in a row or an underscore at the end. *)
Fixpoint scan_hex_digits (s : str) (prev_underscore : bool) (acc : Z) (digits : nat)
    : option (Z * nat * str) :=
  match s with
  | [] => if prev_underscore then None else Some (acc, digits, [])
  | c :: r =>
      if Ascii.eqb c underscore then
        if prev_underscore then None else scan_hex_digits r true acc digits
      else
        match hex_digit_value c with
        | Some v => scan_hex_digits r false (acc * 16 + v) (S digits)
        | None => if prev_underscore then None else Some (acc, digits, s)
        end
  end.

(** [int(s, 16)] on a string of characters up to 255. *)
Definition py_int16 (s : str) : Res Z :=
  let s := skip_int_space s in
  let '(negative, s) :=
    match s with
    | c :: r =>
        if Ascii.eqb c "+"%char then (false, r)
        else if Ascii.eqb c "-"%char then (true, r)
        else (false, s)
    | [] => (false, s)
    end in
  let s :=
    match s with
    | z :: x :: r =>
        if Ascii.eqb z "0"%char && (Ascii.eqb x "x"%char || Ascii.eqb x "X"%char) then
          match r with
          | u :: r' => if Ascii.eqb u underscore then r' else r
          | [] => r
          end
        else s
    | _ => s
    end in
  match s with
  | c :: _ =>
      if Ascii.eqb c underscore then Raise ValueError
      else
        match scan_hex_digits s false 0 0 with
        | Some (v, S _, rest) =>
            match skip_int_space rest with
            | [] => Ok (if negative then - v else v)
            | _ => Raise ValueError
            end
        | _ => Raise ValueError
        end
  | [] => Raise ValueError
  end.

(** The digit [d] of a lower-case hexadecimal number. *)
Definition hex_char (d : Z) : ascii :=
  ascii_of_N (Z.to_N (if d <? 10 then 48 + d else 87 + d)).

(** The lower-case hexadecimal digits of [n >= 0], before [acc]. *)
Equations? hex_digits (n : Z) (acc : str) : str by wf (Z.to_nat n) lt :=
hex_digits n acc with Z_lt_ge_dec n 16 := {
  | left _ => hex_char n :: acc
  | right _ => hex_digits (n / 16) (hex_char (n mod 16) :: acc) }.
Proof.
  assert (n / 16 < n) by (apply Z.div_lt; lia).
  assert (0 <= n / 16) by (apply Z.div_pos; lia).
  lia.
Qed.

(** The format [{z:02x}] of an int: at least two characters, the padding
    zero after the sign. *)
Definition format_02x (z : Z) : str :=
  if z <? 0 then "-"%char :: hex_digits (- z) []
  else
    match hex_digits z [] with
    | [c] => ["0"%char; c]
    | ds => ds
    end.

(** [rgb_to_color_code] *)
Definition rgb_to_color_code (rgb : Color) : str :=
  let '(r, g, b, _) := rgb in
  "#"%char :: format_02x r ++ format_02x g ++ format_02x b.

(** [color_code_to_rgb] *)
Definition color_code_to_rgb (code : str) : Res Color :=
  let code :=
    match code with
    | c :: r => if Ascii.eqb c "#"%char then r else code
    | [] => code
    end in
  match code with
  | [c0; c1; c2] =>
      r <- py_int16 [c0] ;; g <- py_int16 [c1] ;; b <- py_int16 [c2] ;;
      Ok (r * 16, g * 16, b * 16, 255)
  | [r0; r1; g0; g1; b0; b1] =>
      r <- py_int16 [r0; r1] ;; g <- py_int16 [g0; g1] ;; b <- py_int16 [b0; b1] ;;
      Ok (r, g, b, 255)
  | _ => Raise ValueError
  end.

(** The lower-case form the format gives a hexadecimal digit. *)
Definition lower_hex (c : ascii) : ascii :=
  match hex_digit_value c with
  | Some v => hex_char v
  | None => c
  end.

Definition all_ascii : list ascii := map (fun n => ascii_of_N (N.of_nat n)) (seq 0 256).

Lemma in_all_ascii (c : ascii) : In c all_ascii.
Proof.
  unfold all_ascii. apply in_map_iff. exists (N.to_nat (N_of_ascii c)).
  split.
  - rewrite N2Nat.id. apply ascii_N_embedding.
  - apply in_seq. pose proof (N_ascii_bounded c). lia.
Qed.

Definition res_is (r : Res Z) (v : Z) : bool :=
  match r with
  | Ok x => x =? v
  | Raise _ => false
  end.

Lemma res_is_true r v : res_is r v = true -> r = Ok v.
Proof. destruct r; cbn; [intros H; apply Z.eqb_eq in H; congruence | discriminate]. Qed.

Definition str_eqb (a b : str) : bool :=
  if list_eq_dec ascii_dec a b then true else false.

Lemma str_eqb_true a b : str_eqb a b = true -> a = b.
Proof. unfold str_eqb. destruct (list_eq_dec ascii_dec a b); [auto|discriminate]. Qed.

(** A channel value, formatted, is two digits that read back as the value. *)
Lemma format_02x_reads_back k :
  channel_in_range k ->
  exists d1 d2, format_02x k = [d1; d2] /\ py_int16 [d1; d2] = Ok k.
Proof.
  intros Hk.
  assert (H : match format_02x k with
              | [d1; d2] => res_is (py_int16 [d1; d2]) k
              | _ => false
              end = true).
  { apply (all_channels_spec
             (fun k => match format_02x k with
                       | [d1; d2] => res_is (py_int16 [d1; d2]) k
                       | _ => false
                       end)); [|assumption].
    vm_compute. reflexivity. }
  destruct (format_02x k) as [|d1 [|d2 [|]]]; try discriminate H.
  exists d1, d2. split; [reflexivity|]. apply res_is_true, H.
Qed.

(** Two hexadecimal digits read as a byte that formats back to them, in
    lower case. *)
Lemma hex_pair_formats_back c0 c1 v0 v1 :
  hex_digit_value c0 = Some v0 -> hex_digit_value c1 = Some v1 ->
  py_int16 [c0; c1] = Ok (16 * v0 + v1)
  /\ format_02x (16 * v0 + v1) = [lower_hex c0; lower_hex c1].
Proof.
  intros H0 H1.
  assert (H : forallb
                (fun a =>
                   forallb
                     (fun b =>
                        match hex_digit_value a, hex_digit_value b with
                        | Some x, Some y =>
                            res_is (py_int16 [a; b]) (16 * x + y)
                            && str_eqb (format_02x (16 * x + y)) [lower_hex a; lower_hex b]
                        | _, _ => true
                        end) all_ascii) all_ascii = true)
    by (vm_compute; reflexivity).
  rewrite forallb_forall in H. specialize (H c0 (in_all_ascii c0)).
  rewrite forallb_forall in H. specialize (H c1 (in_all_ascii c1)).
  rewrite H0, H1 in H. apply andb_true_iff in H. destruct H as [Ha Hb].
  split; [apply res_is_true, Ha | apply str_eqb_true, Hb].
Qed.

Lemma hex_single_reads c v :
  hex_digit_value c = Some v -> py_int16 [c] = Ok v /\ 0 <= v <= 15.
Proof.
  intros H0.
  assert (H : forallb
                (fun a =>
                   match hex_digit_value a with
                   | Some x => res_is (py_int16 [a]) x && (0 <=? x) && (x <=? 15)
                   | None => true
                   end) all_ascii = true)
    by (vm_compute; reflexivity).
  rewrite forallb_forall in H. specialize (H c (in_all_ascii c)).
  rewrite H0 in H. apply andb_true_iff in H. destruct H as [H Hc].
  apply andb_true_iff in H. destruct H as [Ha Hb].
  split; [apply res_is_true, Ha | lia].
Qed.

(** X5. A color with channels in 0..255 survives the trip through its
    code: [rgb_to_color_code] gives ['#'] and six digits, and
    [color_code_to_rgb] reads the three channels back, with the alpha 255. *)
Theorem color_code_round_trip (r g b a : Z) :
  channel_in_range r -> channel_in_range g -> channel_in_range b ->
  len (rgb_to_color_code (r, g, b, a)) = 7
  /\ color_code_to_rgb (rgb_to_color_code (r, g, b, a)) = Ok (r, g, b, 255).
Proof.
  intros Hr Hg Hb.
  destruct (format_02x_reads_back r Hr) as (r0 & r1 & Er & Ir).
  destruct (format_02x_reads_back g Hg) as (g0 & g1 & Eg & Ig).
  destruct (format_02x_reads_back b Hb) as (b0 & b1 & Eb & Ib).
  unfold rgb_to_color_code. rewrite Er, Eg, Eb. cbn [app].
  split; [reflexivity|].
  unfold color_code_to_rgb.
  change (Ascii.eqb "#" "#") with true. cbv iota.
  rewrite Ir, Ig, Ib. reflexivity.
Qed.

(** X5, witness: an orange. *)
Lemma color_code_round_trip_witness :
  rgb_to_color_code (255, 128, 0, 77) = list_ascii_of_string "#ff8000"
  /\ color_code_to_rgb (list_ascii_of_string "#ff8000") = Ok (255, 128, 0, 255).
Proof.
  pose proof (color_code_round_trip 255 128 0 77
                ltac:(unfold channel_in_range; lia)
                ltac:(unfold channel_in_range; lia)
                ltac:(unfold channel_in_range; lia)) as [_ H].
  split; [reflexivity|]. exact H.
Defined.

(** X6. Read from a code and written back, six hexadecimal digits come
    back in lower case, with or without the ['#'] in front; three digits
    are read as sixteen times each digit, so no short code gives a channel
    above 240: ['#fff'] is not white. *)
Theorem color_code_read_then_write (hash : bool) :
  (forall r0 r1 g0 g1 b0 b1 vr0 vr1 vg0 vg1 vb0 vb1,
      hex_digit_value r0 = Some vr0 -> hex_digit_value r1 = Some vr1 ->
      hex_digit_value g0 = Some vg0 -> hex_digit_value g1 = Some vg1 ->
      hex_digit_value b0 = Some vb0 -> hex_digit_value b1 = Some vb1 ->
      exists rgb,
        color_code_to_rgb
          ((if hash then ["#"%char] else []) ++ [r0; r1; g0; g1; b0; b1]) = Ok rgb
        /\ rgb_to_color_code rgb
           = "#"%char :: map lower_hex [r0; r1; g0; g1; b0; b1])
  /\ (forall c0 c1 c2 v0 v1 v2,
         hex_digit_value c0 = Some v0 -> hex_digit_value c1 = Some v1 ->
         hex_digit_value c2 = Some v2 ->
         color_code_to_rgb ((if hash then ["#"%char] else []) ++ [c0; c1; c2])
         = Ok (v0 * 16, v1 * 16, v2 * 16, 255)
         /\ v0 * 16 <= 240 /\ v1 * 16 <= 240 /\ v2 * 16 <= 240).
Proof.
  assert (Hnh : forall c v, hex_digit_value c = Some v -> Ascii.eqb c "#" = false).
  { intros c v H. destruct (Ascii.eqb_spec c "#"%char) as [->|]; [discriminate H|reflexivity]. }
  split.
  - intros r0 r1 g0 g1 b0 b1 vr0 vr1 vg0 vg1 vb0 vb1 Hr0 Hr1 Hg0 Hg1 Hb0 Hb1.
    destruct (hex_pair_formats_back r0 r1 vr0 vr1 Hr0 Hr1) as [Ir Fr].
    destruct (hex_pair_formats_back g0 g1 vg0 vg1 Hg0 Hg1) as [Ig Fg].
    destruct (hex_pair_formats_back b0 b1 vb0 vb1 Hb0 Hb1) as [Ib Fb].
    exists (16 * vr0 + vr1, 16 * vg0 + vg1, 16 * vb0 + vb1, 255). split.
    + unfold color_code_to_rgb. destruct hash; cbn [app].
      * change (Ascii.eqb "#" "#") with true. cbv iota. rewrite Ir, Ig, Ib. reflexivity.
      * rewrite (Hnh r0 vr0 Hr0). rewrite Ir, Ig, Ib. reflexivity.
    + unfold rgb_to_color_code. rewrite Fr, Fg, Fb. reflexivity.
  - intros c0 c1 c2 v0 v1 v2 H0 H1 H2.
    destruct (hex_single_reads c0 v0 H0) as [I0 B0].
    destruct (hex_single_reads c1 v1 H1) as [I1 B1].
    destruct (hex_single_reads c2 v2 H2) as [I2 B2].
    split; [|lia].
    unfold color_code_to_rgb. destruct hash; cbn [app].
    + change (Ascii.eqb "#" "#") with true. cbv iota. rewrite I0, I1, I2. reflexivity.
    + rewrite (Hnh c0 v0 H0). rewrite I0, I1, I2. reflexivity.
Qed.

(** X6, witness: an upper-case code and the short white. *)
Lemma color_code_read_then_write_witness :
  (exists rgb,
      color_code_to_rgb (list_ascii_of_string "#FF8000") = Ok rgb
      /\ rgb_to_color_code rgb = list_ascii_of_string "#ff8000")
  /\ color_code_to_rgb (list_ascii_of_string "#fff") = Ok (240, 240, 240, 255).
Proof.
  split.
  - exact (proj1 (color_code_read_then_write true)
             "F"%char "F"%char "8"%char "0"%char "0"%char "0"%char 15 15 8 0 0 0
             eq_refl eq_refl eq_refl eq_refl eq_refl eq_refl).
  - exact (proj1 (proj2 (color_code_read_then_write true)
                    "f"%char "f"%char "f"%char 15 15 15 eq_refl eq_refl eq_refl)).
Defined.

(* ===================================================================== *)
(** ** The size cache, the content position, the frame                     *)
(* ===================================================================== *)

(** X7. Once [_get_self_size] has returned a size with both extents
    non-zero, the widget keeps answering that size, whatever its content has
    become since, even a content that would now raise; a size with a zero
    extent is not kept, it is computed again on every call.  The call
    changes nothing of the widget but the two cached extents. *)
Theorem self_size_cache_is_sticky (a a' : Attrs) (content : Res Size) (cw ch : Z) :
  get_self_size_node a content = Ok ((cw, ch), a') ->
  (cw <> 0 /\ ch <> 0 ->
   forall content', get_self_size_node a' content' = Ok ((cw, ch), a'))
  /\ (cw = 0 \/ ch = 0 ->
      forall content', get_self_size_node a' content' = get_self_size_node a content')
  /\ (w a' = w a /\ h a' = h a
      /\ hpadding a' = hpadding a /\ vpadding a' = vpadding a
      /\ hmargin a' = hmargin a /\ vmargin a' = vmargin a
      /\ _calc_w a' = Some cw /\ _calc_h a' = Some ch).
Proof.
  intros H. unfold get_self_size_node in H.
  destruct (truthy (_calc_w a) && truthy (_calc_h a)) eqn:Ec.
  - destruct (_calc_w a) as [kw|] eqn:Ew, (_calc_h a) as [kh|] eqn:Eh; try discriminate.
    injection H as <- <- <-.
    apply andb_true_iff in Ec. destruct Ec as [Tw Th]. cbn [truthy] in Tw, Th.
    apply negb_true_iff, Z.eqb_neq in Tw. apply negb_true_iff, Z.eqb_neq in Th.
    split; [|split].
    + intros _ content'. unfold get_self_size_node. rewrite Ew, Eh. cbn [truthy].
      apply Z.eqb_neq in Tw, Th. rewrite Tw, Th. reflexivity.
    + intros [E|E]; contradiction.
    + repeat split; assumption.
  - inv_bind H. destruct x as [content_w content_h]. cbv zeta in H.
    destruct (_ || _) eqn:Ex in H; [discriminate|].
    injection H as <- <- <-.
    split; [|split].
    + intros [Hw Hh] content'. unfold get_self_size_node at 1.
      cbn [_calc_w _calc_h truthy].
      apply Z.eqb_neq in Hw, Hh. rewrite Hw, Hh. reflexivity.
    + intros Hz content'. unfold get_self_size_node.
      cbn [_calc_w _calc_h truthy w h hpadding vpadding hmargin vmargin
           content_halign content_valign offset offset_xanchor offset_yanchor draw_funcs].
      rewrite Ec.
      replace (negb (_ =? 0) && negb (_ =? 0)) with false; [reflexivity|].
      symmetry. apply andb_false_iff.
      destruct Hz as [Hz|Hz]; [left|right]; rewrite Hz; reflexivity.
    + repeat split.
Qed.

(** X7, witness: a box 100 wide measured around a content 40 wide keeps
    its size when the content grows to 500. *)
Lemma self_size_cache_is_sticky_witness :
  exists a',
    get_self_size_node (set_size Widget_init (Some (Some 100, None))) (Ok (40, 20))
    = Ok ((100, 20), a')
    /\ get_self_size_node a' (Ok (500, 20)) = Ok ((100, 20), a')
    /\ get_self_size_node (set_size Widget_init (Some (Some 100, None))) (Ok (500, 20))
       = Raise ValueError.
Proof.
  eexists. split; [reflexivity|]. split; [|reflexivity].
  refine (proj1 (self_size_cache_is_sticky
                   (set_size Widget_init (Some (Some 100, None))) _ (Ok (40, 20)) 100 20
                   eq_refl) _ (Ok (500, 20))).
  split; discriminate.
Defined.

Lemma Frame_content_size_from acc_w acc_h (rs : list (Res Size)) cw ch :
  fold_left
    (fun acc it =>
       '(sw, sh) <- acc ;;
       '(iw, ih) <- it ;;
       Ok (Z.max sw iw, Z.max sh ih))
    rs (Ok (acc_w, acc_h)) = Ok (cw, ch) ->
  acc_w <= cw /\ acc_h <= ch
  /\ Forall (fun r => exists iw ih, r = Ok (iw, ih) /\ iw <= cw /\ ih <= ch) rs
  /\ (cw = acc_w \/ Exists (fun r => exists ih, r = Ok (cw, ih)) rs)
  /\ (ch = acc_h \/ Exists (fun r => exists iw, r = Ok (iw, ch)) rs).
Proof.
  revert acc_w acc_h. induction rs as [|r rs IH]; intros acc_w acc_h H; cbn [fold_left] in H.
  - injection H as <- <-. repeat split; try lia; auto.
  - destruct r as [[iw ih]|e]; cbn [bind] in H.
    + destruct (IH _ _ H) as (Hw & Hh & Hall & Ew & Eh).
      split; [lia|]. split; [lia|]. split; [|split].
      * constructor; [|exact Hall]. exists iw, ih. repeat split; lia.
      * destruct Ew as [Ew|Ew]; [|right; apply Exists_cons_tl; exact Ew].
        destruct (Z.max_spec acc_w iw) as [[_ Em]|[_ Em]]; rewrite Em in Ew.
        -- right. apply Exists_cons_hd. exists ih. rewrite Ew. reflexivity.
        -- left. exact Ew.
      * destruct Eh as [Eh|Eh]; [|right; apply Exists_cons_tl; exact Eh].
        destruct (Z.max_spec acc_h ih) as [[_ Em]|[_ Em]]; rewrite Em in Eh.
        -- right. apply Exists_cons_hd. exists iw. rewrite Eh. reflexivity.
        -- left. exact Eh.
    + exfalso. clear IH. induction rs as [|r' rs IH']; cbn [fold_left bind] in H;
        [discriminate | auto].
Qed.

Section BoxResults.

Variable get_text_width : TextStyle.t -> str -> Z.
Variable fuel : nat.

Abbreviation self_size := (_get_self_size get_text_width fuel).
Abbreviation content_size := (_get_content_size get_text_width fuel).
Abbreviation content_pos := (_get_content_pos get_text_width fuel).

(** X8. On a widget with no populated cache that measures, the content is
    placed inside the box left by padding and margin, for each of the nine
    content alignments: it starts at or after the box origin and ends at or
    before the box end, on both axes. *)
Theorem content_placed_inside_box wd sw sh cw ch :
  truthy (_calc_w (attrs wd)) && truthy (_calc_h (attrs wd)) = false ->
  self_size wd = Ok (sw, sh) ->
  content_size wd = Ok (cw, ch) ->
  let a := attrs wd in
  let bw := sw - (hpadding a * 2 + hmargin a * 2) in
  let bh := sh - (vpadding a * 2 + vmargin a * 2) in
  exists cx cy,
    content_pos wd = Ok (cx, cy)
    /\ 0 <= cx /\ cx + cw <= bw /\ 0 <= cy /\ cy + ch <= bh.
Proof.
  intros Hc Hs Hcs a bw bh.
  unfold _get_content_pos. rewrite Hs, Hcs. cbn [bind]. fold a. fold bw. fold bh.
  do 2 eexists. split; [reflexivity|].
  rewrite self_size_unfold, (self_size_of_uncached _ _ Hc), Hcs in Hs.
  cbn [bind] in Hs. cbv zeta in Hs. fold a in Hs.
  destruct (Z.gtb_spec cw (match w a with Some w0 => w0 - hpadding a * 2 | None => cw end))
    as [|Hw]; [discriminate|].
  destruct (Z.gtb_spec ch (match h a with Some h0 => h0 - vpadding a * 2 | None => ch end))
    as [|Hh]; [discriminate|].
  cbn [orb] in Hs. injection Hs as Esw Esh.
  assert (Hbw : cw <= bw) by (unfold bw; lia).
  assert (Hbh : ch <= bh) by (unfold bh; lia).
  pose proof (halign_pos_bounds (content_halign a) bw cw Hbw).
  pose proof (valign_pos_bounds (content_valign a) bh ch Hbh).
  lia.
Qed.


End BoxResults.

(** X8, witness: the centered canvas of the end-to-end example. *)
Lemma content_placed_inside_box_witness :
  exists cx cy,
    _get_content_pos (mono_width 8) 0 canvas_example = Ok (cx, cy)
    /\ 0 <= cx /\ cx + 90 <= 100 - (0 * 2 + 0 * 2)
    /\ 0 <= cy /\ cy + 20 <= 50 - (0 * 2 + 0 * 2).
Proof.
  exact (content_placed_inside_box (mono_width 8) 0 canvas_example 100 50 90 20
           eq_refl eq_refl eq_refl).
Defined.


(* ===================================================================== *)
(** ** Grid cells and split slots                                          *)
(* ===================================================================== *)

Lemma ceil_div_bounds k n :
  0 < k -> 1 <= n ->
  0 < (n + k - 1) / k /\ n <= k * ((n + k - 1) / k) /\ k * ((n + k - 1) / k - 1) < n.
Proof.
  intros Hk Hn.
  pose proof (Z.div_mod (n + k - 1) k ltac:(lia)) as Hdm.
  pose proof (Z.mod_pos_bound (n + k - 1) k Hk) as Hm.
  assert (0 < (n + k - 1) / k) by (apply Z.div_str_pos; lia).
  nia.
Qed.

(** With a positive count, [grid_rc] returns the count and the ceiling of
    the number of items over it. *)
Lemma grid_rc_of_positive_count a c items :
  grid_count_positive (Grid a c items) -> items <> [] ->
  exists r cc,
    grid_rc c (len items) = Ok (r, cc)
    /\ 0 < r /\ 0 < cc /\ len items <= r * cc.
Proof.
  intros Hpos Hne.
  assert (Hn : 1 <= len items).
  { destruct items; [contradiction|]. unfold len. cbn [length]. lia. }
  cbn [grid_count_positive] in Hpos. unfold grid_rc.
  destruct (row_count c) as [r0|], (col_count c) as [c0|]; cbn [truthy].
  - destruct Hpos as [[-> Hc]|[-> Hr]].
    + replace (c0 =? 0) with false by (symmetry; apply Z.eqb_neq; lia).
      cbn. destruct (ceil_div_bounds c0 (len items) Hc Hn) as (? & ? & ?).
      do 2 eexists. split; [reflexivity|]. repeat split; lia.
    + replace (r0 =? 0) with false by (symmetry; apply Z.eqb_neq; lia).
      cbn. destruct (ceil_div_bounds r0 (len items) Hr Hn) as (? & ? & ?).
      do 2 eexists. split; [reflexivity|]. repeat split; lia.
  - replace (r0 =? 0) with false by (symmetry; apply Z.eqb_neq; lia).
    cbn. destruct (ceil_div_bounds r0 (len items) Hpos Hn) as (? & ? & ?).
    do 2 eexists. split; [reflexivity|]. repeat split; lia.
  - replace (c0 =? 0) with false by (symmetry; apply Z.eqb_neq; lia).
    cbn. destruct (ceil_div_bounds c0 (len items) Hpos Hn) as (? & ? & ?).
    do 2 eexists. split; [reflexivity|]. repeat split; lia.
  - contradiction.
Qed.

(** The count that is not given is the ceiling of the number of items over
    the one that is. *)
Lemma grid_rc_ceiling a c items r cc :
  grid_count_positive (Grid a c items) -> items <> [] ->
  grid_rc c (len items) = Ok (r, cc) ->
  (truthy (row_count c) = true /\ row_count c = Some r
   /\ cc = (len items + r - 1) / r /\ r * (cc - 1) < len items)
  \/ (truthy (row_count c) = false /\ col_count c = Some cc
      /\ r = (len items + cc - 1) / cc /\ cc * (r - 1) < len items).
Proof.
  intros Hpos Hne.
  assert (Hn : 1 <= len items).
  { destruct items; [contradiction|]. unfold len. cbn [length]. lia. }
  cbn [grid_count_positive] in Hpos. unfold grid_rc.
  destruct (row_count c) as [r0|], (col_count c) as [c0|]; cbn [truthy].
  - destruct Hpos as [[-> Hc]|[-> Hr]].
    + replace (c0 =? 0) with false by (symmetry; apply Z.eqb_neq; lia).
      cbn. intros [= <- <-].
      destruct (ceil_div_bounds c0 (len items) Hc Hn) as (? & ? & ?).
      right. repeat split; lia.
    + replace (r0 =? 0) with false by (symmetry; apply Z.eqb_neq; lia).
      cbn. intros [= <- <-].
      destruct (ceil_div_bounds r0 (len items) Hr Hn) as (? & ? & ?).
      left. repeat split; lia.
  - replace (r0 =? 0) with false by (symmetry; apply Z.eqb_neq; lia).
    cbn. intros [= <- <-].
    destruct (ceil_div_bounds r0 (len items) Hpos Hn) as (? & ? & ?).
    left. repeat split; lia.
  - replace (c0 =? 0) with false by (symmetry; apply Z.eqb_neq; lia).
    cbn. intros [= <- <-].
    destruct (ceil_div_bounds c0 (len items) Hpos Hn) as (? & ? & ?).
    right. repeat split; lia.
  - contradiction.
Qed.

(** X10. A [Grid] whose given count ([row_count] or [col_count]) is
    positive, with at least one item: the other count is the ceiling of the
    number of items over the given one, and the [r x c] cells are enough for
    the items.  In the loop of [_draw_content], whether [vertical] or not,
    the item at index [k], the items before it being drawn in place, is
    handed to its [draw] on the region set for it in the cell of a row [i]
    below [r] and a column [j] below [c], at [(j * (gw + hsep),
    i * (gh + vsep))]; [k] is [i * c + j], or [j * r + i] when [vertical], so
    that no two items go to the same cell. *)
Theorem grid_cells_in_range_and_distinct (get_text_width : TextStyle.t -> str -> Z)
    (fuel : nat) (a : Attrs) (c : GridCfg) (items : list Widget) :
  grid_count_positive (Grid a c items) -> items <> [] ->
  let n := len items in
  exists r cc,
    grid_rc c n = Ok (r, cc)
    /\ 0 < r /\ 0 < cc /\ n <= r * cc
    /\ ((truthy (row_count c) = true /\ row_count c = Some r
         /\ cc = (n + r - 1) / r /\ r * (cc - 1) < n)
        \/ (truthy (row_count c) = false /\ col_count c = Some cc
            /\ r = (n + cc - 1) / cc /\ cc * (r - 1) < n))
    /\ (forall (draw_item : Widget -> Painter.t -> Res Painter.t) gw gh p
               before item after iw ih,
          items = before ++ item :: after ->
          Forall (item_in_place get_text_width fuel draw_item) before ->
          _get_self_size get_text_width fuel item = Ok (iw, ih) ->
          exists i j,
            0 <= i < r /\ 0 <= j < cc
            /\ len before = (if vertical c then j * r + i else i * cc + j)
            /\ Grid_draw_items get_text_width draw_item fuel c r cc gw gh items 0 p
               = (p' <- draw_item item
                          (Painter.move_region
                             (Painter.move_region p
                                (j * (gw + hsep c), i * (gh + vsep c)) (Some (gw, gh)))
                             (halign_pos (item_halign (grid_items c)) gw iw,
                              valign_pos (item_valign (grid_items c)) gh ih)
                             (Some (iw, ih))) ;;
                  Grid_draw_items get_text_width draw_item fuel c r cc gw gh after
                    (len before + 1) (Painter.restore_region p' 2))).
Proof.
  intros Hpos Hne n.
  destruct (grid_rc_of_positive_count a c items Hpos Hne) as (r & cc & Hrc & Hr & Hc & Hn).
  exists r, cc. split; [exact Hrc|]. repeat (split; [assumption|]). split.
  - exact (grid_rc_ceiling a c items r cc Hpos Hne Hrc).
  - intros draw_item gw gh p before item after iw ih Hitems Hbefore Hitem.
    assert (Hk : 0 <= len before < n)
      by (unfold n; rewrite Hitems; apply len_app_cons).
    destruct (grid_index_in_range (vertical c) r cc n (len before) Hr Hc Hn Hk)
      as (Hi & Hj & Hidx).
    eexists. eexists. split; [exact Hi|]. split; [exact Hj|]. split; [exact Hidx|].
    rewrite Hitems.
    rewrite (Grid_draw_items_at get_text_width fuel draw_item c r cc gw gh
               ltac:(lia) ltac:(lia) before item after iw ih 0 p Hbefore Hitem).
    cbv zeta. rewrite Z.add_0_l. reflexivity.
Qed.

(** Five spacers in two rows, filled column by column. *)
Definition five_in_two_rows_cfg : GridCfg :=
  {| row_count := Some 2; col_count := None; hsep := 8; vsep := 8;
     vertical := true;
     grid_items := {| item_size_mode := Fixed; item_halign := HC;
                      item_valign := VC |} |}.

(** X10, witness: five items in two rows make three columns, and the item
    of index 3 goes to a cell inside the grid (row 1, column 1). *)
Lemma grid_cells_in_range_and_distinct_witness :
  exists r cc,
    grid_rc five_in_two_rows_cfg 5 = Ok (r, cc)
    /\ 0 < r /\ 0 < cc /\ 5 <= r * cc
    /\ exists i j, 0 <= i < r /\ 0 <= j < cc /\ 3 = j * r + i.
Proof.
  destruct (grid_cells_in_range_and_distinct (mono_width 8) 0 Widget_init
              five_in_two_rows_cfg (repeat ten_by_ten 5)
              ltac:(cbn; lia) ltac:(discriminate))
    as (r & cc & Hrc & Hr & Hc & Hn & _ & Hdraw).
  exists r, cc. repeat (split; [assumption|]).
  destruct (Hdraw (fun _ q => Ok q) 10 10
              (Painter.init {| im_mode := RGBA; im_size := (46, 28) |})
              (repeat ten_by_ten 3) ten_by_ten [ten_by_ten] 10 10 eq_refl)
    as (i & j & Hi & Hj & Hidx & _).
  - repeat constructor; exists (10, 10); (split; [reflexivity|]); intros q _; reflexivity.
  - reflexivity.
  - exists i, j. split; [exact Hi|]. split; [exact Hj|]. exact Hidx.
Defined.

Lemma fold_max_bounds (xs : list Z) (x0 : Z) :
  x0 <= fold_left Z.max xs x0
  /\ Forall (fun x => x <= fold_left Z.max xs x0) xs
  /\ (fold_left Z.max xs x0 = x0 \/ In (fold_left Z.max xs x0) xs).
Proof.
  revert x0. induction xs as [|x xs IH]; intros x0; cbn [fold_left].
  - split; [lia|]. split; [constructor | left; reflexivity].
  - destruct (IH (Z.max x0 x)) as (H0 & Hall & Hin).
    split; [lia|]. split; [constructor; [lia | exact Hall]|].
    destruct Hin as [Hin|Hin]; [|right; right; exact Hin].
    destruct (Z.max_spec x0 x) as [[_ E]|[_ E]].
    + right. left. rewrite Hin. symmetry. exact E.
    + left. rewrite Hin. exact E.
Qed.

Lemma py_max_list_bounds xs m :
  py_max_list xs = Ok m -> Forall (fun x => x <= m) xs /\ In m xs.
Proof.
  destruct xs as [|x xs]; [discriminate|]. cbn [py_max_list]. intros [= <-].
  destruct (fold_max_bounds xs x) as (H0 & Hall & Hin).
  split; [constructor; assumption|].
  destruct Hin as [Hin|Hin]; [left; symmetry; exact Hin | right; exact Hin].
Qed.

Lemma sequence_Ok {A} (cs : list (Res A)) (xs : list A) :
  sequence cs = Ok xs -> cs = map Ok xs.
Proof.
  revert xs. induction cs as [|c cs IH]; intros xs H; cbn [sequence] in H.
  - injection H as <-. reflexivity.
  - inv_bind H. inv_bind H. injection H as <-. cbn [map]. rewrite (IH _ Hx0), Hx. reflexivity.
Qed.

Lemma scaled_extents_length rs (item_sizes : list (Res Size)) unit es :
  scaled_extents rs item_sizes unit = Ok es ->
  length es = Nat.min (length rs) (length item_sizes).
Proof.
  revert item_sizes es. induction rs as [|r rs IH]; intros [|it its] es H;
    cbn [scaled_extents] in H; try (injection H as <-; reflexivity).
  inv_bind H. inv_bind H. injection H as <-. cbn [length]. rewrite (IH _ _ Hx0). lia.
Qed.

Section GridAndSplitResults.

Variable get_text_width : TextStyle.t -> str -> Z.
Variable fuel : nat.

Abbreviation self_size := (_get_self_size get_text_width fuel).
Abbreviation content_size := (_get_content_size get_text_width fuel).

(** X11. A [Grid] in fixed mode with separators that are not negative:
    the cell is as wide as the widest item and as high as the highest, so
    every item measures and lies inside its cell wherever [item_align] puts
    it; and every cell of the [r x c] grid lies inside the content box. *)
Theorem grid_fixed_cells_hold_items a c items r cc gw gh :
  item_size_mode (grid_items c) = Fixed ->
  Grid_get_grid_rc_and_size a c (map self_size items) = Ok ((r, cc), (gw, gh)) ->
  0 <= hsep c -> 0 <= vsep c ->
  content_size (Grid a c items)
  = Ok (cc * gw + hsep c * (cc - 1), r * gh + vsep c * (r - 1))
  /\ 0 <= gw /\ 0 <= gh
  /\ Forall (fun it =>
               exists iw ih,
                 self_size it = Ok (iw, ih)
                 /\ 0 <= halign_pos (item_halign (grid_items c)) gw iw
                 /\ halign_pos (item_halign (grid_items c)) gw iw + iw <= gw
                 /\ 0 <= valign_pos (item_valign (grid_items c)) gh ih
                 /\ valign_pos (item_valign (grid_items c)) gh ih + ih <= gh) items
  /\ (forall i j,
         0 <= i < r -> 0 <= j < cc ->
         0 <= j * (gw + hsep c)
         /\ j * (gw + hsep c) + gw <= cc * gw + hsep c * (cc - 1)
         /\ 0 <= i * (gh + vsep c)
         /\ i * (gh + vsep c) + gh <= r * gh + vsep c * (r - 1)).
Proof.
  intros Hmode H Hh Hv.
  split.
  { unfold _get_content_size. cbn [content_size_with]. unfold Grid_content_size.
    rewrite H. reflexivity. }
  unfold Grid_get_grid_rc_and_size in H. inv_bind H. destruct x as [r1 c1].
  rewrite Hmode in H. inv_bind H. destruct x as [gw' gh'].
  injection H as -> -> -> ->.
  unfold Frame_content_size in Hx0.
  destruct (Frame_content_size_from 0 0 _ gw gh Hx0) as (Hw & Hg & Hall & _ & _).
  split; [exact Hw|]. split; [exact Hg|]. split.
  - rewrite Forall_map in Hall. eapply Forall_impl; [|exact Hall].
    intros it (iw & ih & Hs & Hiw & Hih). exists iw, ih.
    pose proof (halign_pos_bounds (item_halign (grid_items c)) gw iw Hiw).
    pose proof (valign_pos_bounds (item_valign (grid_items c)) gh ih Hih).
    repeat split; try assumption; lia.
  - intros i j Hi Hj. repeat split; nia.
Qed.

(** The loop over [zip(self.items, sizes)] stops with the shorter list. *)
Lemma HSplit_draw_items_zip draw_item c items sizes cur_x p :
  HSplit_draw_items get_text_width draw_item fuel c items sizes cur_x p
  = HSplit_draw_items get_text_width draw_item fuel c
      (firstn (length sizes) items) sizes cur_x p.
Proof.
  revert sizes cur_x p.
  induction items as [|it its IH]; intros [|[sw sh] sl] cur_x p;
    cbn [length firstn HSplit_draw_items]; try reflexivity.
  destruct (self_size it) as [[iw ih]|]; cbn [bind]; [|reflexivity].
  cbv zeta. destruct (draw_item it _); cbn [bind]; [|reflexivity].
  apply IH.
Qed.

(** X12. The slots of an [HSplit]: there are as many as the shorter of the
    ratios and the items (as many as items when no ratios are given), they
    all have the height of the highest item, which every item fits; and
    [_draw_content] draws the items that have a slot only: with fewer ratios
    than items the items past the last ratio are left out. *)
Theorem hsplit_slots a c items slots :
  HSplit_get_item_sizes a c (map self_size items) = Ok slots ->
  length slots
  = match ratios c with
    | Some (r :: rs) => Nat.min (S (length rs)) (length items)
    | _ => length items
    end
  /\ (exists hmax,
         Forall (fun s => snd s = hmax) slots
         /\ Forall (fun it => exists iw ih, self_size it = Ok (iw, ih) /\ ih <= hmax) items
         /\ Exists (fun it => exists iw, self_size it = Ok (iw, hmax)) items)
  /\ (forall draw_item cur_x p,
         HSplit_draw_items get_text_width draw_item fuel c items slots cur_x p
         = HSplit_draw_items get_text_width draw_item fuel c
             (firstn (length slots) items) slots cur_x p).
Proof.
  intros H. unfold HSplit_get_item_sizes in H.
  apply bind_Ok in H. destruct H as ([es cr] & Hsplit & H). injection H as <-.
  unfold split_item_sizes in Hsplit.
  apply bind_Ok in Hsplit. destruct Hsplit as (rs & Hrs & Hsplit).
  apply bind_Ok in Hsplit. destruct Hsplit as (unit & _ & Hsplit).
  apply bind_Ok in Hsplit. destruct Hsplit as (szs & Hseq & Hsplit).
  apply bind_Ok in Hsplit. destruct Hsplit as (cr' & Hmax & Hsplit).
  apply bind_Ok in Hsplit. destruct Hsplit as (es' & Hes & Hsplit).
  injection Hsplit as -> ->.
  pose proof (scaled_extents_length _ _ _ _ Hes) as Hlen.
  rewrite length_map in Hlen.
  pose proof (sequence_Ok _ _ Hseq) as Hmap.
  assert (Hszs : length szs = length items).
  { apply (f_equal (@length _)) in Hmap. rewrite !length_map in Hmap. lia. }
  split; [|split].
  - rewrite length_map, Hlen. destruct (ratios c) as [[|r0 rs0]|].
    + rewrite Hseq in Hrs. injection Hrs as <-. rewrite length_map. lia.
    + injection Hrs as <-. reflexivity.
    + rewrite Hseq in Hrs. injection Hrs as <-. rewrite length_map. lia.
  - exists cr. destruct (py_max_list_bounds _ _ Hmax) as [Hall Hin].
    split; [|split].
    + apply Forall_forall. intros s Hs. apply in_map_iff in Hs.
      destruct Hs as (e & <- & _). reflexivity.
    + apply Forall_forall. intros it Hit.
      assert (Hi : In (self_size it) (map Ok szs))
        by (rewrite <- Hmap; apply in_map; exact Hit).
      apply in_map_iff in Hi. destruct Hi as ([iw ih] & Es & Hsz).
      exists iw, ih. split; [symmetry; exact Es|].
      rewrite Forall_forall in Hall. apply (Hall ih).
      apply in_map_iff. exists (iw, ih). split; [reflexivity | exact Hsz].
    + apply in_map_iff in Hin. destruct Hin as ([iw ih] & Eh & Hsz). cbn [snd] in Eh. subst ih.
      apply Exists_exists.
      assert (Hi : In (Ok (iw, cr)) (map self_size items))
        by (rewrite Hmap; apply in_map; exact Hsz).
      apply in_map_iff in Hi. destruct Hi as (it & Es & Hit).
      exists it. split; [exact Hit|]. exists iw. exact Es.
  - intros draw_item cur_x p. apply HSplit_draw_items_zip.
Qed.

End GridAndSplitResults.

(** X11, witness: two spacers in a grid of two columns. *)
Lemma grid_fixed_cells_hold_items_witness :
  _get_content_size (mono_width 8) 0
    (Grid Widget_init
       {| row_count := None; col_count := Some 2; hsep := 8; vsep := 8; vertical := false;
          grid_items := {| item_size_mode := Fixed; item_halign := HC; item_valign := VC |} |}
       [Spacer_init (Some 40) (Some 10); Spacer_init (Some 30) (Some 20)])
  = Ok (2 * 40 + 8 * (2 - 1), 1 * 20 + 8 * (1 - 1)).
Proof.
  exact (proj1 (grid_fixed_cells_hold_items (mono_width 8) 0 Widget_init
                  {| row_count := None; col_count := Some 2; hsep := 8; vsep := 8;
                     vertical := false;
                     grid_items := {| item_size_mode := Fixed; item_halign := HC;
                                      item_valign := VC |} |}
                  [Spacer_init (Some 40) (Some 10); Spacer_init (Some 30) (Some 20)]
                  1 2 40 20 eq_refl eq_refl ltac:(cbn; lia) ltac:(cbn; lia))).
Defined.

(** X12, witness: three spacers and two ratios make two slots. *)
Lemma hsplit_slots_witness :
  length [(40, 20); (40, 20)]
  = match ratios {| ratios := Some [1; 1]; sep := 10;
                    split_items := {| item_size_mode := Fixed; item_halign := HC;
                                      item_valign := VC |} |} with
    | Some (r :: rs) => Nat.min (S (length rs)) 3
    | _ => 3%nat
    end.
Proof.
  exact (proj1 (hsplit_slots (mono_width 8) 0 Widget_init
                  {| ratios := Some [1; 1]; sep := 10;
                     split_items := {| item_size_mode := Fixed; item_halign := HC;
                                       item_valign := VC |} |}
                  [Spacer_init (Some 40) (Some 20); Spacer_init (Some 40) (Some 20);
                   Spacer_init (Some 40) (Some 20)]
                  [(40, 20); (40, 20)] eq_refl)).
Defined.

(* ===================================================================== *)
(** ** More of the text box                                                *)
(* ===================================================================== *)

Section MoreTextResults.

Variable get_text_width : TextStyle.t -> str -> Z.

Abbreviation width_of := get_text_width.
Abbreviation search := (clip_search get_text_width).
Abbreviation clip_idx := (_get_clip_text_to_width_idx get_text_width).

(** When the suffix alone fits and no prefix of one character or more
    does, the search returns 0. *)
Lemma clip_search_zero st txt suffix width l r :
  width_of st suffix <= width ->
  (forall k, 1 <= k <= len txt -> width < width_of st (py_slice_to txt k ++ suffix)) ->
  0 <= l <= 1 -> 0 <= r <= len txt ->
  search st txt suffix width l r = 0.
Proof.
  funelim (clip_search get_text_width st txt suffix width l r);
    intros Hsuf Hwide Hl Hr; cbv zeta in *.
  - assert (Hm1 : l <= (l + r) / 2) by (apply Z.div_le_lower_bound; lia).
    assert (Hm2 : (l + r) / 2 <= r) by (apply Z.div_le_upper_bound; lia).
    set (m := (l + r) / 2) in *.
    destruct (Z.eq_dec m 0) as [Hm0|Hm0].
    + rewrite Hm0 in *. rewrite py_slice_to_0. cbn [app].
      destruct (Z.ltb_spec (get_text_width st suffix) width) as [Hlt|Hge].
      * apply H; try assumption; lia.
      * destruct (Z.gtb_spec (get_text_width st suffix) width) as [Hgt|Hle]; [lia|reflexivity].
    + pose proof (Hwide m ltac:(lia)) as Hw.
      destruct (Z.ltb_spec (get_text_width st (py_slice_to txt m ++ suffix)) width)
        as [Hlt|Hge]; [lia|].
      destruct (Z.gtb_spec (get_text_width st (py_slice_to txt m ++ suffix)) width)
        as [Hgt|Hle]; [|lia].
      apply H0; try assumption; lia.
  - lia.
Qed.

Lemma clip_idx_zero st txt width :
  txt <> [] ->
  width_of st [] <= width ->
  (forall k, 1 <= k <= len txt -> width < width_of st (py_slice_to txt k)) ->
  clip_idx st txt width [] = Some 0.
Proof.
  intros Hne Hempty Hwide. unfold _get_clip_text_to_width_idx.
  assert (Hlen : 1 <= len txt) by (destruct txt; [contradiction | unfold len; cbn [length]; lia]).
  rewrite app_nil_r.
  pose proof (Hwide (len txt) ltac:(lia)) as Hall.
  rewrite (py_slice_to_full txt (len txt)) in Hall by lia.
  replace (get_text_width st txt <=? width) with false by (symmetry; apply Z.leb_gt; exact Hall).
  f_equal. apply clip_search_zero; try assumption; try lia.
  intros k Hk. rewrite app_nil_r. apply Hwide. exact Hk.
Qed.

(** X13. What [_get_clip_text_to_width_idx] returns, for every font metric:
    [None] exactly when the text with the suffix fits the width; else an
    index between -1 and the length of the text that is tight (its prefix
    with the suffix fills the width exactly, or one more character would
    not fit), not negative when the suffix alone fits, and then the prefix
    with the suffix fits the width. *)
Theorem clip_idx_is_tight st txt width suffix :
  match clip_idx st txt width suffix with
  | None => width_of st (txt ++ suffix) <= width
  | Some k =>
      width < width_of st (txt ++ suffix)
      /\ -1 <= k <= len txt
      /\ (width_of st (py_slice_to txt k ++ suffix) = width
          \/ width < width_of st (py_slice_to txt (k + 1) ++ suffix))
      /\ (width_of st suffix <= width ->
          0 <= k /\ width_of st (py_slice_to txt k ++ suffix) <= width)
  end.
Proof.
  pose proof (clip_idx_fits get_text_width st txt width suffix) as Hfits.
  unfold _get_clip_text_to_width_idx in *.
  destruct (Z.leb_spec (get_text_width st (txt ++ suffix)) width) as [Hle|Hgt];
    [exact Hle|].
  pose proof (len_nonneg txt) as Hlen.
  split; [exact Hgt|]. split; [|split].
  - pose proof (clip_search_bounds get_text_width st txt suffix width 0 (len txt)
                  ltac:(lia)). lia.
  - apply clip_search_tight.
    rewrite (py_slice_to_full txt (len txt + 1)) by lia. exact Hgt.
  - intros Hsuf. destruct (Hfits Hsuf) as (_ & Hk & Hfit). split; [lia | exact Hfit].
Qed.

(** The wrapping loop started below the line limit: it exits within as
    many rounds as lines are left, having added at least one line and not
    passed the limit; and when nothing is appended to a line (overflow
    'clip'), the added lines are consecutive pieces of the paragraph. *)
Lemma wrap_loop_returns fuel c width suffix line cl :
  len cl < line_count c ->
  (Z.to_nat (line_count c - len cl) <= fuel)%nat ->
  exists pieces,
    wrap_loop get_text_width fuel c width suffix line cl = Ok (cl ++ pieces)
    /\ 1 <= len pieces
    /\ len cl + len pieces <= line_count c
    /\ (suffix = [] ->
        exists rest,
          concat pieces ++ rest = line
          /\ (rest = [] \/ len cl + len pieces = line_count c)).
Proof.
  revert line cl. induction fuel as [|fuel IH]; intros line cl Hlt Hfuel; [lia|].
  cbn [wrap_loop].
  set (line_suffix := if len cl =? line_count c - 1 then suffix else []).
  destruct (_get_clip_text_to_width_idx get_text_width (style c) line width line_suffix)
    as [k|].
  - rewrite len_app_one.
    destruct (Z.eqb_spec (len cl + 1) (line_count c)) as [Heq|Hneq].
    + exists [py_slice_to line k ++ line_suffix].
      split; [reflexivity|]. change (len [py_slice_to line k ++ line_suffix]) with 1.
      split; [lia|]. split; [lia|].
      intros Hs. exists (py_slice_from line k). split; [|right; lia].
      assert (Hl : line_suffix = []) by (unfold line_suffix; destruct (_ =? _); auto).
      rewrite Hl. cbn [concat]. rewrite !app_nil_r. apply py_slice_split.
    + destruct (IH (py_slice_from line k) (cl ++ [py_slice_to line k ++ line_suffix]))
        as (pieces & Hrun & Hp1 & Hp2 & Hcat).
      * rewrite len_app_one. lia.
      * rewrite len_app_one. lia.
      * exists ((py_slice_to line k ++ line_suffix) :: pieces).
        rewrite len_app_one in Hp2.
        assert (Hlen : len ((py_slice_to line k ++ line_suffix) :: pieces) = 1 + len pieces)
          by (unfold len; change (length (?x :: pieces)) with (S (length pieces)); lia).
        split; [rewrite Hrun, <- app_assoc; reflexivity|].
        change (@len str ((py_slice_to line k ++ line_suffix) :: pieces))
          with (len ((py_slice_to line k ++ line_suffix) :: pieces)).
        rewrite Hlen. split; [lia|]. split; [lia|].
        intros Hs. destruct (Hcat Hs) as (rest & Hrest & Hend).
        rewrite len_app_one in Hend.
        exists rest. split; [|destruct Hend; [left; assumption | right; lia]].
        assert (Hl : line_suffix = []) by (unfold line_suffix; destruct (_ =? _); auto).
        rewrite Hl. cbn [concat]. rewrite app_nil_r, <- app_assoc, Hrest.
        apply py_slice_split.
  - exists [line]. split; [reflexivity|]. change (len [line]) with 1.
    split; [lia|]. split; [lia|].
    intros _. exists []. split; [|left; reflexivity].
    cbn [concat]. rewrite !app_nil_r. reflexivity.
Qed.

(** The loop with the limit already reached and a search that cuts at 0:
    every round appends an empty line and keeps the paragraph. *)
Lemma wrap_loop_no_exit fuel c width suffix line cl :
  line_count c <= len cl ->
  clip_idx (style c) line width [] = Some 0 ->
  wrap_loop get_text_width fuel c width suffix line cl = Raise Diverges.
Proof.
  revert cl. induction fuel as [|fuel IH]; intros cl Hlim Hcut; [reflexivity|].
  cbn [wrap_loop].
  replace (len cl =? line_count c - 1) with false by (symmetry; apply Z.eqb_neq; lia).
  rewrite Hcut, len_app_one.
  replace (len cl + 1 =? line_count c) with false by (symmetry; apply Z.eqb_neq; lia).
  change (py_slice_from line 0) with line.
  apply IH; [rewrite len_app_one; lia | exact Hcut].
Qed.

(** The line of one paragraph in a box that does not wrap: the paragraph
    when it fits with the suffix, else a prefix with the suffix that fits. *)
Definition clipped_from (st : TextStyle.t) (width : Z) (suffix para l : str) : Prop :=
  (l = para /\ width_of st (para ++ suffix) <= width)
  \/ (width < width_of st (para ++ suffix)
      /\ width_of st l <= width
      /\ exists k, 0 <= k <= len para /\ l = py_slice_to para k ++ suffix).

Lemma nowrap_fold fuel a c w0 paras acc :
  w a = Some w0 -> w0 <> 0 -> wrap c = false ->
  let width := w0 - hpadding a * 2 in
  let suffix := match overflow c with Shrink => ellipsis | Clip => [] end in
  width_of (style c) suffix <= width ->
  exists ls,
    Forall2 (clipped_from (style c) width suffix) paras ls
    /\ fold_left (fun r line => cl <- r ;; get_lines_step get_text_width fuel a c cl line)
         paras (Ok acc)
       = Ok (acc ++ ls).
Proof.
  intros Hw Hw0 Hwrap width suffix Hsuf. revert acc.
  induction paras as [|para paras IH]; intros acc.
  - exists []. split; [constructor|]. cbn [fold_left]. rewrite app_nil_r. reflexivity.
  - cbn [fold_left bind]. unfold get_lines_step at 2. rewrite Hw. cbn [truthy].
    replace (w0 =? 0) with false by (symmetry; apply Z.eqb_neq; exact Hw0).
    cbn [negb]. rewrite Hwrap. fold width. fold suffix.
    pose proof (clip_idx_fits get_text_width (style c) para width suffix Hsuf) as Hfit.
    destruct (_get_clip_text_to_width_idx get_text_width (style c) para width suffix) as [k|].
    + destruct Hfit as (Hlong & Hk & Hfit).
      destruct (IH (acc ++ [py_slice_to para k ++ suffix])) as (ls & Hall & Hrun).
      exists ((py_slice_to para k ++ suffix) :: ls). split.
      * constructor; [|exact Hall]. right. split; [exact Hlong|].
        split; [exact Hfit|]. exists k. auto.
      * rewrite Hrun, <- app_assoc. reflexivity.
    + destruct (IH (acc ++ [para])) as (ls & Hall & Hrun).
      exists (para :: ls). split.
      * constructor; [|exact Hall]. left. split; [reflexivity | exact Hfit].
      * rewrite Hrun, <- app_assoc. reflexivity.
Qed.

Lemma fold_raise_stays {A B} (f : Res A -> B -> Res A) (e : Error) (ls : list B) :
  (forall b, f (Raise e) b = Raise e) ->
  fold_left f ls (Raise e) = Raise e.
Proof.
  intros Hf. induction ls as [|l ls IH]; cbn [fold_left]; [reflexivity|].
  rewrite Hf. exact IH.
Qed.

(** One paragraph in an empty list of lines. *)
Lemma first_paragraph_step fuel a c line :
  1 <= line_count c -> (Z.to_nat (line_count c) <= fuel)%nat ->
  exists ls,
    get_lines_step get_text_width fuel a c [] line = Ok ls
    /\ 1 <= len ls <= line_count c
    /\ (wrap c = true -> overflow c = Clip ->
        exists rest,
          concat ls ++ rest = line /\ (rest = [] \/ len ls = line_count c)).
Proof.
  intros Hlc Hfuel.
  assert (Hone : forall l : str,
             1 <= len [l] <= line_count c) by (intros l; change (len [l]) with 1; lia).
  assert (Hwhole : exists rest, concat [line] ++ rest = line
                                /\ (rest = [] \/ len [line] = line_count c)).
  { exists []. cbn [concat]. rewrite !app_nil_r. auto. }
  unfold get_lines_step.
  destruct (w a) as [w0|]; [|exists [line]; cbn [app]; auto].
  destruct (negb (truthy (Some w0))) eqn:Ew; cbn [truthy] in *.
  - destruct (w0 =? 0); [|discriminate Ew]. exists [line]. cbn [negb app]. auto.
  - destruct (w0 =? 0); [discriminate Ew|]. cbn [negb].
    destruct (wrap c) eqn:Ewrap.
    + destruct (wrap_loop_returns fuel c (w0 - hpadding a * 2)
                  match overflow c with Shrink => ellipsis | Clip => [] end line [])
        as (pieces & Hrun & Hp1 & Hp2 & Hcat).
      * change (len (@nil str)) with 0. lia.
      * change (len (@nil str)) with 0. rewrite Z.sub_0_r. exact Hfuel.
      * change (len (@nil str)) with 0 in *. cbn [app] in Hrun.
        exists pieces. split; [exact Hrun|]. split; [lia|].
        intros _ Hov. rewrite Hov in Hcat.
        destruct (Hcat eq_refl) as (rest & Hrest & Hend).
        exists rest. split; [exact Hrest|]. destruct Hend; [left; assumption | right; lia].
    + destruct (_get_clip_text_to_width_idx _ _ _ _ _) as [k|]; eexists;
        (split; [reflexivity|]); cbn [app]; (split; [apply Hone|]);
        intros Hw; discriminate Hw.
Qed.

(** X14. A [TextBox] whose text has no newline, with a line limit of one
    or more: [_get_lines] returns (the wrapping loop exits within
    [line_count] rounds), with at least one line and at most [line_count];
    and with [wrap] and [overflow = 'clip'] no character is lost but at the
    limit: the lines, joined, are the start of the text, and the whole text
    unless the limit was reached. *)
Theorem single_paragraph_lines fuel a c :
  ~ In newline (text c) ->
  1 <= line_count c -> (Z.to_nat (line_count c) <= fuel)%nat ->
  exists lines,
    _get_lines get_text_width fuel a c = Ok lines
    /\ 1 <= len lines <= line_count c
    /\ (wrap c = true -> overflow c = Clip ->
        exists rest,
          concat lines ++ rest = text c
          /\ (rest = [] \/ len lines = line_count c)).
Proof.
  intros Hnl Hlc Hfuel.
  destruct (first_paragraph_step fuel a c (text c) Hlc Hfuel) as (ls & Hrun & Hlen & Hcat).
  exists ls. unfold _get_lines. rewrite (split_lines_single _ Hnl).
  cbn [fold_left bind]. rewrite Hrun. cbn [bind].
  rewrite py_slice_to_full by lia. auto.
Qed.

(** X15. A wrapping [TextBox] with the line limit 1 (the default) and a
    true width, whose text has two paragraphs or more, the second one not
    empty and too wide from its first character on (the empty text fits the
    available width, no prefix of one character or more does):
    [_get_lines] never returns.  The first paragraph fills the limit, and
    the loop of the second then appends an empty line in every round and
    never meets its exit test. *)
Theorem narrow_second_paragraph_never_returns fuel a c w0 first second more :
  w a = Some w0 -> w0 <> 0 ->
  wrap c = true -> line_count c = 1 ->
  split_lines (text c) = first :: second :: more ->
  second <> [] ->
  let width := w0 - hpadding a * 2 in
  width_of (style c) [] <= width ->
  (forall k, 1 <= k <= len second -> width < width_of (style c) (py_slice_to second k)) ->
  _get_lines get_text_width fuel a c = Raise Diverges.
Proof.
  intros Hw Hw0 Hwrap Hlc Hsplit Hne width Hempty Hwide.
  unfold _get_lines. rewrite Hsplit. cbn [fold_left bind].
  assert (Hstep : forall cl line,
             get_lines_step get_text_width fuel a c cl line
             = wrap_loop get_text_width fuel c width
                 match overflow c with Shrink => ellipsis | Clip => [] end line cl).
  { intros cl line. unfold get_lines_step. rewrite Hw. cbn [truthy].
    replace (w0 =? 0) with false by (symmetry; apply Z.eqb_neq; exact Hw0).
    cbn [negb]. rewrite Hwrap. reflexivity. }
  assert (Hsecond : x <- get_lines_step get_text_width fuel a c [] first ;;
                    get_lines_step get_text_width fuel a c x second
                    = Raise Diverges).
  { rewrite Hstep. destruct fuel as [|fuel']; [reflexivity|].
    destruct (wrap_loop_returns (S fuel') c width
                match overflow c with Shrink => ellipsis | Clip => [] end first [])
      as (pieces & Hrun & Hp1 & _).
    - change (len (@nil str)) with 0. lia.
    - change (len (@nil str)) with 0. rewrite Hlc. cbn. lia.
    - rewrite Hrun. cbn [bind app]. rewrite Hstep.
      apply wrap_loop_no_exit; [lia|].
      apply clip_idx_zero; assumption. }
  rewrite Hsecond. rewrite fold_raise_stays; [reflexivity|]. reflexivity.
Qed.

(** X16. A [TextBox] with a true width that does not wrap, when the
    suffix of its overflow mode alone fits the available width:
    [_get_lines] returns, for every paragraph in turn, the paragraph itself
    when it fits with the suffix, and else a prefix of it followed by the
    suffix that fits; at most [line_count] of them.  Where appending the
    suffix never makes a text narrower, every returned line fits. *)
Theorem nowrap_lines_fit fuel a c w0 :
  w a = Some w0 -> w0 <> 0 -> wrap c = false ->
  let width := w0 - hpadding a * 2 in
  let suffix := match overflow c with Shrink => ellipsis | Clip => [] end in
  width_of (style c) suffix <= width ->
  exists ls,
    Forall2 (clipped_from (style c) width suffix) (split_lines (text c)) ls
    /\ _get_lines get_text_width fuel a c = Ok (py_slice_to ls (line_count c))
    /\ ((forall s, width_of (style c) s <= width_of (style c) (s ++ suffix)) ->
        Forall (fun l => width_of (style c) l <= width) (py_slice_to ls (line_count c))).
Proof.
  intros Hw Hw0 Hwrap width suffix Hsuf.
  destruct (nowrap_fold fuel a c w0 (split_lines (text c)) [] Hw Hw0 Hwrap Hsuf)
    as (ls & Hall & Hrun).
  exists ls. split; [exact Hall|]. split.
  - unfold _get_lines. rewrite Hrun. reflexivity.
  - intros Hmono. apply Forall_forall. intros l Hl.
    apply py_slice_to_incl in Hl.
    clear Hrun. induction Hall as [|para l' paras ls' Hc _ IH]; [destruct Hl|].
    destruct Hl as [<-|Hl]; [|exact (IH Hl)].
    destruct Hc as [[-> Hfit]|(_ & Hfit & _)]; [|exact Hfit].
    pose proof (Hmono para). fold width suffix in Hfit. lia.
Qed.

End MoreTextResults.

(** X14, witness: the thirty letters in the box of two lines. *)
Lemma single_paragraph_lines_witness :
  exists lines,
    _get_lines (mono_width 8) 2 two_line_box_attrs two_line_box_cfg = Ok lines
    /\ 1 <= len lines <= 2.
Proof.
  destruct (single_paragraph_lines (mono_width 8) 2 two_line_box_attrs two_line_box_cfg)
    as (lines & Hrun & Hlen & _).
  - cbn. intros H. repeat (destruct H as [H|H]; [discriminate H|]). exact H.
  - cbn. lia.
  - cbn. lia.
  - exists lines. split; [exact Hrun | exact Hlen].
Defined.

(** A default text box 9 wide (5 inside the padding) with the text
    "a\nbb", 8 pixels a letter. *)
Definition narrow_box_attrs : Attrs :=
  set_size (set_margin (set_padding Widget_init (inl 2)) (inl 0)) (Some (Some 9, None)).

Definition narrow_box_cfg : TextCfg :=
  {| text := list_ascii_of_string "a" ++ [newline] ++ list_ascii_of_string "bb";
     style := TextStyle.default; line_count := 1; line_sep := 2; wrap := true;
     overflow := Shrink; use_real_line_count := false |}.

(** X15, witness: the narrow box never gets its lines. *)
Lemma narrow_second_paragraph_never_returns_witness :
  _get_lines (mono_width 8) 1000 narrow_box_attrs narrow_box_cfg = Raise Diverges.
Proof.
  refine (narrow_second_paragraph_never_returns (mono_width 8) 1000 narrow_box_attrs
            narrow_box_cfg 9 (list_ascii_of_string "a") (list_ascii_of_string "bb") []
            eq_refl _ eq_refl eq_refl eq_refl _ _ _).
  - lia.
  - discriminate.
  - cbn. lia.
  - intros k Hk. change (len (list_ascii_of_string "bb")) with 2 in Hk.
    assert (Hk' : k = 1 \/ k = 2) by lia.
    destruct Hk' as [-> | ->]; vm_compute; reflexivity.
Defined.

(** A box 84 wide that does not wrap, with the thirty letters. *)
Definition nowrap_box_cfg : TextCfg :=
  {| text := thirty_letters; style := TextStyle.default; line_count := 1;
     line_sep := 2; wrap := false; overflow := Shrink; use_real_line_count := false |}.

(** X16, witness: the thirty letters on one line that does not wrap. *)
Lemma nowrap_lines_fit_witness :
  exists ls,
    _get_lines (mono_width 8) 0 two_line_box_attrs nowrap_box_cfg
    = Ok (py_slice_to ls 1)
    /\ Forall (fun l => mono_width 8 TextStyle.default l <= 80) (py_slice_to ls 1).
Proof.
  destruct (nowrap_lines_fit (mono_width 8) 0 two_line_box_attrs nowrap_box_cfg 84
              eq_refl ltac:(lia) eq_refl ltac:(cbn; lia))
    as (ls & _ & Hrun & Hfit).
  exists ls. split; [exact Hrun|]. apply Hfit.
  intros s. unfold mono_width, len. rewrite length_app. lia.
Defined.

(** The lines of the box that does not wrap: seven letters and the
    ellipsis. *)
Example nowrap_box_lines :
  _get_lines (mono_width 8) 0 two_line_box_attrs nowrap_box_cfg
  = Ok [list_ascii_of_string "abcdefg..."].
Proof. vm_compute. reflexivity. Qed.

(* ===================================================================== *)
(** ** The linear gradient                                                 *)
(* ===================================================================== *)

(** What [sd <= 0] says of the comparisons [np.clip] makes on [sd]. *)
Lemma SFleb_zero sd :
  SFleb sd (S754_zero false) = true ->
  SFeqb sd sd = true /\ SFltb (S754_zero false) sd = false.
Proof.
  intros H.
  destruct sd as [s|[|]| |[|] m e]; try discriminate H.
  - split; reflexivity.
  - split; reflexivity.
  - unfold SFeqb, SFltb, SFcompare.
    rewrite Z.compare_refl.
    change (Pos.compare_cont Eq m m) with (Pos.compare m m).
    rewrite Pos.compare_refl. split; reflexivity.
Qed.

Lemma np_clip_le_zero t : (t <=? 0)%float = true -> np_clip t 0 1 = 0%float.
Proof.
  rewrite leb_spec, Prim2SF_0. intros H.
  destruct (SFleb_zero _ H) as [Hnan Hpos].
  rewrite <- eqb_spec in Hnan. rewrite <- Prim2SF_0, <- ltb_spec in Hpos.
  unfold np_clip, np_maximum, np_minimum, is_nan.
  rewrite Hnan. cbn [negb]. rewrite Hpos. reflexivity.
Qed.

Lemma linear_blend_at_1 k1 k2 :
  channel_in_range k1 -> channel_in_range k2 -> Linear.blend 1 k1 k2 = k2.
Proof.
  intros H1 H2. unfold Linear.blend. rewrite (one_minus_one_times_channel k1 H1).
  apply Z.eqb_eq.
  apply (all_channels_spec
           (fun k => astype_uint8
                       (np_clip (0 + 1 * float_of_Z k) 0 255)%float =? k));
    [|assumption].
  vm_compute. reflexivity.
Qed.

Lemma astype_uint8_range f : channel_in_range (astype_uint8 f).
Proof.
  unfold astype_uint8, channel_in_range. destruct (py_int f) as [z|e]; [|lia].
  destruct ((- 2 ^ 31 <=? z) && (z <? 2 ^ 31)); [|lia].
  pose proof (Z.mod_pos_bound z 256 ltac:(lia)). lia.
Qed.

(** X17. The array [LinearGradient.get_colors] produces has [h] rows of
    [w] pixels whose channels are all in 0..255; with the two colors in
    0..255, a pixel whose projection [t] on the segment from [p1] to [p2] is
    0 or less has exactly the color [c1], and one whose projection is 1 or
    more has exactly [c2]: before [p1] and past [p2] the gradient is flat. *)
Theorem linear_gradient_ends (g : Linear.t) (size : Size) (x y : Z) :
  0 <= x < fst size -> 0 <= y < snd size ->
  len (Linear.get_colors g size) = snd size
  /\ Forall (fun row => len row = fst size) (Linear.get_colors g size)
  /\ (exists c, array_at (Linear.get_colors g size) x y = Some c /\ color_in_range c)
  /\ (color_in_range (Linear.c1 g) -> color_in_range (Linear.c2 g) ->
      ((Linear.param g size x y <=? 0)%float = true ->
       array_at (Linear.get_colors g size) x y = Some (Linear.c1 g))
      /\ ((1 <=? Linear.param g size x y)%float = true ->
          array_at (Linear.get_colors g size) x y = Some (Linear.c2 g))).
Proof.
  intros Hx Hy. unfold Linear.get_colors.
  rewrite (color_array_at _ _ _ _ Hx Hy).
  split; [|split; [|split]].
  - unfold color_array, len, range. rewrite !length_map, length_seq. lia.
  - unfold color_array. apply Forall_forall. intros row Hrow.
    apply in_map_iff in Hrow. destruct Hrow as (y0 & <- & _).
    unfold len, range. rewrite !length_map, length_seq. lia.
  - eexists. split; [reflexivity|]. unfold Linear.pixel. cbv zeta.
    destruct (Linear.c1 g) as [[[r1 g1] b1] a1], (Linear.c2 g) as [[[r2 g2] b2] a2].
    cbn [per_channel color_in_range]. unfold Linear.blend.
    repeat split; apply astype_uint8_range.
  - intros Hc1 Hc2.
    destruct (Linear.c1 g) as [[[r1 g1] b1] a1] eqn:E1,
             (Linear.c2 g) as [[[r2 g2] b2] a2] eqn:E2.
    destruct Hc1 as (? & ? & ? & ?), Hc2 as (? & ? & ? & ?).
    split; intros Ht; f_equal; unfold Linear.pixel; cbv zeta; rewrite E1, E2.
    + rewrite (np_clip_le_zero _ Ht). cbn [per_channel].
      rewrite !linear_blend_at_0 by assumption. reflexivity.
    + rewrite (np_clip_ge_one _ Ht). cbn [per_channel].
      rewrite !linear_blend_at_1 by assumption. reflexivity.
Qed.

(** Red to blue from the left edge to the middle of a 4 by 4 array. *)
Definition red_blue_linear : Linear.t :=
  {| Linear.c1 := (255, 0, 0, 255); Linear.c2 := (0, 0, 255, 255);
     Linear.p1 := (0, 0)%float; Linear.p2 := (0.5, 0)%float |}.

(** X17, witness: the first column is [c1], the third, at [p2], is [c2]. *)
Lemma linear_gradient_ends_witness :
  array_at (Linear.get_colors red_blue_linear (4, 4)) 0 1 = Some (255, 0, 0, 255)
  /\ array_at (Linear.get_colors red_blue_linear (4, 4)) 2 1 = Some (0, 0, 255, 255).
Proof.
  assert (Hc1 : color_in_range (Linear.c1 red_blue_linear))
    by (cbn; unfold channel_in_range; lia).
  assert (Hc2 : color_in_range (Linear.c2 red_blue_linear))
    by (cbn; unfold channel_in_range; lia).
  split.
  - refine (proj1 (proj2 (proj2 (proj2 (linear_gradient_ends red_blue_linear (4, 4) 0 1 _ _)))
                     Hc1 Hc2) eq_refl); cbn; lia.
  - refine (proj2 (proj2 (proj2 (proj2 (linear_gradient_ends red_blue_linear (4, 4) 2 1 _ _)))
                     Hc1 Hc2) eq_refl); cbn; lia.
Defined.

(* ===================================================================== *)
(** ** The vertical split                                                  *)
(* ===================================================================== *)

Section VSplitResults.

Variable get_text_width : TextStyle.t -> str -> Z.
Variable fuel : nat.

Abbreviation self_size := (_get_self_size get_text_width fuel).

Lemma VSplit_draw_items_zip draw_item c items sizes cur_y p :
  VSplit_draw_items get_text_width draw_item fuel c items sizes cur_y p
  = VSplit_draw_items get_text_width draw_item fuel c
      (firstn (length sizes) items) sizes cur_y p.
Proof.
  revert sizes cur_y p.
  induction items as [|it its IH]; intros [|[sw sh] sl] cur_y p;
    cbn [length firstn VSplit_draw_items]; try reflexivity.
  destruct (self_size it) as [[iw ih]|]; cbn [bind]; [|reflexivity].
  cbv zeta. destruct (draw_item it _); cbn [bind]; [|reflexivity].
  apply IH.
Qed.

(** X18. The slots of a [VSplit]: there are as many as the shorter of the
    ratios and the items (as many as items when no ratios are given), they
    all have the width of the widest item, which every item fits; and
    [_draw_content] draws the items that have a slot only. *)
Theorem vsplit_slots a c items slots :
  VSplit_get_item_sizes a c (map self_size items) = Ok slots ->
  length slots
  = match ratios c with
    | Some (r :: rs) => Nat.min (S (length rs)) (length items)
    | _ => length items
    end
  /\ (exists wmax,
         Forall (fun s => fst s = wmax) slots
         /\ Forall (fun it => exists iw ih, self_size it = Ok (iw, ih) /\ iw <= wmax) items
         /\ Exists (fun it => exists ih, self_size it = Ok (wmax, ih)) items)
  /\ (forall draw_item cur_y p,
         VSplit_draw_items get_text_width draw_item fuel c items slots cur_y p
         = VSplit_draw_items get_text_width draw_item fuel c
             (firstn (length slots) items) slots cur_y p).
Proof.
  intros H. unfold VSplit_get_item_sizes in H.
  apply bind_Ok in H. destruct H as ([es cr] & Hsplit & H). injection H as <-.
  unfold split_item_sizes in Hsplit.
  apply bind_Ok in Hsplit. destruct Hsplit as (rs & Hrs & Hsplit).
  apply bind_Ok in Hsplit. destruct Hsplit as (unit & _ & Hsplit).
  apply bind_Ok in Hsplit. destruct Hsplit as (szs & Hseq & Hsplit).
  apply bind_Ok in Hsplit. destruct Hsplit as (cr' & Hmax & Hsplit).
  apply bind_Ok in Hsplit. destruct Hsplit as (es' & Hes & Hsplit).
  injection Hsplit as -> ->.
  pose proof (scaled_extents_length _ _ _ _ Hes) as Hlen.
  rewrite length_map in Hlen.
  pose proof (sequence_Ok _ _ Hseq) as Hmap.
  assert (Hszs : length szs = length items).
  { apply (f_equal (@length _)) in Hmap. rewrite !length_map in Hmap. lia. }
  split; [|split].
  - rewrite length_map, Hlen. destruct (ratios c) as [[|r0 rs0]|].
    + rewrite Hseq in Hrs. injection Hrs as <-. rewrite length_map. lia.
    + injection Hrs as <-. reflexivity.
    + rewrite Hseq in Hrs. injection Hrs as <-. rewrite length_map. lia.
  - exists cr. destruct (py_max_list_bounds _ _ Hmax) as [Hall Hin].
    split; [|split].
    + apply Forall_forall. intros s Hs. apply in_map_iff in Hs.
      destruct Hs as (e & <- & _). reflexivity.
    + apply Forall_forall. intros it Hit.
      assert (Hi : In (self_size it) (map Ok szs))
        by (rewrite <- Hmap; apply in_map; exact Hit).
      apply in_map_iff in Hi. destruct Hi as ([iw ih] & Es & Hsz).
      exists iw, ih. split; [symmetry; exact Es|].
      rewrite Forall_forall in Hall. apply (Hall iw).
      apply in_map_iff. exists (iw, ih). split; [reflexivity | exact Hsz].
    + apply in_map_iff in Hin. destruct Hin as ([iw ih] & Eh & Hsz). cbn [fst] in Eh. subst iw.
      apply Exists_exists.
      assert (Hi : In (Ok (cr, ih)) (map self_size items))
        by (rewrite Hmap; apply in_map; exact Hsz).
      apply in_map_iff in Hi. destruct Hi as (it & Es & Hit).
      exists it. split; [exact Hit|]. exists ih. exact Es.
  - intros draw_item cur_y p. apply VSplit_draw_items_zip.
Qed.

End VSplitResults.

(** X18, witness: three spacers and two ratios make two slots. *)
Lemma vsplit_slots_witness :
  length [(40, 20); (40, 20)]
  = match ratios {| ratios := Some [1; 1]; sep := 10;
                    split_items := {| item_size_mode := Fixed; item_halign := HC;
                                      item_valign := VC |} |} with
    | Some (r :: rs) => Nat.min (S (length rs)) 3
    | _ => 3%nat
    end.
Proof.
  exact (proj1 (vsplit_slots (mono_width 8) 0 Widget_init
                  {| ratios := Some [1; 1]; sep := 10;
                     split_items := {| item_size_mode := Fixed; item_halign := HC;
                                       item_valign := VC |} |}
                  [Spacer_init (Some 40) (Some 20); Spacer_init (Some 40) (Some 20);
                   Spacer_init (Some 40) (Some 20)]
                  [(40, 20); (40, 20)] eq_refl)).
Defined.

(* ===================================================================== *)
(** ** The image background                                                *)
(* ===================================================================== *)

Definition try_bind {A B} (c : Try A) (k : A -> Try B) : Try B :=
  match c with
  | Return a => k a
  | Throw e => Throw e
  end.

Notation "x <-- c ;; k" := (try_bind c (fun x => k))
  (at level 61, c at next level, right associativity).
Notation "' pat <-- c ;; k" := (try_bind c (fun x => match x with pat => k end))
  (at level 61, pat pattern, c at next level, right associativity).

(** [range(start, stop, step)]; a step of zero is a [ValueError]. *)
Definition py_range3 (start stop step : Z) : Res (list Z) :=
  if step =? 0 then Raise ValueError
  else
    let n := if 0 <? step then (stop - start + step - 1) / step
             else (start - stop - step - 1) / (- step) in
    Ok (map (fun i => start + i * step) (range n)).

(** What [Painter.paste] hands to [Image.paste]: where, in the coordinates
    of the image, and the size of what is pasted ([sub_img] is resized to
    [size] when [size] is given and differs, which Pillow refuses for an
    extent below 1).  The pixels are PIL's. *)
Record Paste := mkPaste { paste_pos : Position; paste_size : Size }.

Definition Painter_paste (p : Painter.t) (sub_img : Size) (pos : Position)
    (size : option Size) : Res Paste :=
  sz <- paste_resize sub_img size ;;
  Ok {| paste_pos := (fst pos + fst (Painter.offset p), snd pos + snd (Painter.offset p));
        paste_size := sz |}.

Inductive BgMode := BgFit | BgFill | BgFixed | BgRepeat.

Module ImageBg.

(** Of the image only the size is kept; the blur and the fade of
    [__init__] change pixels, not the size. *)
Record t := mk { img : Size; align : string; mode : BgMode }.

(** [ImageBg.__init__] *)
Definition init (image : Size) (align0 mode0 : string) : Res t :=
  _ <- assert_ (match ALIGN_MAP align0 with Some _ => true | None => false end) ;;
  m <- (if String.eqb mode0 "fit" then Ok BgFit
        else if String.eqb mode0 "fill" then Ok BgFill
        else if String.eqb mode0 "fixed" then Ok BgFixed
        else if String.eqb mode0 "repeat" then Ok BgRepeat
        else Raise AssertionError) ;;
  Ok {| img := image; align := align0; mode := m |}.

(** [ALIGN_MAP[self.align]] *)
Definition lookup_align (bg : t) : Try (HAlign * VAlign) :=
  match ALIGN_MAP (align bg) with
  | Some hv => Return hv
  | None => Throw KeyError
  end.

(** The [if va == 'c' ... elif va == 't' ... else] of the two aligned
    modes, and the same for [ha]. *)
Definition place_y (va : VAlign) (ph ih : Z) : Z :=
  match va with
  | VC => (ph - ih) / 2
  | VT => 0
  | VB => ph - ih
  end.

Definition place_x (ha : HAlign) (pw iw : Z) : Z :=
  match ha with
  | HC => (pw - iw) / 2
  | HL => 0
  | HR => pw - iw
  end.

(** [ImageBg.draw]: the pastes it makes, in order. *)
Definition draw (bg : t) (p : Painter.t) : Try (list Paste) :=
  let pw := Painter.get_w p in
  let ph := Painter.get_h p in
  let '(iw, ih) := img bg in
  match mode bg with
  | BgFit =>
      '(ha, va) <-- lookup_align bg ;;
      sx <-- try_of (py_truediv pw iw) ;;
      sy <-- try_of (py_truediv ph ih) ;;
      let scale := py_fmax sx sy in
      w <-- try_of (py_int (float_of_Z iw * scale)%float) ;;
      h <-- try_of (py_int (float_of_Z ih * scale)%float) ;;
      let y := place_y va ph h in
      let x := place_x ha pw w in
      c <-- try_of (Painter_paste p (img bg) (x, y) (Some (w, h))) ;;
      Return [c]
  | BgFill =>
      c <-- try_of (Painter_paste p (img bg) (0, 0) (Some (Painter.size p))) ;;
      Return [c]
  | BgFixed =>
      '(ha, va) <-- lookup_align bg ;;
      let y := place_y va ph ih in
      let x := place_x ha pw iw in
      c <-- try_of (Painter_paste p (img bg) (x, y) None) ;;
      Return [c]
  | BgRepeat =>
      ys <-- try_of (py_range3 0 ph ih) ;;
      rows <-- try_of
                 (sequence
                    (map (fun y =>
                            xs <- py_range3 0 pw iw ;;
                            sequence
                              (map (fun x => Painter_paste p (img bg) (x, y) None) xs))
                         ys)) ;;
      Return (concat rows)
  end.

End ImageBg.

(** The pixel [(X, Y)] of the image lies under a paste. *)
Definition covers (c : Paste) (X Y : Z) : Prop :=
  fst (paste_pos c) <= X < fst (paste_pos c) + fst (paste_size c)
  /\ snd (paste_pos c) <= Y < snd (paste_pos c) + snd (paste_size c).

Lemma range_In n k : In k (range n) <-> 0 <= k < n.
Proof.
  unfold range. rewrite in_map_iff. split.
  - intros (i & <- & Hi). apply in_seq in Hi. lia.
  - intros Hk. exists (Z.to_nat k). split; [lia|]. apply in_seq. lia.
Qed.

Lemma range_length n : length (range n) = Z.to_nat n.
Proof. unfold range. rewrite length_map, length_seq. reflexivity. Qed.

Lemma sequence_map_Ok {A B} (f : A -> B) (xs : list A) :
  sequence (map (fun x => Ok (f x)) xs) = Ok (map f xs).
Proof.
  induction xs as [|x xs IH]; cbn [map sequence bind]; [reflexivity|].
  rewrite IH. reflexivity.
Qed.

Lemma concat_map_length {A B} (f : A -> list B) (n : nat) (xs : list A) :
  (forall x, length (f x) = n) -> length (concat (map f xs)) = (length xs * n)%nat.
Proof.
  intros Hf. induction xs as [|x xs IH]; cbn [map concat length]; [reflexivity|].
  rewrite length_app, Hf, IH. lia.
Qed.

(** X19. [ImageBg.draw] in mode 'repeat' with an image of positive width
    and height: it pastes the image, unscaled, [ceil(w / iw)] times
    [ceil(h / ih)] times (none when the region is empty), every tile
    starting inside the region, and every pixel of the region lies under
    exactly one tile.  An image of height 0 raises [ValueError], and so does
    one of width 0 when the region has a height. *)
Theorem repeat_tiles_cover_region (bg : ImageBg.t) (p : Painter.t) :
  ImageBg.mode bg = BgRepeat ->
  let pw := Painter.get_w p in
  let ph := Painter.get_h p in
  let iw := fst (ImageBg.img bg) in
  let ih := snd (ImageBg.img bg) in
  let ox := fst (Painter.offset p) in
  let oy := snd (Painter.offset p) in
  (0 < iw -> 0 < ih ->
   exists tiles,
     ImageBg.draw bg p = Return tiles
     /\ length tiles
        = (Z.to_nat ((ph + ih - 1) / ih) * Z.to_nat ((pw + iw - 1) / iw))%nat
     /\ Forall (fun c =>
                  paste_size c = (iw, ih)
                  /\ ox <= fst (paste_pos c) < ox + pw
                  /\ oy <= snd (paste_pos c) < oy + ph) tiles
     /\ (forall px py,
            0 <= px < pw -> 0 <= py < ph ->
            exists c,
              In c tiles /\ covers c (ox + px) (oy + py)
              /\ forall c', In c' tiles -> covers c' (ox + px) (oy + py) -> c' = c))
  /\ (ih = 0 -> ImageBg.draw bg p = Throw (Builtin ValueError))
  /\ (iw = 0 -> 0 < ih -> 0 < ph -> ImageBg.draw bg p = Throw (Builtin ValueError)).
Proof.
  intros Hmode pw ph iw ih ox oy.
  unfold ImageBg.draw. rewrite Hmode.
  destruct (ImageBg.img bg) as [iw0 ih0] eqn:Eimg. cbn [fst snd] in iw, ih.
  fold pw ph. subst iw ih. unfold py_range3. rewrite !Z.sub_0_r.
  split; [|split].
  - intros Hiw Hih.
    replace (ih0 =? 0) with false by (symmetry; apply Z.eqb_neq; lia).
    replace (iw0 =? 0) with false by (symmetry; apply Z.eqb_neq; lia).
    replace (0 <? ih0) with true by (symmetry; apply Z.ltb_lt; lia).
    replace (0 <? iw0) with true by (symmetry; apply Z.ltb_lt; lia).
    cbn [try_of try_bind bind].
    set (ny := (ph + ih0 - 1) / ih0). set (nx := (pw + iw0 - 1) / iw0).
    set (tile := fun y x =>
                   {| paste_pos := (fst (x, y) + fst (Painter.offset p),
                                    snd (x, y) + snd (Painter.offset p));
                      paste_size := (iw0, ih0) |}).
    set (row := fun y => map (tile y) (map (fun i => 0 + i * iw0) (range nx))).
    rewrite (map_ext _ (fun y => Ok (row y)))
      by (intros y; cbn [bind]; apply (sequence_map_Ok (tile y))).
    rewrite (sequence_map_Ok row). cbn [try_of try_bind].
    eexists. split; [reflexivity|].
    assert (Hin : forall c,
               In c (concat (map row (map (fun i => 0 + i * ih0) (range ny))))
               <-> exists i j, 0 <= i < nx /\ 0 <= j < ny /\ c = tile (j * ih0) (i * iw0)).
    { intros c. rewrite in_concat. split.
      - intros (l & Hl & Hc). apply in_map_iff in Hl. destruct Hl as (y & <- & Hy).
        apply in_map_iff in Hy. destruct Hy as (j & <- & Hj). apply range_In in Hj.
        unfold row in Hc. apply in_map_iff in Hc. destruct Hc as (x & <- & Hx).
        apply in_map_iff in Hx. destruct Hx as (i & <- & Hi). apply range_In in Hi.
        exists i, j. repeat split; try lia.
      - intros (i & j & Hi & Hj & ->). exists (row (j * ih0)). split.
        + apply in_map. apply in_map_iff. exists j. split; [lia|]. apply range_In. exact Hj.
        + unfold row. apply in_map. apply in_map_iff. exists i.
          split; [lia|]. apply range_In. exact Hi. }
    assert (Hnx : forall i, 0 <= i < nx -> i * iw0 < pw).
    { intros i Hi. unfold nx in Hi.
      pose proof (Z.div_mod (pw + iw0 - 1) iw0 ltac:(lia)).
      pose proof (Z.mod_pos_bound (pw + iw0 - 1) iw0 Hiw). nia. }
    assert (Hny : forall j, 0 <= j < ny -> j * ih0 < ph).
    { intros j Hj. unfold ny in Hj.
      pose proof (Z.div_mod (ph + ih0 - 1) ih0 ltac:(lia)).
      pose proof (Z.mod_pos_bound (ph + ih0 - 1) ih0 Hih). nia. }
    split; [|split].
    + rewrite (concat_map_length row (Z.to_nat nx)).
      * rewrite length_map, range_length. reflexivity.
      * intros y. unfold row. rewrite !length_map, range_length. reflexivity.
    + apply Forall_forall. intros c Hc. apply Hin in Hc.
      destruct Hc as (i & j & Hi & Hj & ->). unfold tile.
      cbn [paste_size paste_pos fst snd]. fold ox oy.
      specialize (Hnx i Hi). specialize (Hny j Hj).
      split; [reflexivity|]. nia.
    + intros px py Hpx Hpy.
      exists (tile (py / ih0 * ih0) (px / iw0 * iw0)).
      pose proof (Z.div_mod px iw0 ltac:(lia)) as Dx.
      pose proof (Z.mod_pos_bound px iw0 Hiw) as Mx.
      pose proof (Z.div_mod py ih0 ltac:(lia)) as Dy.
      pose proof (Z.mod_pos_bound py ih0 Hih) as My.
      assert (Hi : 0 <= px / iw0 < nx).
      { split; [apply Z.div_pos; lia|]. unfold nx.
        apply Z.div_lt_upper_bound; [lia|].
        pose proof (Z.div_mod (pw + iw0 - 1) iw0 ltac:(lia)).
        pose proof (Z.mod_pos_bound (pw + iw0 - 1) iw0 Hiw). nia. }
      assert (Hj : 0 <= py / ih0 < ny).
      { split; [apply Z.div_pos; lia|]. unfold ny.
        apply Z.div_lt_upper_bound; [lia|].
        pose proof (Z.div_mod (ph + ih0 - 1) ih0 ltac:(lia)).
        pose proof (Z.mod_pos_bound (ph + ih0 - 1) ih0 Hih). nia. }
      split; [|split].
      * apply Hin. exists (px / iw0), (py / ih0). auto.
      * unfold covers, tile. cbn [paste_size paste_pos fst snd].
        fold ox oy. nia.
      * intros c' Hc' Hcov. apply Hin in Hc'.
        destruct Hc' as (i & j & Hi' & Hj' & ->).
        unfold covers, tile in Hcov.
        cbn [paste_size paste_pos fst snd] in Hcov. fold ox oy in Hcov.
        assert (i = px / iw0) by (apply (Z.div_unique px iw0 i (px - i * iw0)); lia).
        assert (j = py / ih0) by (apply (Z.div_unique py ih0 j (py - j * ih0)); lia).
        subst i j. reflexivity.
  - intros ->. reflexivity.
  - intros -> Hih Hph.
    replace (ih0 =? 0) with false by (symmetry; apply Z.eqb_neq; lia).
    replace (0 <? ih0) with true by (symmetry; apply Z.ltb_lt; lia).
    cbn [try_of try_bind].
    assert (Hny : 0 < (ph + ih0 - 1) / ih0) by (apply Z.div_str_pos; lia).
    unfold range. destruct (Z.to_nat ((ph + ih0 - 1) / ih0)) as [|n] eqn:En; [lia|].
    cbn [seq map sequence bind]. reflexivity.
Qed.

(** X19, witness: a tile of 4 by 3 on a region of 10 by 5 at (7, 2): three
    columns and two rows. *)
Lemma repeat_tiles_cover_region_witness :
  exists tiles,
    ImageBg.draw {| ImageBg.img := (4, 3); ImageBg.align := "c"; ImageBg.mode := BgRepeat |}
      (Painter.set_region (Painter.init {| im_mode := RGBA; im_size := (20, 20) |})
         (7, 2) (10, 5))
    = Return tiles
    /\ length tiles = 6%nat.
Proof.
  destruct (proj1 (repeat_tiles_cover_region
                     {| ImageBg.img := (4, 3); ImageBg.align := "c";
                        ImageBg.mode := BgRepeat |}
                     (Painter.set_region
                        (Painter.init {| im_mode := RGBA; im_size := (20, 20) |})
                        (7, 2) (10, 5)) eq_refl)
              ltac:(cbn; lia) ltac:(cbn; lia))
    as (tiles & Hrun & Hlen & _).
  exists tiles. split; [exact Hrun | exact Hlen].
Defined.

(* ===================================================================== *)
(** ** Widgets as objects: the [with] stack                                *)
(* ===================================================================== *)

(** [map_attrs f wd]: a setter of [Widget] applied to a widget of any class. *)
Definition map_attrs (f : Attrs -> Attrs) (wd : Widget) : Widget :=
  match wd with
  | PlainWidget a => PlainWidget (f a)
  | Frame a its => Frame (f a) its
  | HSplit a c its => HSplit (f a) c its
  | VSplit a c its => VSplit (f a) c its
  | Grid a c its => Grid (f a) c its
  | TextBox a c => TextBox (f a) c
  | ImageBox a c => ImageBox (f a) c
  | Spacer a => Spacer (f a)
  end.

Module Ctx.

(** Widgets are objects: a widget is added to its parent when it is
    created, and gets its own items later.  An object is its class and
    fields ([shell], whose own list of items is not used), the references to
    its items and to its parent. *)
Definition ref := nat.

Record Obj := mkObj { shell : Widget; obj_items : list ref; obj_parent : option ref }.

(** The objects, the next free reference, and [Widget._thread_local]:
    [None], or the [wstack] of the local, its top last. *)
Record Heap := mkHeap { objs : ref -> Obj; next : ref; wstack : option (list ref) }.

Definition fresh_obj : Obj :=
  {| shell := PlainWidget Widget_init; obj_items := []; obj_parent := None |}.

Definition empty : Heap :=
  {| objs := fun _ => fresh_obj; next := 0%nat; wstack := None |}.

Definition store (h : Heap) (r : ref) (o : Obj) : Heap :=
  {| objs := fun r' => if Nat.eqb r' r then o else objs h r';
     next := next h; wstack := wstack h |}.

(** [Widget.get_current_widget]: [stk[-1]] *)
Definition get_current_widget (h : Heap) : Try (option ref) :=
  match wstack h with
  | None => Return None
  | Some stk =>
      match rev stk with
      | top :: _ => Return (Some top)
      | [] => Throw IndexError
      end
  end.

(** [Widget.set_parent] *)
Definition set_parent (h : Heap) (self : ref) (parent : option ref) : Heap :=
  let o := objs h self in
  store h self {| shell := shell o; obj_items := obj_items o; obj_parent := parent |}.

(** [add_item]: [Frame] (and so [Canvas]), [HSplit], [VSplit] and [Grid]
    append the item; the other classes have [Widget.add_item], which
    raises. *)
Definition add_item (h : Heap) (self item : ref) : Try Heap :=
  match shell (objs h self) with
  | Frame _ _ | HSplit _ _ _ | VSplit _ _ _ | Grid _ _ _ =>
      let h := set_parent h item (Some self) in
      let o := objs h self in
      Return (store h self {| shell := shell o; obj_items := obj_items o ++ [item];
                              obj_parent := obj_parent o |})
  | _ => Throw NotImplementedError
  end.

(** The constructor of a widget class: [Widget.__init__] makes the object
    and adds it to the current widget, if there is one; the rest of the
    [__init__] of the class ([init], which may raise) sets the items given
    and the fields. *)
Definition construct (h : Heap) (items : list ref) (init : Res Widget)
    : Try (Heap * ref) :=
  let self := next h in
  let h := {| objs := objs (store h self fresh_obj); next := S self;
              wstack := wstack h |} in
  cur <-- get_current_widget h ;;
  h <-- match cur with
        | Some parent => add_item h parent self
        | None => Return h
        end ;;
  let h := fold_left (fun h item => set_parent h item (Some self)) items h in
  wd <-- try_of init ;;
  let o := objs h self in
  Return (store h self {| shell := wd; obj_items := items; obj_parent := obj_parent o |},
          self).

(** [Widget.__enter__] *)
Definition enter (h : Heap) (self : ref) : Heap :=
  {| objs := objs h; next := next h;
     wstack := Some (match wstack h with Some stk => stk | None => [] end ++ [self]) |}.

(** [Widget.__exit__] *)
Definition exit (h : Heap) (self : ref) : Try Heap :=
  match wstack h with
  | None => Throw (Builtin AssertionError)
  | Some stk =>
      match rev stk with
      | [] => Throw IndexError
      | top :: below =>
          if Nat.eqb top self then
            Return {| objs := objs h; next := next h;
                      wstack := match below with
                                | [] => None
                                | _ => Some (rev below)
                                end |}
          else Throw (Builtin AssertionError)
      end
  end.

(** [with self: body].  When the body raises, what it raised goes on: the
    [with] blocks inside it have popped what they pushed. *)
Definition with_ {A} (h : Heap) (self : ref) (body : Heap -> Try (Heap * A))
    : Try (Heap * A) :=
  '(h, a) <-- body (enter h self) ;;
  h <-- exit h self ;;
  Return (h, a).

(** A setter of [Widget] called on an object. *)
Definition update (h : Heap) (self : ref) (f : Attrs -> Attrs) : Heap :=
  let o := objs h self in
  store h self {| shell := map_attrs f (shell o); obj_items := obj_items o;
                  obj_parent := obj_parent o |}.

(** The tree under an object, as the measurement and the drawing walk it;
    [depth] bounds the walk. *)
Fixpoint reify (depth : nat) (h : Heap) (r : ref) : Res Widget :=
  match depth with
  | O => Raise Diverges
  | S d =>
      let o := objs h r in
      items <- sequence (map (reify d h) (obj_items o)) ;;
      Ok (match shell o with
          | Frame a _ => Frame a items
          | HSplit a c _ => HSplit a c items
          | VSplit a c _ => VSplit a c items
          | Grid a c _ => Grid a c items
          | leaf => leaf
          end)
  end.

End Ctx.

(* ===================================================================== *)
(** ** Concatenating images ([utils/__init__.py])                           *)
(* ===================================================================== *)

(** [math.sqrt] of an int and [math.ceil] of a float. *)
Definition math_sqrt (n : Z) : Res float :=
  if n <? 0 then Raise ValueError else Ok (sqrt (float_of_Z n)).

Definition math_ceil (f : float) : Res Z :=
  match Prim2SF f with
  | S754_zero _ => Ok 0
  | S754_finite s m e =>
      if 0 <=? e then Ok (if s then - (Z.pos m * 2 ^ e) else Z.pos m * 2 ^ e)
      else
        let q := Z.pos m / 2 ^ (- e) in
        Ok (if s then - q
            else if Z.pos m mod 2 ^ (- e) =? 0 then q else q + 1)
  | S754_infinity _ => Raise OverflowError
  | S754_nan => Raise ValueError
  end.

(** [int(math.ceil(math.sqrt(n)))] *)
Definition col_num_of (n : Z) : Res Z :=
  f <- math_sqrt n ;; math_ceil f.

(** The pastes of the loop of mode 'v' ([y += img.height]) and of mode 'h'
    ([x += img.width]). *)
Fixpoint paste_down (images : list Size) (y : Z) : list Paste :=
  match images with
  | [] => []
  | img :: rest => {| paste_pos := (0, y); paste_size := img |} :: paste_down rest (y + snd img)
  end.

Fixpoint paste_right (images : list Size) (x : Z) : list Paste :=
  match images with
  | [] => []
  | img :: rest => {| paste_pos := (x, 0); paste_size := img |} :: paste_right rest (x + fst img)
  end.

(** Mode 'v': the images (their sizes) scaled to the largest width, the
    new image and the pastes made on it. *)
Definition concat_v (images : list Size) : Res (Image * list Paste) :=
  max_w <- py_max_list (map fst images) ;;
  images <- sequence
              (map (fun img =>
                      if fst img =? max_w then Ok img
                      else
                        f <- py_truediv (snd img * max_w) (fst img) ;;
                        nh <- py_int f ;;
                        Image_resize img (max_w, nh))
                   images) ;;
  ret <- Image_new RGBA (max_w, py_sum (map snd images)) ;;
  Ok (ret, paste_down images 0).

(** Mode 'h' *)
Definition concat_h (images : list Size) : Res (Image * list Paste) :=
  max_h <- py_max_list (map snd images) ;;
  images <- sequence
              (map (fun img =>
                      if snd img =? max_h then Ok img
                      else
                        f <- py_truediv (fst img * max_h) (snd img) ;;
                        nw <- py_int f ;;
                        Image_resize img (nw, max_h))
                   images) ;;
  ret <- Image_new RGBA (py_sum (map fst images), max_h) ;;
  Ok (ret, paste_right images 0).

Section Concat.

Variable get_text_width : TextStyle.t -> str -> Z.

(** The loop [for img in images: ImageBox(img)] *)
Definition add_image_boxes (images : list Size) (h : Ctx.Heap) : Try Ctx.Heap :=
  fold_left
    (fun acc img =>
       h <-- acc ;;
       '(h, _) <-- Ctx.construct h [] (ImageBox_init img None None) ;;
       Return h)
    images (Return h).

(** Mode 'g', the two [with] blocks: a canvas around a grid of image
    boxes ([bg=FillBg(WHITE)] is a drawing primitive). *)
Definition concat_g_canvas (images : list Size) (h : Ctx.Heap)
    : Try (Ctx.Heap * Ctx.ref) :=
  '(h, canvas) <-- Ctx.construct h [] (Ok (Canvas_init None None)) ;;
  '(h, _) <-- Ctx.with_ h canvas
                (fun h =>
                   col_num <-- try_of (col_num_of (len images)) ;;
                   '(h, grid) <-- Ctx.construct h []
                                    (Grid_init [] None (Some col_num) "fixed" "c" 0 0 false) ;;
                   Ctx.with_ h grid
                     (fun h => h <-- add_image_boxes images h ;; Return (h, tt))) ;;
  Return (h, canvas).

(** Mode 'g': [canvas.get_img()] of that canvas. *)
Definition concat_g (fuel : nat) (images : list Size) (h : Ctx.Heap)
    : Try (Ctx.Heap * Image) :=
  '(h, canvas) <-- concat_g_canvas images h ;;
  tree <-- try_of (Ctx.reify fuel h canvas) ;;
  img <-- try_of (snd (get_img get_text_width fuel tree None)) ;;
  Return (h, img).

(** [concat_images(images, mode)] *)
Definition concat_images (fuel : nat) (images : list Size) (mode : string) (h : Ctx.Heap)
    : Try (Ctx.Heap * Image) :=
  if String.eqb mode "v" then
    '(ret, _) <-- try_of (concat_v images) ;; Return (h, ret)
  else if String.eqb mode "h" then
    '(ret, _) <-- try_of (concat_h images) ;; Return (h, ret)
  else if String.eqb mode "g" then concat_g fuel images h
  else Throw PlainException.

End Concat.

(** Five images in a grid: three columns, two rows of cells 30 by 40. *)
Example concat_five_in_grid :
  match concat_images (mono_width 8) 3 [(10, 40); (30, 20); (20, 20); (5, 5); (30, 40)] "g"
          Ctx.empty with
  | Return (h, img) => Some (im_size img, Ctx.wstack h, Ctx.next h)
  | Throw _ => None
  end = Some ((90, 80), None, 7%nat).
Proof. vm_compute. reflexivity. Qed.

(* ===================================================================== *)
(** ** What the [with] stack builds                                        *)
(* ===================================================================== *)

Definition is_container (wd : Widget) : bool :=
  match wd with
  | Frame _ _ | HSplit _ _ _ | VSplit _ _ _ | Grid _ _ _ => true
  | _ => false
  end.

Lemma store_same h r o : Ctx.objs (Ctx.store h r o) r = o.
Proof. cbn. rewrite Nat.eqb_refl. reflexivity. Qed.

Lemma store_other h r o r' : r' <> r -> Ctx.objs (Ctx.store h r o) r' = Ctx.objs h r'.
Proof. intros Hne. cbn. apply Nat.eqb_neq in Hne. rewrite Hne. reflexivity. Qed.

Lemma add_item_spec h self item :
  is_container (Ctx.shell (Ctx.objs h self)) = true -> self <> item ->
  exists h',
    Ctx.add_item h self item = Return h'
    /\ Ctx.objs h' self
       = {| Ctx.shell := Ctx.shell (Ctx.objs h self);
            Ctx.obj_items := Ctx.obj_items (Ctx.objs h self) ++ [item];
            Ctx.obj_parent := Ctx.obj_parent (Ctx.objs h self) |}
    /\ Ctx.objs h' item
       = {| Ctx.shell := Ctx.shell (Ctx.objs h item);
            Ctx.obj_items := Ctx.obj_items (Ctx.objs h item);
            Ctx.obj_parent := Some self |}
    /\ (forall r, r <> self -> r <> item -> Ctx.objs h' r = Ctx.objs h r)
    /\ Ctx.next h' = Ctx.next h /\ Ctx.wstack h' = Ctx.wstack h.
Proof.
  intros Hc Hne. unfold Ctx.add_item.
  assert (Hrun : exists h', 
             (let h0 := Ctx.set_parent h item (Some self) in
              let o := Ctx.objs h0 self in
              Ctx.store h0 self
                {| Ctx.shell := Ctx.shell o; Ctx.obj_items := Ctx.obj_items o ++ [item];
                   Ctx.obj_parent := Ctx.obj_parent o |}) = h'
             /\ Ctx.add_item h self item = Return h').
  { eexists. split; [reflexivity|]. unfold Ctx.add_item.
    destruct (Ctx.shell (Ctx.objs h self)); try discriminate Hc; reflexivity. }
  destruct Hrun as (h' & <- & Hrun). eexists. split; [exact Hrun|]. cbv zeta.
  unfold Ctx.set_parent.
  split; [|split; [|split; [|split]]].
  - rewrite store_same, store_other by exact Hne. reflexivity.
  - rewrite store_other by (intros E; apply Hne; symmetry; exact E).
    rewrite store_same. reflexivity.
  - intros r H1 H2. rewrite !store_other by assumption. reflexivity.
  - reflexivity.
  - reflexivity.
Qed.

Lemma add_item_leaf h self item :
  is_container (Ctx.shell (Ctx.objs h self)) = false ->
  Ctx.add_item h self item = Throw NotImplementedError.
Proof.
  intros Hc. unfold Ctx.add_item.
  destruct (Ctx.shell (Ctx.objs h self)); try discriminate Hc; reflexivity.
Qed.

(** The constructor with no items given, under a current widget that is a
    container, or under none. *)
Lemma construct_spec h cur init wd :
  Ctx.get_current_widget h = Return cur ->
  (forall p, cur = Some p ->
             is_container (Ctx.shell (Ctx.objs h p)) = true /\ p <> Ctx.next h) ->
  init = Ok wd ->
  exists h',
    Ctx.construct h [] init = Return (h', Ctx.next h)
    /\ Ctx.objs h' (Ctx.next h)
       = {| Ctx.shell := wd; Ctx.obj_items := []; Ctx.obj_parent := cur |}
    /\ (forall p, cur = Some p ->
          Ctx.objs h' p
          = {| Ctx.shell := Ctx.shell (Ctx.objs h p);
               Ctx.obj_items := Ctx.obj_items (Ctx.objs h p) ++ [Ctx.next h];
               Ctx.obj_parent := Ctx.obj_parent (Ctx.objs h p) |})
    /\ (forall r, r <> Ctx.next h -> cur <> Some r -> Ctx.objs h' r = Ctx.objs h r)
    /\ Ctx.next h' = S (Ctx.next h) /\ Ctx.wstack h' = Ctx.wstack h.
Proof.
  intros Hcur Hpar ->. unfold Ctx.construct.
  set (h0 := {| Ctx.objs := Ctx.objs (Ctx.store h (Ctx.next h) Ctx.fresh_obj);
                Ctx.next := S (Ctx.next h); Ctx.wstack := Ctx.wstack h |}).
  assert (Hcur0 : Ctx.get_current_widget h0 = Return cur) by exact Hcur.
  assert (H0same : Ctx.objs h0 (Ctx.next h) = Ctx.fresh_obj) by apply store_same.
  assert (H0other : forall r, r <> Ctx.next h -> Ctx.objs h0 r = Ctx.objs h r)
    by (intros r Hr; apply store_other; exact Hr).
  rewrite Hcur0. cbn [try_bind].
  destruct cur as [p|].
  - destruct (Hpar p eq_refl) as [Hc Hne].
    destruct (add_item_spec h0 p (Ctx.next h)) as (h1 & Hadd & Hp & Hself & Hrest & Hn & Hw).
    + rewrite H0other by exact Hne. exact Hc.
    + exact Hne.
    + rewrite Hadd. cbn [try_bind fold_left try_of].
      eexists. split; [reflexivity|].
      split; [|split; [|split; [|split]]].
      * rewrite store_same, Hself. reflexivity.
      * intros p' [= <-]. rewrite store_other by exact Hne.
        rewrite Hp, H0other by exact Hne. reflexivity.
      * intros r Hr Hrp. rewrite store_other by exact Hr.
        rewrite Hrest; [apply H0other; exact Hr | | exact Hr].
        intros ->. apply Hrp. reflexivity.
      * cbn [Ctx.next Ctx.store]. rewrite Hn. reflexivity.
      * cbn [Ctx.wstack Ctx.store]. rewrite Hw. reflexivity.
  - cbn [try_bind fold_left try_of]. eexists. split; [reflexivity|].
    split; [|split; [|split; [|split]]].
    + rewrite store_same, H0same. reflexivity.
    + intros p [=].
    + intros r Hr _. rewrite store_other by exact Hr. apply H0other. exact Hr.
    + reflexivity.
    + reflexivity.
Qed.

Lemma construct_in_leaf h p items init :
  Ctx.get_current_widget h = Return (Some p) ->
  is_container (Ctx.shell (Ctx.objs h p)) = false -> p <> Ctx.next h ->
  Ctx.construct h items init = Throw NotImplementedError.
Proof.
  intros Hcur Hc Hne. unfold Ctx.construct.
  set (h0 := {| Ctx.objs := Ctx.objs (Ctx.store h (Ctx.next h) Ctx.fresh_obj);
                Ctx.next := S (Ctx.next h); Ctx.wstack := Ctx.wstack h |}).
  assert (Hcur0 : Ctx.get_current_widget h0 = Return (Some p)) by exact Hcur.
  rewrite Hcur0. cbn [try_bind].
  rewrite add_item_leaf; [reflexivity|].
  unfold h0. cbn [Ctx.objs]. rewrite store_other by exact Hne. exact Hc.
Qed.

Lemma current_after_enter h self :
  Ctx.get_current_widget (Ctx.enter h self) = Return (Some self).
Proof.
  unfold Ctx.get_current_widget, Ctx.enter. cbn [Ctx.wstack].
  rewrite rev_unit. reflexivity.
Qed.

Lemma exit_after_enter h self :
  Ctx.wstack h <> Some [] ->
  Ctx.exit (Ctx.enter h self) self
  = Return {| Ctx.objs := Ctx.objs h; Ctx.next := Ctx.next h; Ctx.wstack := Ctx.wstack h |}.
Proof.
  intros Hne. unfold Ctx.exit, Ctx.enter. cbn [Ctx.wstack Ctx.objs Ctx.next].
  rewrite rev_unit, Nat.eqb_refl.
  destruct (Ctx.wstack h) as [stk|]; [|reflexivity].
  destruct (rev stk) as [|t b] eqn:Er.
  - exfalso. apply Hne. f_equal.
    rewrite <- (rev_involutive stk), Er. reflexivity.
  - rewrite <- Er, rev_involutive. reflexivity.
Qed.

(** [int(math.ceil(math.sqrt(n)))] is the integer ceiling of the square
    root, checked for every [n] from 1 to 4096. *)
Lemma col_num_of_small n :
  1 <= n <= 4096 -> col_num_of n = Ok (Z.sqrt_up n).
Proof.
  intros Hn.
  assert (Hall : forallb
                   (fun i => match col_num_of (i + 1) with
                             | Ok c => c =? Z.sqrt_up (i + 1)
                             | Raise _ => false
                             end) (range 4096) = true) by (vm_compute; reflexivity).
  rewrite forallb_forall in Hall.
  specialize (Hall (n - 1) (in_range 4096 (n - 1) ltac:(lia))).
  replace (n - 1 + 1) with n in Hall by lia.
  destruct (col_num_of n) as [c|e]; [|discriminate Hall].
  apply Z.eqb_eq in Hall. rewrite Hall. reflexivity.
Qed.

(** The image box [ImageBox(img)] makes of an image. *)
Definition image_box (img : Size) : Widget :=
  ImageBox (set_padding (set_margin Widget_init (inl 0)) (inl 0))
    {| image := img; image_size_mode := Original |}.

Lemma ImageBox_init_default img : ImageBox_init img None None = Ok (image_box img).
Proof. reflexivity. Qed.

Section ConcatResults.

Variable get_text_width : TextStyle.t -> str -> Z.

(** The loop adds one image box per image, in order, to the grid on top
    of the stack, and touches nothing else. *)
Lemma add_image_boxes_spec images : forall h stk grid below,
  Ctx.wstack h = Some stk -> rev stk = grid :: below ->
  is_container (Ctx.shell (Ctx.objs h grid)) = true -> (grid < Ctx.next h)%nat ->
  exists h' refs,
    add_image_boxes images h = Return h'
    /\ Forall2 (fun r img =>
                  Ctx.objs h' r
                  = {| Ctx.shell := image_box img; Ctx.obj_items := [];
                       Ctx.obj_parent := Some grid |}) refs images
    /\ Ctx.objs h' grid
       = {| Ctx.shell := Ctx.shell (Ctx.objs h grid);
            Ctx.obj_items := Ctx.obj_items (Ctx.objs h grid) ++ refs;
            Ctx.obj_parent := Ctx.obj_parent (Ctx.objs h grid) |}
    /\ (forall r, (r < Ctx.next h)%nat -> r <> grid -> Ctx.objs h' r = Ctx.objs h r)
    /\ (Ctx.next h <= Ctx.next h')%nat
    /\ Ctx.wstack h' = Ctx.wstack h.
Proof.
  induction images as [|img rest IH]; intros h stk grid below Hw Hrev Hc Hlt.
  - exists h, []. split; [reflexivity|]. split; [constructor|].
    split; [rewrite app_nil_r; destruct (Ctx.objs h grid); reflexivity|].
    split; [auto|]. split; [lia | reflexivity].
  - assert (Hcur : Ctx.get_current_widget h = Return (Some grid))
      by (unfold Ctx.get_current_widget; rewrite Hw, Hrev; reflexivity).
    destruct (construct_spec h (Some grid) (ImageBox_init img None None) (image_box img) Hcur)
      as (h1 & Hrun & Hnew & Hpar & Hrest & Hn & Hw1).
    + intros p [= <-]. split; [exact Hc | lia].
    + apply ImageBox_init_default.
    + specialize (Hpar grid eq_refl).
      destruct (IH h1 stk grid below) as (h' & refs & Hloop & Hall & Hg & Hkeep & Hnext & Hw').
      * rewrite Hw1. exact Hw.
      * exact Hrev.
      * rewrite Hpar. exact Hc.
      * rewrite Hn. lia.
      * exists h', (Ctx.next h :: refs).
        split; [|split; [|split; [|split; [|split]]]].
        -- unfold add_image_boxes in *. cbn [fold_left try_bind]. rewrite Hrun.
           cbn [try_bind]. exact Hloop.
        -- constructor; [|exact Hall].
           rewrite Hkeep; [exact Hnew | rewrite Hn; lia | lia].
        -- rewrite Hg, Hpar. cbn [Ctx.shell Ctx.obj_items Ctx.obj_parent].
           rewrite <- app_assoc. reflexivity.
        -- intros r Hr Hrg. rewrite Hkeep; [|rewrite Hn; lia|exact Hrg].
           apply Hrest; [lia|]. intros [= E]. apply Hrg. symmetry. exact E.
        -- rewrite Hn in Hnext. lia.
        -- rewrite Hw'. exact Hw1.
Qed.

Lemma sequence_Forall2 {A B} (f : A -> Res B) (xs : list A) (ys : list B) :
  Forall2 (fun x y => f x = Ok y) xs ys -> sequence (map f xs) = Ok ys.
Proof.
  induction 1 as [|x y xs ys Hxy _ IH]; cbn [map sequence bind]; [reflexivity|].
  rewrite Hxy. cbn [bind]. rewrite IH. reflexivity.
Qed.

Lemma Forall2_map_r {A B C} (R : A -> C -> Prop) (g : B -> C) (xs : list A) (ys : list B) :
  Forall2 (fun x y => R x (g y)) xs ys -> Forall2 R xs (map g ys).
Proof. induction 1; cbn [map]; constructor; assumption. Qed.

Variable fuel : nat.

Abbreviation self_size := (_get_self_size get_text_width fuel).
Abbreviation content_size := (_get_content_size get_text_width fuel).

(** A widget with no size set, no margin, no padding and an empty cache
    measures as its content. *)
Lemma self_size_of_bare a cw ch :
  w a = None -> h a = None ->
  hmargin a = 0 -> vmargin a = 0 -> hpadding a = 0 -> vpadding a = 0 ->
  _calc_w a = None ->
  self_size_of a (Ok (cw, ch)) = Ok (cw, ch).
Proof.
  intros Hw Hh Hhm Hvm Hhp Hvp Hc.
  rewrite self_size_of_uncached by (rewrite Hc; reflexivity).
  cbn [bind]. cbv zeta. rewrite Hw, Hh, Hhm, Hvm, Hhp, Hvp.
  replace (cw >? cw) with false by (symmetry; rewrite Z.gtb_ltb; apply Z.ltb_irrefl).
  replace (ch >? ch) with false by (symmetry; rewrite Z.gtb_ltb; apply Z.ltb_irrefl).
  cbn [orb]. f_equal. f_equal; lia.
Qed.

Lemma image_box_self_size img : self_size (image_box img) = Ok img.
Proof.
  rewrite self_size_unfold. destruct img as [iw ih].
  apply self_size_of_bare; reflexivity.
Qed.

Lemma Frame_content_size_Ok (sizes : list Size) (aw ah : Z) :
  fold_left
    (fun acc it =>
       '(sw, sh) <- acc ;;
       '(iw, ih) <- it ;;
       Ok (Z.max sw iw, Z.max sh ih))
    (map (@Ok Size) sizes) (Ok (aw, ah))
  = Ok (fold_left Z.max (map fst sizes) aw, fold_left Z.max (map snd sizes) ah).
Proof.
  revert aw ah. induction sizes as [|[iw ih] sizes IH]; intros aw ah;
    cbn [map fold_left bind fst snd]; [reflexivity | apply IH].
Qed.

(** The widest and the highest of the images, 0 with no image. *)
Definition widest (images : list Size) : Z := fold_left Z.max (map fst images) 0.
Definition highest (images : list Size) : Z := fold_left Z.max (map snd images) 0.

Lemma widest_nonneg images : 0 <= widest images.
Proof. unfold widest. destruct (fold_max_bounds (map fst images) 0) as [H _]. exact H. Qed.

Lemma highest_nonneg images : 0 <= highest images.
Proof. unfold highest. destruct (fold_max_bounds (map snd images) 0) as [H _]. exact H. Qed.

(** The grid and the canvas [concat_images] builds in mode 'g'. *)
Definition concat_grid_cfg (col_num : Z) : GridCfg :=
  {| row_count := None; col_count := Some col_num; hsep := 0; vsep := 0;
     vertical := false;
     grid_items := {| item_size_mode := Fixed; item_halign := HC; item_valign := VC |} |}.

Definition concat_tree (col_num : Z) (images : list Size) : Widget :=
  Frame (attrs (Canvas_init None None))
    [Grid Widget_init (concat_grid_cfg col_num) (map image_box images)].

Lemma concat_grid_init col_num :
  Grid_init [] None (Some col_num) "fixed" "c" 0 0 false
  = Ok (Grid Widget_init (concat_grid_cfg col_num) []).
Proof. reflexivity. Qed.

Lemma forall_widgets_intro (P : Widget -> Prop) wd :
  P wd -> Forall (forall_widgets P) (items_of wd) -> forall_widgets P wd.
Proof.
  assert (Hgo : forall its,
             Forall (forall_widgets P) its ->
             (fix go (l : list Widget) : Prop :=
                match l with
                | [] => True
                | x :: r => forall_widgets P x /\ go r
                end) its).
  { induction 1; [exact I | split; assumption]. }
  destruct wd as [a|a its|a c its|a c its|a c its|a c|a c|a];
    cbn [forall_widgets items_of]; intros HP Hits;
    (split; [exact HP | first [exact I | apply Hgo; exact Hits]]).
Qed.

Lemma concat_grid_sizes col_num images :
  0 < col_num ->
  let rows := (len images + col_num - 1) / col_num in
  content_size (Grid Widget_init (concat_grid_cfg col_num) (map image_box images))
  = Ok (col_num * widest images + 0, rows * highest images + 0)
  /\ self_size (Grid Widget_init (concat_grid_cfg col_num) (map image_box images))
     = Ok (col_num * widest images + 0, rows * highest images + 0).
Proof.
  intros Hcol rows.
  assert (Hc : content_size (Grid Widget_init (concat_grid_cfg col_num) (map image_box images))
               = Ok (col_num * widest images + 0, rows * highest images + 0)).
  { unfold _get_content_size. cbn [content_size_with].
    unfold Grid_content_size, Grid_get_grid_rc_and_size, grid_rc.
    cbn [row_count col_count concat_grid_cfg truthy andb orb negb assert_ bind
         grid_items item_size_mode hsep vsep].
    replace (col_num =? 0) with false by (symmetry; apply Z.eqb_neq; lia).
    cbn [negb andb orb assert_ bind].
    rewrite map_map.
    rewrite (map_ext _ (fun img => Ok img) image_box_self_size).
    change (map (fun img : Size => Ok img) images) with (map (@Ok Size) images).
    unfold Frame_content_size. rewrite (Frame_content_size_Ok images 0 0).
    cbn [bind]. unfold len. rewrite !length_map. reflexivity. }
  split; [exact Hc|].
  rewrite self_size_unfold. fold (content_size (Grid Widget_init (concat_grid_cfg col_num) (map image_box images))).
  rewrite Hc. apply self_size_of_bare; reflexivity.
Qed.

(** The image [get_img] makes of the tree: [col_num] cells a row, every
    cell as wide as the widest image and as high as the highest. *)
Lemma concat_tree_img col_num images :
  0 < col_num ->
  let rows := (len images + col_num - 1) / col_num in
  let size := (col_num * widest images, rows * highest images) in
  get_img get_text_width fuel (concat_tree col_num images) None
  = if fst size * snd size <? 4096 * 4096
    then ([ImageNew RGBA size], Ok {| im_mode := RGBA; im_size := size |})
    else ([], Raise AssertionError).
Proof.
  intros Hcol rows size.
  destruct (concat_grid_sizes col_num images Hcol) as [Hgc Hgs]. fold rows in Hgc, Hgs.
  pose proof (widest_nonneg images) as Hw. pose proof (highest_nonneg images) as Hh.
  assert (Hrows : 0 <= rows).
  { unfold rows. apply Z.div_pos; [|lia]. pose proof (len_nonneg images). lia. }
  assert (Hcc : content_size (concat_tree col_num images) = Ok size).
  { unfold _get_content_size, concat_tree. cbn [content_size_with map].
    unfold Frame_content_size. cbn [fold_left bind].
    fold (self_size (Grid Widget_init (concat_grid_cfg col_num) (map image_box images))).
    rewrite Hgs. cbn [bind]. unfold size. f_equal. f_equal; nia. }
  assert (Hcs : self_size (concat_tree col_num images) = Ok size).
  { rewrite self_size_unfold.
    fold (content_size (concat_tree col_num images)). rewrite Hcc.
    unfold size. apply self_size_of_bare; reflexivity. }
  assert (Hd : forall_widgets (drawable get_text_width fuel) (concat_tree col_num images)).
  { apply forall_widgets_intro.
    - split; [eauto|]. split; [eauto|]. split; [constructor|]. split; exact I.
    - cbn [items_of concat_tree]. constructor; [|constructor].
      apply forall_widgets_intro.
      + split; [eauto|]. split; [eauto|]. split; [constructor|]. split; [|exact I].
        cbn [grid_count_positive concat_grid_cfg row_count col_count]. exact Hcol.
      + cbn [items_of]. apply Forall_forall. intros wd Hwd.
        apply in_map_iff in Hwd. destruct Hwd as (img & <- & _).
        apply forall_widgets_intro; [|constructor].
        split; [exists img; reflexivity|].
        split; [exists img; apply image_box_self_size|].
        split; [constructor|]. split; [exact I|].
        intros sz Hsz. left. cbn in Hsz. injection Hsz as <-. reflexivity. }
  unfold get_img. rewrite Hcs.
  destruct (fst size * snd size <? 4096 * 4096); cbn [negb]; [|reflexivity].
  rewrite (Image_new_size RGBA size) by (unfold size; cbn [fst snd]; nia).
  rewrite (draw_returns get_text_width fuel _ Hd) by exact Hcs.
  reflexivity.
Qed.

(** The objects the two [with] blocks of mode 'g' leave: the canvas holds
    the grid, the grid holds one image box per image, in order, and the
    stack of current widgets is as it was, empty. *)
Lemma concat_g_canvas_spec images h col_num :
  Ctx.wstack h = None ->
  col_num_of (len images) = Ok col_num ->
  exists h' refs,
    concat_g_canvas images h = Return (h', Ctx.next h)
    /\ Ctx.wstack h' = None
    /\ Ctx.objs h' (Ctx.next h)
       = {| Ctx.shell := Canvas_init None None; Ctx.obj_items := [S (Ctx.next h)];
            Ctx.obj_parent := None |}
    /\ Ctx.objs h' (S (Ctx.next h))
       = {| Ctx.shell := Grid Widget_init (concat_grid_cfg col_num) [];
            Ctx.obj_items := refs; Ctx.obj_parent := Some (Ctx.next h) |}
    /\ Forall2 (fun r img =>
                  Ctx.objs h' r
                  = {| Ctx.shell := image_box img; Ctx.obj_items := [];
                       Ctx.obj_parent := Some (S (Ctx.next h)) |}) refs images.
Proof.
  intros Hw Hcol. unfold concat_g_canvas.
  (* the canvas *)
  destruct (construct_spec h None (Ok (Canvas_init None None)) (Canvas_init None None))
    as (h1 & Hrun1 & Hcanvas1 & _ & _ & Hn1 & Hw1).
  { unfold Ctx.get_current_widget. rewrite Hw. reflexivity. }
  { intros p [=]. }
  { reflexivity. }
  rewrite Hrun1. cbn [try_bind]. set (canvas := Ctx.next h) in *.
  unfold Ctx.with_ at 1.
  rewrite Hcol. cbn [try_of try_bind].
  (* the grid, inside the canvas *)
  destruct (construct_spec (Ctx.enter h1 canvas) (Some canvas)
              (Grid_init [] None (Some col_num) "fixed" "c" 0 0 false)
              (Grid Widget_init (concat_grid_cfg col_num) []))
    as (h3 & Hrun3 & Hgrid3 & Hcanvas3 & _ & Hn3 & Hw3).
  { apply current_after_enter. }
  { intros p [= <-]. cbn [Ctx.enter Ctx.objs Ctx.next]. rewrite Hcanvas1, Hn1.
    split; [reflexivity | lia]. }
  { apply concat_grid_init. }
  specialize (Hcanvas3 canvas eq_refl).
  rewrite Hrun3. cbn [try_bind].
  cbn [Ctx.enter Ctx.objs Ctx.next Ctx.wstack] in Hgrid3, Hcanvas3, Hn3, Hw3 |- *.
  rewrite Hn1 in *. rewrite Hw1, Hw in Hw3. cbn [app] in Hw3.
  rewrite Hcanvas1 in Hcanvas3.
  cbn [Ctx.shell Ctx.obj_items Ctx.obj_parent app] in Hcanvas3.
  set (grid := S canvas) in *.
  (* the image boxes, inside the grid *)
  unfold Ctx.with_ at 1.
  destruct (add_image_boxes_spec images (Ctx.enter h3 grid) [canvas; grid] grid [canvas])
    as (h5 & refs & Hloop & Hall & Hgrid5 & Hkeep & _ & Hw5).
  { cbn [Ctx.enter Ctx.wstack]. rewrite Hw3. reflexivity. }
  { reflexivity. }
  { cbn [Ctx.enter Ctx.objs]. rewrite Hgrid3. reflexivity. }
  { cbn [Ctx.enter Ctx.next]. rewrite Hn3. unfold grid. lia. }
  rewrite Hloop. cbn [try_bind].
  cbn [Ctx.enter Ctx.objs Ctx.next Ctx.wstack] in Hgrid5, Hkeep, Hw5.
  rewrite Hw3 in Hw5. cbn [app] in Hw5.
  rewrite Hgrid3 in Hgrid5. cbn [Ctx.shell Ctx.obj_items Ctx.obj_parent app] in Hgrid5.
  assert (Hcanvas5 : Ctx.objs h5 canvas = Ctx.objs h3 canvas).
  { apply Hkeep; [rewrite Hn3; unfold grid; lia | unfold grid; lia]. }
  (* the two exits *)
  unfold Ctx.exit at 1. rewrite Hw5. cbn [rev app].
  rewrite Nat.eqb_refl. cbn [try_bind].
  unfold Ctx.exit. cbn [Ctx.wstack rev app]. rewrite Nat.eqb_refl. cbn [try_bind].
  eexists. exists refs. split; [reflexivity|].
  cbn [Ctx.wstack Ctx.objs].
  split; [reflexivity|]. split; [rewrite Hcanvas5; exact Hcanvas3|].
  split; [exact Hgrid5 | exact Hall].
Qed.

(** The tree under the canvas. *)
Lemma concat_g_tree h canvas grid refs col_num images d :
  Ctx.objs h canvas
  = {| Ctx.shell := Canvas_init None None; Ctx.obj_items := [grid];
       Ctx.obj_parent := None |} ->
  Ctx.objs h grid
  = {| Ctx.shell := Grid Widget_init (concat_grid_cfg col_num) [];
       Ctx.obj_items := refs; Ctx.obj_parent := Some canvas |} ->
  Forall2 (fun r img =>
             Ctx.objs h r
             = {| Ctx.shell := image_box img; Ctx.obj_items := [];
                  Ctx.obj_parent := Some grid |}) refs images ->
  Ctx.reify (S (S (S d))) h canvas = Ok (concat_tree col_num images).
Proof.
  intros Hcanvas Hgrid Hall.
  assert (Hboxes : sequence (map (Ctx.reify (S d) h) refs) = Ok (map image_box images)).
  { apply sequence_Forall2, Forall2_map_r.
    eapply Forall2_impl; [|exact Hall]. intros r img Hr.
    cbn [Ctx.reify]. rewrite Hr. reflexivity. }
  assert (Hg : Ctx.reify (S (S d)) h grid
               = Ok (Grid Widget_init (concat_grid_cfg col_num) (map image_box images))).
  { change (Ctx.reify (S (S d)) h grid)
      with (let o := Ctx.objs h grid in
            items <- sequence (map (Ctx.reify (S d) h) (Ctx.obj_items o)) ;;
            Ok (match Ctx.shell o with
                | Frame a _ => Frame a items
                | HSplit a c _ => HSplit a c items
                | VSplit a c _ => VSplit a c items
                | Grid a c _ => Grid a c items
                | leaf => leaf
                end)).
    cbv zeta. rewrite Hgrid. cbn [Ctx.obj_items Ctx.shell]. rewrite Hboxes. reflexivity. }
  change (Ctx.reify (S (S (S d))) h canvas)
    with (let o := Ctx.objs h canvas in
          items <- sequence (map (Ctx.reify (S (S d)) h) (Ctx.obj_items o)) ;;
          Ok (match Ctx.shell o with
              | Frame a _ => Frame a items
              | HSplit a c _ => HSplit a c items
              | VSplit a c _ => VSplit a c items
              | Grid a c _ => Grid a c items
              | leaf => leaf
              end)).
  cbv zeta. rewrite Hcanvas. cbn [Ctx.obj_items Ctx.shell map sequence].
  rewrite Hg. reflexivity.
Qed.

Lemma widest_bounds images :
  Forall (fun img => fst img <= widest images /\ snd img <= highest images) images.
Proof.
  destruct (fold_max_bounds (map fst images) 0) as (_ & Hw & _).
  destruct (fold_max_bounds (map snd images) 0) as (_ & Hh & _).
  rewrite Forall_map in Hw, Hh. fold (widest images) in Hw. fold (highest images) in Hh.
  rewrite Forall_forall in *. intros img Hin. split; [apply Hw | apply Hh]; exact Hin.
Qed.

Lemma concat_g_run images h col_num :
  Ctx.wstack h = None -> (3 <= fuel)%nat ->
  col_num_of (len images) = Ok col_num ->
  exists h',
    Ctx.wstack h' = None
    /\ concat_images get_text_width fuel images "g" h
       = (img <-- try_of (snd (get_img get_text_width fuel (concat_tree col_num images) None)) ;;
          Return (h', img)).
Proof.
  intros Hw Hfuel Hcol.
  destruct (concat_g_canvas_spec images h col_num Hw Hcol)
    as (h' & refs & Hrun & Hw' & Hcanvas & Hgrid & Hall).
  exists h'. split; [exact Hw'|].
  unfold concat_images.
  change (String.eqb "g" "v") with false. change (String.eqb "g" "h") with false.
  change (String.eqb "g" "g") with true. cbv iota.
  unfold concat_g. rewrite Hrun. cbn [try_bind].
  destruct fuel as [|[|[|d]]]; try lia.
  rewrite (concat_g_tree h' (Ctx.next h) (S (Ctx.next h)) refs col_num images d
             Hcanvas Hgrid Hall).
  reflexivity.
Qed.

(** X20. [concat_images(images, 'g')], called outside any [with] block,
    for 1 to 4096 images: the grid has [ceil(sqrt(n))] columns and as many
    rows as the images need; the image returned is RGBA, [columns] times
    the largest width wide and [rows] times the largest height high, so a
    cell holds any of the images; the stack of current widgets is empty
    again afterwards.  When that size has 4096 x 4096 pixels or more the
    call raises [AssertionError]. *)
Theorem concat_images_grid images h :
  Ctx.wstack h = None -> (3 <= fuel)%nat -> 1 <= len images <= 4096 ->
  let n := len images in
  let col_num := Z.sqrt_up n in
  let rows := (n + col_num - 1) / col_num in
  let size := (col_num * widest images, rows * highest images) in
  (col_num - 1) * (col_num - 1) < n <= col_num * col_num
  /\ (rows - 1) * col_num < n <= rows * col_num
  /\ Forall (fun img => fst img <= widest images /\ snd img <= highest images) images
  /\ (fst size * snd size < 4096 * 4096 ->
      exists h',
        concat_images get_text_width fuel images "g" h
        = Return (h', {| im_mode := RGBA; im_size := size |})
        /\ Ctx.wstack h' = None)
  /\ (4096 * 4096 <= fst size * snd size ->
      concat_images get_text_width fuel images "g" h = Throw (Builtin AssertionError)).
Proof.
  intros Hw Hfuel Hn n col_num rows size.
  pose proof (Z.sqrt_up_spec n ltac:(unfold n; lia)) as Hsq. cbv zeta in Hsq.
  fold col_num in Hsq. unfold Z.pred in Hsq.
  assert (Hcol : 0 < col_num) by (apply Z.sqrt_up_pos; unfold n; lia).
  destruct (ceil_div_bounds col_num n Hcol ltac:(unfold n; lia)) as (Hr1 & Hr2 & Hr3).
  fold rows in Hr1, Hr2, Hr3.
  split; [replace (col_num - 1) with (col_num + -1) by lia; exact Hsq|].
  split; [lia|]. split; [apply widest_bounds|].
  destruct (concat_g_run images h col_num Hw Hfuel (col_num_of_small n Hn)) as (h' & Hw' & Hrun).
  rewrite Hrun, (concat_tree_img col_num images Hcol).
  fold n. fold rows. fold size.
  split.
  - intros Hsmall.
    replace (fst size * snd size <? 4096 * 4096) with true
      by (symmetry; apply Z.ltb_lt; exact Hsmall).
    exists h'. split; [reflexivity | exact Hw'].
  - intros Hbig.
    replace (fst size * snd size <? 4096 * 4096) with false
      by (symmetry; apply Z.ltb_ge; exact Hbig).
    reflexivity.
Qed.

(** X21. The edges of [concat_images]: a mode other than 'v', 'h' and 'g'
    raises a plain [Exception] whatever the images; with no image, the modes
    'v' and 'h' raise [ValueError] (the [max] of nothing) and the mode 'g',
    outside any [with] block, raises [AssertionError] (a grid of 0
    columns). *)
Theorem concat_images_edges images mode h :
  (String.eqb mode "v" = false -> String.eqb mode "h" = false ->
   String.eqb mode "g" = false ->
   concat_images get_text_width fuel images mode h = Throw PlainException)
  /\ concat_images get_text_width fuel [] "v" h = Throw (Builtin ValueError)
  /\ concat_images get_text_width fuel [] "h" h = Throw (Builtin ValueError)
  /\ (Ctx.wstack h = None -> (3 <= fuel)%nat ->
      concat_images get_text_width fuel [] "g" h = Throw (Builtin AssertionError)).
Proof.
  split; [|split; [|split]].
  - intros Hv Hh Hg. unfold concat_images. rewrite Hv, Hh, Hg. reflexivity.
  - reflexivity.
  - reflexivity.
  - intros Hw Hfuel.
    destruct (concat_g_run [] h 0 Hw Hfuel eq_refl) as (h' & _ & Hrun).
    rewrite Hrun. reflexivity.
Qed.

End ConcatResults.

(** X20, witness: the five images of the example, three columns and two
    rows of cells 30 by 40. *)
Lemma concat_images_grid_witness :
  exists h',
    concat_images (mono_width 8) 3 [(10, 40); (30, 20); (20, 20); (5, 5); (30, 40)] "g"
      Ctx.empty
    = Return (h', {| im_mode := RGBA; im_size := (90, 80) |})
    /\ Ctx.wstack h' = None.
Proof.
  refine (proj1 (proj2 (proj2 (proj2
            (concat_images_grid (mono_width 8) 3
               [(10, 40); (30, 20); (20, 20); (5, 5); (30, 40)] Ctx.empty
               eq_refl _ _)))) _).
  - lia.
  - cbn. lia.
  - vm_compute. reflexivity.
Defined.

(** X21, witness: no image, in a grid. *)
Lemma concat_images_edges_witness :
  concat_images (mono_width 8) 3 [] "g" Ctx.empty = Throw (Builtin AssertionError).
Proof.
  refine (proj2 (proj2 (proj2 (concat_images_edges (mono_width 8) 3 [] "g" Ctx.empty)))
            eq_refl _).
  lia.
Defined.

(** X22. Inside [with p:] ([p] an object made before): a widget that is
    constructed becomes the last item of [p] and gets [p] as its parent when
    [p] is a [Frame] (or [Canvas]), [HSplit], [VSplit] or [Grid], and nothing
    else changes; when [p] is of another class ([TextBox], [ImageBox],
    [Spacer]) constructing any widget raises [NotImplementedError], before
    the checks of its own constructor.  Leaving the block gives the stack of
    current widgets back as it was; the [__exit__] of a widget that is not
    on top raises [AssertionError]. *)
Theorem widget_joins_current_widget (h : Ctx.Heap) (p : Ctx.ref) :
  p <> Ctx.next h -> Ctx.wstack h <> Some [] ->
  (is_container (Ctx.shell (Ctx.objs h p)) = true ->
   forall init wd, init = Ok wd ->
     exists h',
       Ctx.construct (Ctx.enter h p) [] init = Return (h', Ctx.next h)
       /\ Ctx.objs h' (Ctx.next h)
          = {| Ctx.shell := wd; Ctx.obj_items := []; Ctx.obj_parent := Some p |}
       /\ Ctx.objs h' p
          = {| Ctx.shell := Ctx.shell (Ctx.objs h p);
               Ctx.obj_items := Ctx.obj_items (Ctx.objs h p) ++ [Ctx.next h];
               Ctx.obj_parent := Ctx.obj_parent (Ctx.objs h p) |}
       /\ (forall r, r <> Ctx.next h -> r <> p -> Ctx.objs h' r = Ctx.objs h r)
       /\ Ctx.exit h' p
          = Return {| Ctx.objs := Ctx.objs h'; Ctx.next := S (Ctx.next h);
                      Ctx.wstack := Ctx.wstack h |})
  /\ (is_container (Ctx.shell (Ctx.objs h p)) = false ->
      forall items init,
        Ctx.construct (Ctx.enter h p) items init = Throw NotImplementedError)
  /\ Ctx.exit (Ctx.enter h p) p
     = Return {| Ctx.objs := Ctx.objs h; Ctx.next := Ctx.next h; Ctx.wstack := Ctx.wstack h |}
  /\ (forall q, q <> p -> Ctx.exit (Ctx.enter h p) q = Throw (Builtin AssertionError)).
Proof.
  intros Hne Hstk. split; [|split; [|split]].
  - intros Hc init wd Hinit.
    destruct (construct_spec (Ctx.enter h p) (Some p) init wd)
      as (h' & Hrun & Hnew & Hpar & Hrest & Hn & Hw).
    + apply current_after_enter.
    + intros p' [= <-]. split; [exact Hc | exact Hne].
    + exact Hinit.
    + exists h'. split; [exact Hrun|]. split; [exact Hnew|].
      split; [exact (Hpar p eq_refl)|]. split.
      * intros r H1 H2. apply Hrest; [exact H1|]. intros [= E]. apply H2. symmetry. exact E.
      * pose proof (exit_after_enter h p Hstk) as Hexit.
        unfold Ctx.exit in *. rewrite Hw.
        cbn [Ctx.enter Ctx.wstack Ctx.objs Ctx.next] in Hexit, Hn |- *.
        destruct (rev (match Ctx.wstack h with Some stk => stk | None => [] end ++ [p]))
          as [|top below]; [discriminate Hexit|].
        destruct (Nat.eqb top p); [|discriminate Hexit].
        injection Hexit as Hexit. rewrite Hexit, Hn. reflexivity.
  - intros Hc items init. apply (construct_in_leaf (Ctx.enter h p) p).
    + apply current_after_enter.
    + exact Hc.
    + exact Hne.
  - apply exit_after_enter. exact Hstk.
  - intros q Hq. unfold Ctx.exit, Ctx.enter. cbn [Ctx.wstack].
    rewrite rev_unit.
    replace (Nat.eqb p q) with false
      by (symmetry; apply Nat.eqb_neq; intros E; apply Hq; symmetry; exact E).
    reflexivity.
Qed.

(** X22, witness: a spacer made inside a canvas, and inside a text box. *)
Lemma widget_joins_current_widget_witness :
  (exists h',
      Ctx.construct
        (Ctx.enter (Ctx.store {| Ctx.objs := Ctx.objs Ctx.empty; Ctx.next := 1%nat;
                                 Ctx.wstack := None |} 0%nat
                      {| Ctx.shell := Canvas_init None None; Ctx.obj_items := [];
                         Ctx.obj_parent := None |}) 0%nat) []
        (Ok (Spacer_init (Some 1) (Some 1)))
      = Return (h', 1%nat)
      /\ Ctx.obj_items (Ctx.objs h' 0%nat) = [1%nat])
  /\ Ctx.construct
       (Ctx.enter (Ctx.store {| Ctx.objs := Ctx.objs Ctx.empty; Ctx.next := 1%nat;
                                Ctx.wstack := None |} 0%nat
                     {| Ctx.shell := image_box (10, 10); Ctx.obj_items := [];
                        Ctx.obj_parent := None |}) 0%nat) []
       (Ok (Spacer_init (Some 1) (Some 1)))
     = Throw NotImplementedError.
Proof.
  split.
  - destruct (proj1 (widget_joins_current_widget
                       (Ctx.store {| Ctx.objs := Ctx.objs Ctx.empty; Ctx.next := 1%nat;
                                     Ctx.wstack := None |} 0%nat
                          {| Ctx.shell := Canvas_init None None; Ctx.obj_items := [];
                             Ctx.obj_parent := None |}) 0%nat
                       ltac:(discriminate) ltac:(discriminate))
                eq_refl (Ok (Spacer_init (Some 1) (Some 1))) _ eq_refl)
      as (h' & Hrun & _ & Hp & _).
    exists h'. split; [exact Hrun|]. rewrite Hp. reflexivity.
  - exact (proj1 (proj2 (widget_joins_current_widget
                           (Ctx.store {| Ctx.objs := Ctx.objs Ctx.empty; Ctx.next := 1%nat;
                                         Ctx.wstack := None |} 0%nat
                              {| Ctx.shell := image_box (10, 10); Ctx.obj_items := [];
                                 Ctx.obj_parent := None |}) 0%nat
                           ltac:(discriminate) ltac:(discriminate)))
             eq_refl [] (Ok (Spacer_init (Some 1) (Some 1)))).
Defined.

(* ===================================================================== *)
(** ** Stacking images                                                     *)
(* ===================================================================== *)

Lemma fold_add_shift (xs : list Z) (a : Z) :
  fold_left Z.add xs a = a + fold_left Z.add xs 0.
Proof.
  revert a. induction xs as [|x xs IH]; intros a; cbn [fold_left]; [lia|].
  rewrite (IH (a + x)), (IH (0 + x)). lia.
Qed.

Lemma py_sum_cons x xs : py_sum (x :: xs) = x + py_sum xs.
Proof. unfold py_sum. cbn [fold_left]. rewrite fold_add_shift. lia. Qed.

Lemma sequence_Ok_Forall2 {A B} (f : A -> Res B) (xs : list A) (ys : list B) :
  sequence (map f xs) = Ok ys -> Forall2 (fun x y => f x = Ok y) xs ys.
Proof.
  revert ys. induction xs as [|x xs IH]; intros ys H; cbn [map sequence] in H.
  - injection H as <-. constructor.
  - apply bind_Ok in H. destruct H as (y & Hy & H).
    apply bind_Ok in H. destruct H as (ys' & Hys & H). injection H as <-.
    constructor; [exact Hy | apply IH; exact Hys].
Qed.

Lemma paste_down_length images y : length (paste_down images y) = length images.
Proof.
  revert y. induction images as [|img rest IH]; intros y; cbn [paste_down length];
    [reflexivity | rewrite IH; reflexivity].
Qed.

Lemma paste_down_In images y c :
  In c (paste_down images y) ->
  In (paste_size c) images /\ fst (paste_pos c) = 0
  /\ (Forall (fun img => 0 <= snd img) images -> y <= snd (paste_pos c)).
Proof.
  revert y. induction images as [|img rest IH]; intros y Hin; cbn [paste_down] in Hin;
    [destruct Hin|].
  destruct Hin as [<-|Hin].
  - cbn [paste_size paste_pos fst snd]. split; [left; reflexivity|]. split; [reflexivity|].
    intros _. lia.
  - destruct (IH _ Hin) as (Hs & Hx & Hy). split; [right; exact Hs|]. split; [exact Hx|].
    intros Hall. inversion Hall as [|? ? Hh Hrest]; subst.
    specialize (Hy Hrest). lia.
Qed.

(** The pastes one under the other: the paste of index [i] is the image of
    index [i], below the images before it. *)
Lemma paste_down_nth images : forall y i c,
  nth_error (paste_down images y) i = Some c ->
  nth_error images i = Some (paste_size c)
  /\ paste_pos c = (0, y + py_sum (map snd (firstn i images))).
Proof.
  induction images as [|img rest IH]; intros y i c H; cbn [paste_down] in H.
  - destruct i; discriminate H.
  - destruct i as [|i]; cbn [nth_error] in H.
    + injection H as <-. cbn [paste_size paste_pos firstn map nth_error].
      split; [reflexivity|]. unfold py_sum. cbn [fold_left]. f_equal. lia.
    + destruct (IH _ _ _ H) as [Hs Hp]. cbn [nth_error firstn map].
      split; [exact Hs|]. rewrite Hp, py_sum_cons. f_equal. lia.
Qed.

(** Images of one width and of heights that are not negative, pasted one
    under the other: every pixel of the column they fill lies under exactly
    one of them. *)
Lemma paste_down_covers W images : forall y X Y,
  Forall (fun img => fst img = W /\ 0 <= snd img) images ->
  0 <= X < W -> y <= Y < y + py_sum (map snd images) ->
  exists c,
    In c (paste_down images y) /\ covers c X Y
    /\ forall c', In c' (paste_down images y) -> covers c' X Y -> c' = c.
Proof.
  induction images as [|img rest IH]; intros y X Y Hall HX HY.
  - cbn [map] in HY. unfold py_sum in HY. cbn [fold_left] in HY. lia.
  - inversion Hall as [|? ? [Hw Hh] Hrest]; subst.
    cbn [map] in HY. rewrite py_sum_cons in HY. cbn [paste_down].
    assert (Hnn : Forall (fun img => 0 <= snd img) rest)
      by (eapply Forall_impl; [|exact Hrest]; cbv beta; intros ? [_ ?]; assumption).
    destruct (Z_lt_ge_dec Y (y + snd img)) as [Hlt|Hge].
    + exists {| paste_pos := (0, y); paste_size := img |}.
      split; [left; reflexivity|]. split.
      * unfold covers. cbn [paste_pos paste_size fst snd]. lia.
      * intros c' [<-|Hin] Hcov; [reflexivity|].
        destruct (paste_down_In _ _ _ Hin) as (_ & _ & Hy). specialize (Hy Hnn).
        unfold covers in Hcov. lia.
    + destruct (IH (y + snd img) X Y Hrest HX ltac:(lia)) as (c & Hin & Hcov & Huniq).
      exists c. split; [right; exact Hin|]. split; [exact Hcov|].
      intros c' [<-|Hin'] Hcov'.
      * unfold covers in Hcov'. cbn [paste_pos paste_size fst snd] in Hcov'. lia.
      * apply Huniq; assumption.
Qed.

Lemma Forall2_In_r {A B} (R : A -> B -> Prop) (xs : list A) (ys : list B) (y : B) :
  Forall2 R xs ys -> In y ys -> exists x, In x xs /\ R x y.
Proof.
  induction 1 as [|x y' xs ys Hxy _ IH]; intros Hin; [destruct Hin|].
  destruct Hin as [<-|Hin].
  - exists x. split; [left; reflexivity | exact Hxy].
  - destruct (IH Hin) as (x' & Hx' & HR). exists x'. split; [right; exact Hx' | exact HR].
Qed.

(** X23. [concat_images] in mode 'v', when it returns: there is an image
    at least, the new image is as wide as the widest and as high as the sum
    of the heights pasted; every image is pasted as wide as the new image,
    at its own size when it is that wide already, at the left edge, in
    order, each right below the one before; so that, when no pasted height
    is negative, every pixel of the new image lies under exactly one
    paste. *)
Theorem concat_v_stacks (images : list Size) (ret : Image) (pastes : list Paste) :
  concat_v images = Ok (ret, pastes) ->
  let max_w := fst (im_size ret) in
  images <> []
  /\ Forall (fun img => fst img <= max_w) images
  /\ Exists (fun img => fst img = max_w) images
  /\ snd (im_size ret) = py_sum (map (fun c => snd (paste_size c)) pastes)
  /\ Forall2 (fun img c =>
                fst (paste_size c) = max_w
                /\ (fst img = max_w -> paste_size c = img)) images pastes
  /\ (forall i c,
         nth_error pastes i = Some c ->
         paste_pos c
         = (0, py_sum (map (fun c' => snd (paste_size c')) (firstn i pastes))))
  /\ (Forall (fun c => 0 <= snd (paste_size c)) pastes ->
      forall X Y,
        0 <= X < max_w -> 0 <= Y < snd (im_size ret) ->
        exists c,
          In c pastes /\ covers c X Y
          /\ forall c', In c' pastes -> covers c' X Y -> c' = c).
Proof.
  intros H. unfold concat_v in H.
  apply bind_Ok in H. destruct H as (mw & Hmax & H).
  apply bind_Ok in H. destruct H as (scaled & Hseq & H).
  apply bind_Ok in H. destruct H as (ret0 & Hnew & H).
  apply Image_new_Ok in Hnew. subst ret0.
  injection H as <- <-. cbn [im_size fst snd]. cbv zeta.
  destruct (py_max_list_bounds _ _ Hmax) as [Hle Hin].
  apply sequence_Ok_Forall2 in Hseq.
  assert (Hscaled : Forall2 (fun img s => fst s = mw /\ (fst img = mw -> s = img))
                      images scaled).
  { eapply Forall2_impl; [|exact Hseq]. intros img s Hs. cbv beta in Hs.
    destruct (Z.eqb_spec (fst img) mw) as [E|E].
    - injection Hs as <-. split; [exact E | reflexivity].
    - apply bind_Ok in Hs. destruct Hs as (f & _ & Hs).
      apply bind_Ok in Hs. destruct Hs as (nh & _ & Hs).
      apply Image_resize_Ok in Hs. subst s.
      split; [reflexivity | intros E'; contradiction]. }
  assert (Hsizes : map paste_size (paste_down scaled 0) = scaled).
  { generalize 0. clear. induction scaled as [|s rest IH]; intros y; cbn [paste_down map];
      [reflexivity | rewrite IH; reflexivity]. }
  assert (Hheights : map (fun c => snd (paste_size c)) (paste_down scaled 0) = map snd scaled)
    by (rewrite <- (map_map paste_size snd), Hsizes; reflexivity).
  split; [intros ->; discriminate Hmax|].
  split; [rewrite Forall_map in Hle; exact Hle|].
  split; [apply Exists_exists; apply in_map_iff in Hin;
          destruct Hin as (img & E & Hi); exists img; auto|].
  split; [rewrite Hheights; reflexivity|].
  split; [|split].
  - clear -Hscaled. generalize 0. induction Hscaled as [|img s images scaled Hs _ IH];
      intros y; cbn [paste_down]; constructor; [exact Hs | apply IH].
  - intros i c Hc. destruct (paste_down_nth scaled 0 i c Hc) as [_ Hp].
    rewrite Hp, Z.add_0_l, <- !firstn_map, Hheights. reflexivity.
  - intros Hnn X Y HX HY. apply (paste_down_covers mw scaled 0 X Y).
    + apply Forall_forall. intros s Hs. split.
      * destruct (Forall2_In_r _ _ _ _ Hscaled Hs) as (img & _ & Hw & _). exact Hw.
      * rewrite Forall_forall in Hnn.
        assert (Hin' : In s (map paste_size (paste_down scaled 0)))
          by (rewrite Hsizes; exact Hs).
        apply in_map_iff in Hin'. destruct Hin' as (c & <- & Hc). apply Hnn. exact Hc.
    + exact HX.
    + lia.
Qed.

(** X23, witness: two images, the second one scaled from 10 by 10 to 20 by
    20. *)
Lemma concat_v_stacks_witness :
  snd (im_size {| im_mode := RGBA; im_size := (20, 50) |})
  = py_sum (map (fun c => snd (paste_size c))
              [{| paste_pos := (0, 0); paste_size := (20, 30) |};
               {| paste_pos := (0, 30); paste_size := (20, 20) |}]).
Proof.
  exact (proj1 (proj2 (proj2 (proj2
           (concat_v_stacks [(20, 30); (10, 10)]
              {| im_mode := RGBA; im_size := (20, 50) |}
              [{| paste_pos := (0, 0); paste_size := (20, 30) |};
               {| paste_pos := (0, 30); paste_size := (20, 20) |}] eq_refl))))).
Defined.

(* ===================================================================== *)
(** ** Colored text                                                        *)
(* ===================================================================== *)

(** [s.startswith(sub)] and the index of the first occurrence of [sub]. *)
Fixpoint prefix_eqb (sub s : str) : bool :=
  match sub, s with
  | [], _ => true
  | a :: sub', b :: s' => Ascii.eqb a b && prefix_eqb sub' s'
  | _ :: _, [] => false
  end.

Fixpoint find_index (sub s : str) : option nat :=
  if prefix_eqb sub s then Some 0%nat
  else
    match s with
    | [] => None
    | _ :: s' => option_map S (find_index sub s')
    end.

(** [s.find(sub, start)] *)
Definition py_find (s sub : str) (start : Z) : Z :=
  let start := if start <? 0 then Z.max 0 (len s + start) else start in
  if len s <? start then -1
  else
    match find_index sub (skipn (Z.to_nat start) s) with
    | Some n => start + Z.of_nat n
    | None => -1
    end.

(** [s[a:b]] *)
Definition py_slice (s : str) (a b : Z) : str :=
  let a := if a <? 0 then Z.max 0 (len s + a) else a in
  let b := if b <? 0 then Z.max 0 (len s + b) else b in
  firstn (Z.to_nat (b - a)) (skipn (Z.to_nat a) s).

(** [s[i]] as a string, for an index in range. *)
Definition py_item (s : str) (i : nat) : str :=
  match nth_error s i with
  | Some c => [c]
  | None => []
  end.

Definition open_tag : str := ["<"%char; "#"%char].
Definition close_tag : str := [">"%char].

(** The color of a tag of [colored_text_box]: six digits, or three, each
    worth 17 times its value. *)
Definition tag_color (code : str) : Res (Z * Z * Z) :=
  if len code =? 6 then
    r <- py_int16 (py_slice_to code 2) ;;
    g <- py_int16 (py_slice code 2 4) ;;
    b <- py_int16 (py_slice_from code 4) ;;
    Ok (r, g, b)
  else if len code =? 3 then
    r <- py_int16 (py_item code 0) ;;
    g <- py_int16 (py_item code 1) ;;
    b <- py_int16 (py_item code 2) ;;
    Ok (r * 17, g * 17, b * 17)
  else Raise ValueError.

(** A segment: its text and its color, if it has one. *)
Definition Seg : Type := str * option (Z * Z * Z).

(** The [try] block of [colored_text_box]: the [while True] loop over the
    tags; [done] are the segments before the last, [color] is the color of
    the last.  Whatever the loop raises is caught, and the text left at that
    point becomes the only segment. *)
Fixpoint parse_segs (fuel : nat) (s : str) (done : list Seg) (color : option (Z * Z * Z))
    : Res (list Seg) :=
  match fuel with
  | O => Raise Diverges
  | S fuel' =>
      let i := py_find s open_tag 0 in
      if i =? -1 then Ok (done ++ [(s, color)])
      else
        let j := py_find s close_tag i in
        let code := py_slice s (i + 2) j in
        match tag_color code with
        | Ok rgb =>
            parse_segs fuel' (py_slice_from s (j + 1))
              (done ++ [(py_slice_to s i, color)]) (Some rgb)
        | Raise _ => Ok [(s, None)]
        end
  end.

Definition colored_text_segs (fuel : nat) (s : str) : Res (list Seg) :=
  parse_segs fuel s [] None.

(** A text marked up: [t0], then for each color and text the tag
    ['<' + rgb_to_color_code(color) + '>'] and the text. *)
Fixpoint markup (t0 : str) (rest : list (Color * str)) : str :=
  match rest with
  | [] => t0
  | (c, t) :: rest' => t0 ++ "<"%char :: rgb_to_color_code c ++ ">"%char :: markup t rest'
  end.

Definition no_tag (t : str) : Prop := find_index open_tag t = None.

Definition rgb_of (c : Color) : Z * Z * Z := let '(r, g, b, _) := c in (r, g, b).

Example colored_text_segs_example :
  colored_text_segs 5
    (list_ascii_of_string "plain <#ff8000>orange<#08f> blue")
  = Ok [(list_ascii_of_string "plain ", None);
        (list_ascii_of_string "orange", Some (255, 128, 0));
        (list_ascii_of_string " blue", Some (0, 136, 255))].
Proof. vm_compute. reflexivity. Qed.

Lemma skipn_app_plus {A} (a b : list A) (k : nat) :
  skipn (length a + k) (a ++ b) = skipn k b.
Proof. induction a as [|x a IH]; cbn [length app Nat.add skipn]; [reflexivity | exact IH]. Qed.

Lemma firstn_app_exact {A} (a b : list A) : firstn (length a) (a ++ b) = a.
Proof.
  induction a as [|x a IH]; cbn [length app firstn]; [reflexivity | rewrite IH; reflexivity].
Qed.

(** The first ['<#'] of a text that has none, followed by a tag, is the
    tag. *)
Lemma find_open_tag (t0 X : str) :
  no_tag t0 -> find_index open_tag (t0 ++ "<"%char :: "#"%char :: X) = Some (length t0).
Proof.
  unfold no_tag. induction t0 as [|c t0 IH]; intros Hno; [reflexivity|].
  cbn [find_index] in Hno.
  destruct (prefix_eqb open_tag (c :: t0)) eqn:Ep; [discriminate Hno|].
  destruct (find_index open_tag t0) eqn:Ef; [discriminate Hno|].
  cbn [app find_index length].
  replace (prefix_eqb open_tag (c :: t0 ++ "<"%char :: "#"%char :: X)) with false.
  - rewrite (IH eq_refl). reflexivity.
  - symmetry. unfold open_tag in *. cbn [prefix_eqb] in *.
    destruct (Ascii.eqb "<" c); [|reflexivity]. cbn [andb] in *.
    destruct t0 as [|b t0']; cbn [app]; [reflexivity|].
    rewrite andb_true_r in *. exact Ep.
Qed.

Lemma find_close_tag (pre rest : str) :
  Forall (fun c => c <> ">"%char) pre ->
  find_index close_tag (pre ++ ">"%char :: rest) = Some (length pre).
Proof.
  induction 1 as [|c pre Hc _ IH]; [reflexivity|].
  cbn [app find_index length]. unfold close_tag at 1. cbn [prefix_eqb].
  replace (Ascii.eqb ">" c) with false
    by (symmetry; apply Ascii.eqb_neq; intros E; apply Hc; symmetry; exact E).
  cbn [andb]. rewrite IH. reflexivity.
Qed.

(** A channel value, formatted, is two digits, none of them ['>'], that
    read back as the value. *)
Lemma format_02x_digits k :
  channel_in_range k ->
  exists d1 d2,
    format_02x k = [d1; d2] /\ py_int16 [d1; d2] = Ok k
    /\ d1 <> ">"%char /\ d2 <> ">"%char.
Proof.
  intros Hk.
  assert (H : match format_02x k with
              | [d1; d2] =>
                  res_is (py_int16 [d1; d2]) k
                  && negb (Ascii.eqb d1 ">") && negb (Ascii.eqb d2 ">")
              | _ => false
              end = true).
  { apply (all_channels_spec
             (fun k => match format_02x k with
                       | [d1; d2] =>
                           res_is (py_int16 [d1; d2]) k
                           && negb (Ascii.eqb d1 ">") && negb (Ascii.eqb d2 ">")
                       | _ => false
                       end)); [|assumption].
    vm_compute. reflexivity. }
  destruct (format_02x k) as [|d1 [|d2 [|]]]; try discriminate H.
  apply andb_true_iff in H. destruct H as [H H2].
  apply andb_true_iff in H. destruct H as [H0 H1].
  exists d1, d2. split; [reflexivity|]. split; [apply res_is_true, H0|].
  split; apply Ascii.eqb_neq, negb_true_iff; assumption.
Qed.

(** One round of the loop on a text that starts with a text without tag
    and a tag written by [rgb_to_color_code]. *)
Lemma parse_segs_tag fuel t0 r g b a rest done color :
  no_tag t0 ->
  channel_in_range r -> channel_in_range g -> channel_in_range b ->
  parse_segs (S fuel) (t0 ++ "<"%char :: rgb_to_color_code (r, g, b, a) ++ ">"%char :: rest)
    done color
  = parse_segs fuel rest (done ++ [(t0, color)]) (Some (r, g, b)).
Proof.
  intros Hno Hr Hg Hb.
  destruct (format_02x_digits r Hr) as (r1 & r2 & Er & Ir & Hr1 & Hr2).
  destruct (format_02x_digits g Hg) as (g1 & g2 & Eg & Ig & Hg1 & Hg2).
  destruct (format_02x_digits b Hb) as (b1 & b2 & Eb & Ib & Hb1 & Hb2).
  unfold rgb_to_color_code. rewrite Er, Eg, Eb. cbn [app].
  set (X := "<"%char :: "#"%char :: r1 :: r2 :: g1 :: g2 :: b1 :: b2 :: ">"%char :: rest).
  pose proof (len_nonneg t0) as Hlen.
  assert (Hls : len (t0 ++ X) = len t0 + 9 + len rest).
  { unfold len, X. rewrite length_app. cbn [length]. lia. }
  pose proof (len_nonneg rest) as Hlr.
  assert (Hi : py_find (t0 ++ X) open_tag 0 = len t0).
  { unfold py_find. change (0 <? 0) with false. cbv iota.
    replace (len (t0 ++ X) <? 0) with false by (symmetry; apply Z.ltb_ge; lia).
    change (Z.to_nat 0) with 0%nat. cbn [skipn]. unfold X.
    rewrite (find_open_tag t0 _ Hno). unfold len. lia. }
  assert (Hj : py_find (t0 ++ X) close_tag (len t0) = len t0 + 8).
  { unfold py_find.
    replace (len t0 <? 0) with false by (symmetry; apply Z.ltb_ge; lia).
    replace (len (t0 ++ X) <? len t0) with false by (symmetry; apply Z.ltb_ge; lia).
    replace (Z.to_nat (len t0)) with (length t0 + 0)%nat by (unfold len; lia).
    rewrite skipn_app_plus. cbn [skipn]. unfold X.
    change ("<"%char :: "#"%char :: r1 :: r2 :: g1 :: g2 :: b1 :: b2 :: ">"%char :: rest)
      with (["<"%char; "#"%char; r1; r2; g1; g2; b1; b2] ++ ">"%char :: rest).
    rewrite (find_close_tag ["<"%char; "#"%char; r1; r2; g1; g2; b1; b2] rest).
    - reflexivity.
    - repeat constructor; try assumption; discriminate. }
  assert (Hcode : py_slice (t0 ++ X) (len t0 + 2) (len t0 + 8) = [r1; r2; g1; g2; b1; b2]).
  { unfold py_slice.
    replace (len t0 + 2 <? 0) with false by (symmetry; apply Z.ltb_ge; lia).
    replace (len t0 + 8 <? 0) with false by (symmetry; apply Z.ltb_ge; lia).
    replace (Z.to_nat (len t0 + 8 - (len t0 + 2))) with 6%nat by lia.
    replace (Z.to_nat (len t0 + 2)) with (length t0 + 2)%nat by (unfold len; lia).
    rewrite skipn_app_plus. reflexivity. }
  assert (Hrest : py_slice_from (t0 ++ X) (len t0 + 8 + 1) = rest).
  { unfold py_slice_from.
    replace (len t0 + 8 + 1 <? 0) with false by (symmetry; apply Z.ltb_ge; lia).
    replace (Z.to_nat (len t0 + 8 + 1)) with (length t0 + 9)%nat by (unfold len; lia).
    rewrite skipn_app_plus. reflexivity. }
  assert (Hhead : py_slice_to (t0 ++ X) (len t0) = t0).
  { unfold py_slice_to.
    replace (len t0 <? 0) with false by (symmetry; apply Z.ltb_ge; lia).
    replace (Z.to_nat (len t0)) with (length t0) by (unfold len; lia).
    apply firstn_app_exact. }
  assert (Hcolor : tag_color [r1; r2; g1; g2; b1; b2] = Ok (r, g, b)).
  { unfold tag_color. change (len [r1; r2; g1; g2; b1; b2] =? 6) with true. cbv iota.
    change (py_slice_to [r1; r2; g1; g2; b1; b2] 2) with [r1; r2].
    change (py_slice [r1; r2; g1; g2; b1; b2] 2 4) with [g1; g2].
    change (py_slice_from [r1; r2; g1; g2; b1; b2] 4) with [b1; b2].
    rewrite Ir, Ig, Ib. reflexivity. }
  cbn [parse_segs]. rewrite Hi.
  replace (len t0 =? -1) with false by (symmetry; apply Z.eqb_neq; lia).
  rewrite Hj, Hcode, Hcolor, Hrest, Hhead. reflexivity.
Qed.

Lemma parse_segs_markup rest : forall fuel t0 done color,
  no_tag t0 ->
  Forall (fun ct => (let '(r, g, b, _) := fst ct in
                     channel_in_range r /\ channel_in_range g /\ channel_in_range b)
                    /\ no_tag (snd ct)) rest ->
  (length rest < fuel)%nat ->
  parse_segs fuel (markup t0 rest) done color
  = Ok (done ++ (t0, color) :: map (fun ct => (snd ct, Some (rgb_of (fst ct)))) rest).
Proof.
  induction rest as [|[[[[r g] b] a] t] rest IH]; intros fuel t0 done color Hno Hall Hfuel.
  - destruct fuel as [|fuel]; [cbn in Hfuel; lia|].
    cbn [markup parse_segs map].
    replace (py_find t0 open_tag 0) with (-1); [reflexivity|].
    unfold py_find. change (0 <? 0) with false. cbv iota.
    pose proof (len_nonneg t0).
    replace (len t0 <? 0) with false by (symmetry; apply Z.ltb_ge; lia).
    change (Z.to_nat 0) with 0%nat. cbn [skipn]. rewrite Hno. reflexivity.
  - destruct fuel as [|fuel]; [cbn in Hfuel; lia|].
    inversion Hall as [|? ? Hhd Hrest]; subst. cbn [fst snd] in Hhd.
    destruct Hhd as [(Hr & Hg & Hb) Hnt].
    cbn [markup]. rewrite (parse_segs_tag fuel t0 r g b a _ done color Hno Hr Hg Hb).
    rewrite (IH fuel t (done ++ [(t0, color)]) (Some (r, g, b)) Hnt Hrest)
      by (cbn [length] in Hfuel; lia).
    cbn [map fst snd rgb_of]. rewrite <- app_assoc. reflexivity.
Qed.

(** X24. [colored_text_box] reads back what [rgb_to_color_code] writes: for
    a text made of a first text and, for each of any number of colors with
    channels in 0..255, the tag ['<' + rgb_to_color_code(color) + '>'] and a
    text, none of the texts holding ['<#'], the loop exits after one round a
    tag, and the segments are the first text without color and then each
    text with the three channels of its color. *)
Theorem colored_text_reads_markup (fuel : nat) (t0 : str) (rest : list (Color * str)) :
  no_tag t0 ->
  Forall (fun ct => (let '(r, g, b, _) := fst ct in
                     channel_in_range r /\ channel_in_range g /\ channel_in_range b)
                    /\ no_tag (snd ct)) rest ->
  (length rest < fuel)%nat ->
  colored_text_segs fuel (markup t0 rest)
  = Ok ((t0, None) :: map (fun ct => (snd ct, Some (rgb_of (fst ct)))) rest).
Proof.
  intros Hno Hall Hfuel. unfold colored_text_segs.
  rewrite (parse_segs_markup rest fuel t0 [] None Hno Hall Hfuel). reflexivity.
Qed.

(** X24, witness: a plain text, then an orange one. *)
Lemma colored_text_reads_markup_witness :
  colored_text_segs 2
    (markup (list_ascii_of_string "plain ")
       [((255, 128, 0, 255), list_ascii_of_string "orange")])
  = Ok [(list_ascii_of_string "plain ", None);
        (list_ascii_of_string "orange", Some (255, 128, 0))].
Proof.
  refine (colored_text_reads_markup 2 (list_ascii_of_string "plain ")
            [((255, 128, 0, 255), list_ascii_of_string "orange")] eq_refl _ _).
  - repeat constructor; unfold channel_in_range; cbn; lia.
  - cbn. lia.
Defined.

Lemma find_close_tag_none (l : str) :
  Forall (fun c => c <> ">"%char) l -> find_index close_tag l = None.
Proof.
  induction 1 as [|c l Hc _ IH]; [reflexivity|].
  cbn [find_index]. unfold close_tag at 1. cbn [prefix_eqb].
  replace (Ascii.eqb ">" c) with false
    by (symmetry; apply Ascii.eqb_neq; intros E; apply Hc; symmetry; exact E).
  cbn [andb]. rewrite IH. reflexivity.
Qed.

(** The loop on a text whose first tag has a good code and no ['>'] after
    it: the text left is the text itself, round after round. *)
Lemma parse_segs_no_exit s i rgb :
  py_find s open_tag 0 = i -> i <> -1 ->
  py_find s close_tag i = -1 ->
  tag_color (py_slice s (i + 2) (-1)) = Ok rgb ->
  forall fuel done color, parse_segs fuel s done color = Raise Diverges.
Proof.
  intros Hi Hne Hj Hcode.
  induction fuel as [|fuel IH]; intros done color; [reflexivity|].
  cbn [parse_segs]. rewrite Hi.
  replace (i =? -1) with false by (symmetry; apply Z.eqb_neq; exact Hne).
  rewrite Hj, Hcode. change (py_slice_from s (-1 + 1)) with s. apply IH.
Qed.

(** X25. [colored_text_box] never returns on a text whose first tag is
    not closed when what follows ['<#'], but for the last character, is a
    color code of three or six digits: with no ['>'] to find, [j] is -1, the
    code is [s[i+2:-1]], and [s = s[j+1:]] leaves the text as it is, so every
    round appends a segment and starts again. *)
Theorem unclosed_tag_never_returns (t0 code : str) (c : ascii) (rgb : Z * Z * Z) :
  no_tag t0 ->
  Forall (fun x => x <> ">"%char) (code ++ [c]) ->
  tag_color code = Ok rgb ->
  forall fuel,
    colored_text_segs fuel (t0 ++ open_tag ++ code ++ [c]) = Raise Diverges.
Proof.
  intros Hno Hgt Hcode fuel. unfold colored_text_segs.
  pose proof (len_nonneg t0) as Hlen. pose proof (len_nonneg code) as Hlc.
  set (s := t0 ++ open_tag ++ code ++ [c]).
  assert (Hls : len s = len t0 + 2 + len code + 1).
  { unfold len, s, open_tag. rewrite !length_app. cbn [length]. lia. }
  apply (parse_segs_no_exit s (len t0) rgb).
  - unfold py_find. change (0 <? 0) with false. cbv iota.
    replace (len s <? 0) with false by (symmetry; apply Z.ltb_ge; lia).
    change (Z.to_nat 0) with 0%nat. cbn [skipn]. unfold s, open_tag at 2. cbn [app].
    rewrite (find_open_tag t0 _ Hno). unfold len. lia.
  - lia.
  - unfold py_find.
    replace (len t0 <? 0) with false by (symmetry; apply Z.ltb_ge; lia).
    replace (len s <? len t0) with false by (symmetry; apply Z.ltb_ge; lia).
    replace (Z.to_nat (len t0)) with (length t0 + 0)%nat by (unfold len; lia).
    unfold s. rewrite skipn_app_plus. cbn [skipn].
    rewrite find_close_tag_none; [reflexivity|].
    unfold open_tag. cbn [app]. repeat (constructor; [discriminate|]). exact Hgt.
  - replace (py_slice s (len t0 + 2) (-1)) with code; [exact Hcode|].
    unfold py_slice.
    replace (len t0 + 2 <? 0) with false by (symmetry; apply Z.ltb_ge; lia).
    change (-1 <? 0) with true. cbv iota.
    rewrite Hls.
    replace (Z.to_nat (Z.max 0 (len t0 + 2 + len code + 1 + -1) - (len t0 + 2)))
      with (length code) by (unfold len; lia).
    replace (Z.to_nat (len t0 + 2)) with (length t0 + 2)%nat by (unfold len; lia).
    unfold s. rewrite skipn_app_plus. unfold open_tag. cbn [app skipn].
    symmetry. apply firstn_app_exact.
Qed.

(** X25, witness: the text "<#fffx". *)
Lemma unclosed_tag_never_returns_witness :
  colored_text_segs 1000 (list_ascii_of_string "<#fffx") = Raise Diverges.
Proof.
  refine (unclosed_tag_never_returns [] (list_ascii_of_string "fff") "x"%char
            (255, 255, 255) eq_refl _ eq_refl 1000%nat).
  repeat constructor; discriminate.
Defined.

(** X26. A tag with a bad color code makes [colored_text_box] give up the
    markup: the only segment is then the text that was left when the bad
    tag was met, tags included and without color.  As the first tag of the
    text that is the whole text; after a good tag, the text before the good
    tag and its color are lost. *)
Theorem bad_tag_keeps_the_text_left (rest : str) (i : Z) (e : Error) :
  py_find rest open_tag 0 = i -> i <> -1 ->
  tag_color (py_slice rest (i + 2) (py_find rest close_tag i)) = Raise e ->
  (forall fuel, colored_text_segs (S fuel) rest = Ok [(rest, None)])
  /\ (forall fuel t0 r g b a,
         no_tag t0 ->
         channel_in_range r -> channel_in_range g -> channel_in_range b ->
         colored_text_segs (S (S fuel))
           (t0 ++ "<"%char :: rgb_to_color_code (r, g, b, a) ++ ">"%char :: rest)
         = Ok [(rest, None)]).
Proof.
  intros Hi Hne Hbad.
  assert (Hstep : forall fuel done color,
             parse_segs (S fuel) rest done color = Ok [(rest, None)]).
  { intros fuel done color. cbn [parse_segs]. rewrite Hi.
    replace (i =? -1) with false by (symmetry; apply Z.eqb_neq; exact Hne).
    rewrite Hbad. reflexivity. }
  split.
  - intros fuel. apply Hstep.
  - intros fuel t0 r g b a Hno Hr Hg Hb. unfold colored_text_segs.
    rewrite (parse_segs_tag (S fuel) t0 r g b a rest [] None Hno Hr Hg Hb).
    apply Hstep.
Qed.

(** X26, witness: the text "ab<#ff0000>cd<#zz>ef". *)
Lemma bad_tag_keeps_the_text_left_witness :
  colored_text_segs 2 (list_ascii_of_string "ab<#ff0000>cd<#zz>ef")
  = Ok [(list_ascii_of_string "cd<#zz>ef", None)].
Proof.
  refine (proj2 (bad_tag_keeps_the_text_left (list_ascii_of_string "cd<#zz>ef") 2 ValueError
                   eq_refl _ eq_refl)
            0%nat (list_ascii_of_string "ab") 255 0 0 255 eq_refl _ _ _);
    unfold channel_in_range; lia.
Defined.

(* ===================================================================== *)
(** ** More of the image background                                        *)
(* ===================================================================== *)

(** X27. [ImageBg.draw] in the modes that make one paste.  In mode 'fill'
    the image is resized to the region and pasted on its origin: that is one
    paste of the size of the region when the region has the size of the
    image or both its extents are at least 1, and the [ValueError] of
    Pillow's [resize] when the region is of another size and empty
    (an extent below 1).  In mode 'fixed' an image built by [__init__] is
    pasted at its own size, never resized, and when it is not larger than the
    region it lies inside the region, wherever [align] puts it; with the
    align 'c' the margins left and right differ by one pixel at most, and so
    do those above and below. *)
Theorem background_paste_inside_region (bg : ImageBg.t) (p : Painter.t) (image : Size)
    (align mode : string) :
  ImageBg.init image align mode = Ok bg ->
  let pw := Painter.get_w p in
  let ph := Painter.get_h p in
  let ox := fst (Painter.offset p) in
  let oy := snd (Painter.offset p) in
  (mode = "fill"%string ->
   (Painter.size p = image \/ (1 <= pw /\ 1 <= ph) ->
    ImageBg.draw bg p
    = Return [{| paste_pos := (0 + ox, 0 + oy); paste_size := Painter.size p |}])
   /\ (Painter.size p <> image -> pw < 1 \/ ph < 1 ->
       ImageBg.draw bg p = Throw (Builtin ValueError)))
  /\ (mode = "fixed"%string ->
      exists x y,
        ImageBg.draw bg p
        = Return [{| paste_pos := (x + ox, y + oy); paste_size := image |}]
        /\ (fst image <= pw -> 0 <= x /\ x + fst image <= pw)
        /\ (snd image <= ph -> 0 <= y /\ y + snd image <= ph)
        /\ (align = "c"%string ->
            0 <= (pw - fst image - x) - x <= 1 /\ 0 <= (ph - snd image - y) - y <= 1)).
Proof.
  intros Hinit pw ph ox oy. unfold ImageBg.init in Hinit.
  destruct (ALIGN_MAP align) as [[ha va]|] eqn:Ealign; [|discriminate Hinit].
  cbn [assert_ bind] in Hinit.
  split.
  - intros ->. cbn in Hinit. injection Hinit as <-.
    unfold ImageBg.draw. cbn [ImageBg.img ImageBg.mode]. destruct image as [iw ih].
    unfold Painter_paste. split.
    + intros Hok.
      rewrite (paste_resize_size (iw, ih) (Painter.size p)) by exact Hok.
      reflexivity.
    + intros Hne Hlow. unfold paste_resize.
      destruct (size_eqb (Painter.size p) (iw, ih)) eqn:E;
        [apply size_eqb_eq in E; contradiction|].
      rewrite (Image_resize_refused (iw, ih) (Painter.size p) Hne Hlow).
      reflexivity.
  - intros ->. cbn in Hinit. injection Hinit as <-.
    unfold ImageBg.draw, ImageBg.lookup_align. cbn [ImageBg.img ImageBg.mode ImageBg.align].
    destruct image as [iw ih]. rewrite Ealign. cbn [try_bind fst snd].
    fold pw ph. unfold Painter_paste. cbn [paste_resize bind try_of try_bind fst snd].
    fold ox oy.
    exists (ImageBg.place_x ha pw iw), (ImageBg.place_y va ph ih).
    split; [reflexivity|].
    split; [|split].
    + intros Hw. destruct ha; cbn [ImageBg.place_x]; try lia.
      pose proof (Z.div_pos (pw - iw) 2 ltac:(lia) ltac:(lia)).
      pose proof (Z.div_mod (pw - iw) 2 ltac:(lia)).
      pose proof (Z.mod_pos_bound (pw - iw) 2 ltac:(lia)). lia.
    + intros Hh. destruct va; cbn [ImageBg.place_y]; try lia.
      pose proof (Z.div_pos (ph - ih) 2 ltac:(lia) ltac:(lia)).
      pose proof (Z.div_mod (ph - ih) 2 ltac:(lia)).
      pose proof (Z.mod_pos_bound (ph - ih) 2 ltac:(lia)). lia.
    + intros ->. cbn in Ealign. injection Ealign as <- <-.
      cbn [ImageBg.place_x ImageBg.place_y].
      pose proof (Z.div_mod (pw - iw) 2 ltac:(lia)).
      pose proof (Z.mod_pos_bound (pw - iw) 2 ltac:(lia)).
      pose proof (Z.div_mod (ph - ih) 2 ltac:(lia)).
      pose proof (Z.mod_pos_bound (ph - ih) 2 ltac:(lia)). lia.
Qed.

(** X27, witness: an image of 4 by 3 in the middle of a region of 11 by 10
    at (7, 2); and the same image filling a region of 5 by 0. *)
Lemma background_paste_inside_region_witness :
  (exists x y,
     ImageBg.draw {| ImageBg.img := (4, 3); ImageBg.align := "c"; ImageBg.mode := BgFixed |}
       (Painter.set_region (Painter.init {| im_mode := RGBA; im_size := (20, 20) |})
          (7, 2) (11, 10))
     = Return [{| paste_pos := (x + 7, y + 2); paste_size := (4, 3) |}]
     /\ 0 <= (11 - 4 - x) - x <= 1 /\ 0 <= (10 - 3 - y) - y <= 1)
  /\ ImageBg.draw {| ImageBg.img := (4, 3); ImageBg.align := "c"; ImageBg.mode := BgFill |}
       (Painter.set_region (Painter.init {| im_mode := RGBA; im_size := (20, 20) |})
          (7, 2) (5, 0))
     = Throw (Builtin ValueError).
Proof.
  split.
  - destruct (proj2 (background_paste_inside_region
                       {| ImageBg.img := (4, 3); ImageBg.align := "c";
                          ImageBg.mode := BgFixed |}
                       (Painter.set_region
                          (Painter.init {| im_mode := RGBA; im_size := (20, 20) |})
                          (7, 2) (11, 10)) (4, 3) "c" "fixed" eq_refl) eq_refl)
      as (x & y & Hrun & _ & _ & Hc).
    exists x, y. split; [exact Hrun | exact (Hc eq_refl)].
  - apply (proj2 (proj1 (background_paste_inside_region
                           {| ImageBg.img := (4, 3); ImageBg.align := "c";
                              ImageBg.mode := BgFill |}
                           (Painter.set_region
                              (Painter.init {| im_mode := RGBA; im_size := (20, 20) |})
                              (7, 2) (5, 0)) (4, 3) "c" "fill" eq_refl) eq_refl)).
    + cbn. discriminate.
    + right. cbn. lia.
Defined.

(* ===================================================================== *)
(** ** Colors as lists                                                     *)
(* ===================================================================== *)

(** [c[i] = v] on a list *)
Definition list_set (c : list Z) (i : nat) (v : Z) : Try (list Z) :=
  if (i <? length c)%nat then Return (firstn i c ++ v :: skipn (S i) c)
  else Throw IndexError.

Definition set_if_given (c : list Z) (i : nat) (v : option Z) : Try (list Z) :=
  match v with
  | Some x => list_set c i x
  | None => Return c
  end.

(** [adjust_color] *)
Definition adjust_color (c : list Z) (r g b a : option Z) : Try (list Z) :=
  let c := if len c =? 3 then c ++ [255] else c in
  c <-- set_if_given c 0 r ;;
  c <-- set_if_given c 1 g ;;
  c <-- set_if_given c 2 b ;;
  c <-- set_if_given c 3 a ;;
  Return c.

Definition or_else (v : option Z) (d : Z) : Z :=
  match v with
  | Some x => x
  | None => d
  end.

Definition or_opt (v2 v1 : option Z) : option Z :=
  match v2 with
  | Some _ => v2
  | None => v1
  end.

(** X28. [adjust_color] on a color of three or four channels returns four
    channels: each argument given replaces its channel, the others are kept,
    and a color of three channels gets the alpha 255 unless [a] is given.
    Two adjustments in a row are one adjustment by the later argument where
    it is given and by the earlier one otherwise.  On a color of fewer than
    three channels a given [a] raises [IndexError]. *)
Theorem adjust_color_channels (c0 c1 c2 : Z) (r g b a : option Z) :
  (forall alpha : option Z,
      let c := match alpha with Some c3 => [c0; c1; c2; c3] | None => [c0; c1; c2] end in
      adjust_color c r g b a
      = Return [or_else r c0; or_else g c1; or_else b c2; or_else a (or_else alpha 255)]
      /\ forall r' g' b' a' c',
           adjust_color c r g b a = Return c' ->
           adjust_color c' r' g' b' a'
           = adjust_color c (or_opt r' r) (or_opt g' g) (or_opt b' b) (or_opt a' a))
  /\ (forall short x,
         (length short < 3)%nat ->
         adjust_color short r g b (Some x) = Throw IndexError).
Proof.
  split.
  - intros alpha c.
    assert (H : adjust_color c r g b a
                = Return [or_else r c0; or_else g c1; or_else b c2;
                          or_else a (or_else alpha 255)])
      by (unfold c; destruct alpha, r, g, b, a; reflexivity).
    split; [exact H|].
    intros r' g' b' a' c' Hc. rewrite H in Hc. injection Hc as <-.
    unfold c. destruct alpha, r, g, b, a, r', g', b', a'; reflexivity.
  - intros short x Hlen.
    destruct short as [|s0 [|s1 [|s2 short]]]; [| | |cbn [length] in Hlen; lia];
      destruct r, g, b; reflexivity.
Qed.

(** One channel of [lerp_color]:
    [max(0, min(255, int(c1[i] * (1 - t) + c2[i] * t)))] *)
Definition lerp_channel (k1 k2 : Z) (t : float) : Res Z :=
  v <- py_int (float_of_Z k1 * (1 - t) + float_of_Z k2 * t)%float ;;
  Ok (Z.max 0 (Z.min 255 v)).

(** [lerp_color], with a float [t]: the loop over [range(len(c1))]. *)
Fixpoint lerp_color (c1 c2 : list Z) (t : float) : Try (list Z) :=
  match c1 with
  | [] => Return []
  | k1 :: c1' =>
      match c2 with
      | [] => Throw IndexError
      | k2 :: c2' =>
          v <-- try_of (lerp_channel k1 k2 t) ;;
          rest <-- lerp_color c1' c2' t ;;
          Return (v :: rest)
      end
  end.

Lemma channel_times_zero k :
  channel_in_range k -> (float_of_Z k * 0 = 0)%float.
Proof.
  intros Hk. apply Leibniz.eqb_spec.
  apply (all_channels_spec (fun k => Leibniz.eqb (float_of_Z k * 0) 0)%float);
    [|assumption].
  vm_compute. reflexivity.
Qed.

Lemma channel_times_one_minus_one k :
  channel_in_range k -> (float_of_Z k * (1 - 1) = 0)%float.
Proof.
  intros Hk. apply Leibniz.eqb_spec.
  apply (all_channels_spec (fun k => Leibniz.eqb (float_of_Z k * (1 - 1)) 0)%float);
    [|assumption].
  vm_compute. reflexivity.
Qed.

Lemma lerp_channel_at_0 k1 k2 :
  channel_in_range k1 -> channel_in_range k2 -> lerp_channel k1 k2 0 = Ok k1.
Proof.
  intros H1 H2. unfold lerp_channel. rewrite (channel_times_zero k2 H2).
  assert (H : match py_int (float_of_Z k1 * (1 - 0) + 0)%float with
              | Ok v => Z.max 0 (Z.min 255 v) =? k1
              | Raise _ => false
              end = true).
  { apply (all_channels_spec
             (fun k => match py_int (float_of_Z k * (1 - 0) + 0)%float with
                       | Ok v => Z.max 0 (Z.min 255 v) =? k
                       | Raise _ => false
                       end)); [|assumption].
    vm_compute. reflexivity. }
  destruct (py_int (float_of_Z k1 * (1 - 0) + 0)%float) as [v|e]; [|discriminate H].
  cbn [bind]. apply Z.eqb_eq in H. rewrite H. reflexivity.
Qed.

Lemma lerp_channel_at_1 k1 k2 :
  channel_in_range k1 -> channel_in_range k2 -> lerp_channel k1 k2 1 = Ok k2.
Proof.
  intros H1 H2. unfold lerp_channel. rewrite (channel_times_one_minus_one k1 H1).
  assert (H : match py_int (0 + float_of_Z k2 * 1)%float with
              | Ok v => Z.max 0 (Z.min 255 v) =? k2
              | Raise _ => false
              end = true).
  { apply (all_channels_spec
             (fun k => match py_int (0 + float_of_Z k * 1)%float with
                       | Ok v => Z.max 0 (Z.min 255 v) =? k
                       | Raise _ => false
                       end)); [|assumption].
    vm_compute. reflexivity. }
  destruct (py_int (0 + float_of_Z k2 * 1)%float) as [v|e]; [|discriminate H].
  cbn [bind]. apply Z.eqb_eq in H. rewrite H. reflexivity.
Qed.

(** X29. [lerp_color(c1, c2, t)] with a float [t]: when it returns, the
    color has as many channels as [c1], all in 0..255, whatever the colors
    and [t]; with the channels of both colors in 0..255 and [c2] as long as
    [c1], [t = 0.0] gives [c1] and [t = 1.0] gives [c2]; a [c2] shorter than
    [c1] never gives a color. *)
Theorem lerp_color_ends (c1 c2 : list Z) (t : float) :
  (forall c, lerp_color c1 c2 t = Return c ->
             length c = length c1 /\ Forall channel_in_range c)
  /\ (Forall channel_in_range c1 -> Forall channel_in_range c2 ->
      length c2 = length c1 ->
      lerp_color c1 c2 0 = Return c1 /\ lerp_color c1 c2 1 = Return c2)
  /\ ((length c2 < length c1)%nat -> forall c, lerp_color c1 c2 t <> Return c).
Proof.
  split; [|split].
  - revert c2. induction c1 as [|k1 c1 IH]; intros c2 c H; cbn [lerp_color] in H.
    + injection H as <-. split; [reflexivity | constructor].
    + destruct c2 as [|k2 c2]; [discriminate H|].
      unfold lerp_channel in H.
      destruct (py_int _) as [v|e]; cbn [bind try_of try_bind] in H; [|discriminate H].
      destruct (lerp_color c1 c2 t) as [rest|e] eqn:Er; cbn [try_bind] in H;
        [|discriminate H].
      injection H as <-. destruct (IH c2 rest Er) as [Hl Hr]. split.
      * cbn [length]. rewrite Hl. reflexivity.
      * constructor; [unfold channel_in_range; lia | exact Hr].
  - intros H1. revert c2. induction H1 as [|k1 c1 Hk1 _ IH]; intros c2 H2 Hlen.
    + destruct c2; [split; reflexivity | discriminate Hlen].
    + destruct c2 as [|k2 c2]; [discriminate Hlen|].
      inversion H2 as [|? ? Hk2 H2']; subst. injection Hlen as Hlen.
      destruct (IH c2 H2' Hlen) as [E0 E1]. cbn [lerp_color].
      rewrite (lerp_channel_at_0 k1 k2 Hk1 Hk2), (lerp_channel_at_1 k1 k2 Hk1 Hk2).
      cbn [try_of try_bind]. rewrite E0, E1. split; reflexivity.
  - revert c2. induction c1 as [|k1 c1 IH]; intros c2 Hlen c H; cbn [length] in Hlen; [lia|].
    cbn [lerp_color] in H. destruct c2 as [|k2 c2]; [discriminate H|].
    destruct (try_of (lerp_channel k1 k2 t)) as [v|e]; cbn [try_bind] in H; [|discriminate H].
    destruct (lerp_color c1 c2 t) as [rest|e] eqn:Er; cbn [try_bind] in H; [|discriminate H].
    apply (IH c2 ltac:(cbn [length] in Hlen; lia) rest Er).
Qed.

(** X29, witness: from red to blue. *)
Lemma lerp_color_ends_witness :
  lerp_color [255; 0; 0; 255] [0; 0; 255; 255] 0 = Return [255; 0; 0; 255]
  /\ lerp_color [255; 0; 0; 255] [0; 0; 255; 255] 1 = Return [0; 0; 255; 255].
Proof.
  refine (proj1 (proj2 (lerp_color_ends [255; 0; 0; 255] [0; 0; 255; 255] 0)) _ _ eq_refl);
    repeat constructor; unfold channel_in_range; lia.
Defined.

(** Half way from red to blue. *)
Example lerp_color_half_way :
  lerp_color [255; 0; 0; 255] [0; 0; 255; 255] 0.5 = Return [127; 0; 127; 255].
Proof. vm_compute. reflexivity. Qed.

(* ===================================================================== *)
(** ** Images side by side                                                 *)
(* ===================================================================== *)

Lemma paste_right_In images x c :
  In c (paste_right images x) ->
  In (paste_size c) images /\ snd (paste_pos c) = 0
  /\ (Forall (fun img => 0 <= fst img) images -> x <= fst (paste_pos c)).
Proof.
  revert x. induction images as [|img rest IH]; intros x Hin; cbn [paste_right] in Hin;
    [destruct Hin|].
  destruct Hin as [<-|Hin].
  - cbn [paste_size paste_pos fst snd]. split; [left; reflexivity|]. split; [reflexivity|].
    intros _. lia.
  - destruct (IH _ Hin) as (Hs & Hy & Hx). split; [right; exact Hs|]. split; [exact Hy|].
    intros Hall. inversion Hall as [|? ? Hw Hrest]; subst.
    specialize (Hx Hrest). lia.
Qed.

Lemma paste_right_nth images : forall x i c,
  nth_error (paste_right images x) i = Some c ->
  nth_error images i = Some (paste_size c)
  /\ paste_pos c = (x + py_sum (map fst (firstn i images)), 0).
Proof.
  induction images as [|img rest IH]; intros x i c H; cbn [paste_right] in H.
  - destruct i; discriminate H.
  - destruct i as [|i]; cbn [nth_error] in H.
    + injection H as <-. cbn [paste_size paste_pos firstn map nth_error].
      split; [reflexivity|]. unfold py_sum. cbn [fold_left]. f_equal. lia.
    + destruct (IH _ _ _ H) as [Hs Hp]. cbn [nth_error firstn map].
      split; [exact Hs|]. rewrite Hp, py_sum_cons. f_equal. lia.
Qed.

Lemma paste_right_covers H images : forall x X Y,
  Forall (fun img => snd img = H /\ 0 <= fst img) images ->
  0 <= Y < H -> x <= X < x + py_sum (map fst images) ->
  exists c,
    In c (paste_right images x) /\ covers c X Y
    /\ forall c', In c' (paste_right images x) -> covers c' X Y -> c' = c.
Proof.
  induction images as [|img rest IH]; intros x X Y Hall HY HX.
  - cbn [map] in HX. unfold py_sum in HX. cbn [fold_left] in HX. lia.
  - inversion Hall as [|? ? [Hh Hw] Hrest]; subst.
    cbn [map] in HX. rewrite py_sum_cons in HX. cbn [paste_right].
    assert (Hnn : Forall (fun img => 0 <= fst img) rest)
      by (eapply Forall_impl; [|exact Hrest]; cbv beta; intros ? [_ ?]; assumption).
    destruct (Z_lt_ge_dec X (x + fst img)) as [Hlt|Hge].
    + exists {| paste_pos := (x, 0); paste_size := img |}.
      split; [left; reflexivity|]. split.
      * unfold covers. cbn [paste_pos paste_size fst snd]. lia.
      * intros c' [<-|Hin] Hcov; [reflexivity|].
        destruct (paste_right_In _ _ _ Hin) as (_ & _ & Hx). specialize (Hx Hnn).
        unfold covers in Hcov. lia.
    + destruct (IH (x + fst img) X Y Hrest HY ltac:(lia)) as (c & Hin & Hcov & Huniq).
      exists c. split; [right; exact Hin|]. split; [exact Hcov|].
      intros c' [<-|Hin'] Hcov'.
      * unfold covers in Hcov'. cbn [paste_pos paste_size fst snd] in Hcov'. lia.
      * apply Huniq; assumption.
Qed.

(** X30. [concat_images] in mode 'h', when it returns: there is an image
    at least, the new image is as high as the highest and as wide as the sum
    of the widths pasted; every image is pasted as high as the new image, at
    its own size when it is that high already, at the top edge, in order,
    each right of the one before; so that, when no pasted width is negative,
    every pixel of the new image lies under exactly one paste. *)
Theorem concat_h_stacks (images : list Size) (ret : Image) (pastes : list Paste) :
  concat_h images = Ok (ret, pastes) ->
  let max_h := snd (im_size ret) in
  images <> []
  /\ Forall (fun img => snd img <= max_h) images
  /\ Exists (fun img => snd img = max_h) images
  /\ fst (im_size ret) = py_sum (map (fun c => fst (paste_size c)) pastes)
  /\ Forall2 (fun img c =>
                snd (paste_size c) = max_h
                /\ (snd img = max_h -> paste_size c = img)) images pastes
  /\ (forall i c,
         nth_error pastes i = Some c ->
         paste_pos c
         = (py_sum (map (fun c' => fst (paste_size c')) (firstn i pastes)), 0))
  /\ (Forall (fun c => 0 <= fst (paste_size c)) pastes ->
      forall X Y,
        0 <= X < fst (im_size ret) -> 0 <= Y < max_h ->
        exists c,
          In c pastes /\ covers c X Y
          /\ forall c', In c' pastes -> covers c' X Y -> c' = c).
Proof.
  intros H. unfold concat_h in H.
  apply bind_Ok in H. destruct H as (mh & Hmax & H).
  apply bind_Ok in H. destruct H as (scaled & Hseq & H).
  apply bind_Ok in H. destruct H as (ret0 & Hnew & H).
  apply Image_new_Ok in Hnew. subst ret0.
  injection H as <- <-. cbn [im_size fst snd]. cbv zeta.
  destruct (py_max_list_bounds _ _ Hmax) as [Hle Hin].
  apply sequence_Ok_Forall2 in Hseq.
  assert (Hscaled : Forall2 (fun img s => snd s = mh /\ (snd img = mh -> s = img))
                      images scaled).
  { eapply Forall2_impl; [|exact Hseq]. intros img s Hs. cbv beta in Hs.
    destruct (Z.eqb_spec (snd img) mh) as [E|E].
    - injection Hs as <-. split; [exact E | reflexivity].
    - apply bind_Ok in Hs. destruct Hs as (f & _ & Hs).
      apply bind_Ok in Hs. destruct Hs as (nw & _ & Hs).
      apply Image_resize_Ok in Hs. subst s.
      split; [reflexivity | intros E'; contradiction]. }
  assert (Hsizes : map paste_size (paste_right scaled 0) = scaled).
  { generalize 0. clear. induction scaled as [|s rest IH]; intros x; cbn [paste_right map];
      [reflexivity | rewrite IH; reflexivity]. }
  assert (Hwidths : map (fun c => fst (paste_size c)) (paste_right scaled 0) = map fst scaled)
    by (rewrite <- (map_map paste_size fst), Hsizes; reflexivity).
  split; [intros ->; discriminate Hmax|].
  split; [rewrite Forall_map in Hle; exact Hle|].
  split; [apply Exists_exists; apply in_map_iff in Hin;
          destruct Hin as (img & E & Hi); exists img; auto|].
  split; [rewrite Hwidths; reflexivity|].
  split; [|split].
  - clear -Hscaled. generalize 0. induction Hscaled as [|img s images scaled Hs _ IH];
      intros x; cbn [paste_right]; constructor; [exact Hs | apply IH].
  - intros i c Hc. destruct (paste_right_nth scaled 0 i c Hc) as [_ Hp].
    rewrite Hp, Z.add_0_l, <- !firstn_map, Hwidths. reflexivity.
  - intros Hnn X Y HX HY. apply (paste_right_covers mh scaled 0 X Y).
    + apply Forall_forall. intros s Hs. split.
      * destruct (Forall2_In_r _ _ _ _ Hscaled Hs) as (img & _ & Hh & _). exact Hh.
      * rewrite Forall_forall in Hnn.
        assert (Hin' : In s (map paste_size (paste_right scaled 0)))
          by (rewrite Hsizes; exact Hs).
        apply in_map_iff in Hin'. destruct Hin' as (c & <- & Hc). apply Hnn. exact Hc.
    + exact HY.
    + lia.
Qed.

(** X30, witness: two images, the second one scaled from 10 by 10 to 30 by
    30. *)
Lemma concat_h_stacks_witness :
  fst (im_size {| im_mode := RGBA; im_size := (50, 30) |})
  = py_sum (map (fun c => fst (paste_size c))
              [{| paste_pos := (0, 0); paste_size := (20, 30) |};
               {| paste_pos := (20, 0); paste_size := (30, 30) |}]).
Proof.
  exact (proj1 (proj2 (proj2 (proj2
           (concat_h_stacks [(20, 30); (10, 10)]
              {| im_mode := RGBA; im_size := (50, 30) |}
              [{| paste_pos := (0, 0); paste_size := (20, 30) |};
               {| paste_pos := (20, 0); paste_size := (30, 30) |}] eq_refl))))).
Defined.
